(** * Link-health checker of the bookmark manager

    A shallow embedding of the link-health subsystem:
    - the browser-side service [src/services/linkValidator.ts]
      (URL normalisation, response classification, the single-link check
      and the batch scheduler), and
    - the server-side helpers and the [GET /api/link-health] route,
    - of the rest of the server: the two statements [db.js] builds at run
      time ([updateBookmark], [updateUser]) and the guards in front of
      [DELETE /api/admin/users/:id].

    Asynchronous code is written in a small state-and-exception monad; the
    network is an explicit environment that fixes, for each request a check
    may issue, how that request settles.  The batch scheduler is a
    transition system whose events are the settlements of in-flight checks
    and the firing of the caller's abort signal. *)

From Stdlib Require Import ZArith Bool Ascii String Permutation.
From stdpp Require Import base option list gmap strings.

Set Default Proof Using "Type".

(** ** Values shared by both sides *)

(** [type InternalLinkHealthStatus = "ok" | "dead" | "unknown"]; the public
    [LinkHealthStatus] is the same set of strings without ["unknown"].  Types
    are erased at run time, so every status is modelled in the larger type and
    the absence of [unknown] is a theorem, not a typing fact. *)
Inductive InternalLinkHealthStatus : Type := ok | dead | unknown.

#[global] Instance InternalLinkHealthStatus_eq_dec : EqDecision InternalLinkHealthStatus.
Proof. solve_decision. Defined.

(** JavaScript error objects as far as the handlers inspect them. *)
Record JsError : Type := mkError {
  err_name : string;
  err_message : string;
  err_code : option string
}.

Definition abortError : JsError :=
  mkError "AbortError" "The operation was aborted" None.
Definition typeError (msg : string) : JsError := mkError "TypeError" msg None.
Definition plainError (msg : string) : JsError := mkError "Error" msg None.

(** The platform's [URL] object, reduced to the fields the code reads; [port]
    is [None] for the empty port string and the number it denotes otherwise. *)
Record URL : Type := mkURL {
  protocol : string;
  hostname : string;
  port : option Z;
  href : string
}.

Inductive ResponseType : Type :=
  | basic | cors | default_type | error_type | opaque | opaqueredirect.

#[global] Instance ResponseType_eq_dec : EqDecision ResponseType.
Proof. solve_decision. Defined.

(** A fetch [Response]: [type], [status], [ok] and the final [url]. *)
Record Response : Type := mkResponse {
  resp_type : ResponseType;
  resp_status : Z;
  resp_ok : bool;
  resp_url : string
}.

Inductive Method : Type := HEAD | GET.

#[global] Instance Method_eq_dec : EqDecision Method.
Proof. solve_decision. Defined.

(** [String.prototype.trim] on byte strings: the white space and line
    terminators of the ASCII range are stripped from both ends. *)
Fixpoint trimStart (s : string) : string :=
  match s with
  | EmptyString => EmptyString
  | String a rest => if Ascii.is_space a then trimStart rest else s
  end.

Definition trim (s : string) : string :=
  String.rev (trimStart (String.rev (trimStart s))).

(** [trimStart] read on the list of characters of a string. *)
Fixpoint dropBlanks (l : list ascii) : list ascii :=
  match l with
  | [] => []
  | a :: rest => if Ascii.is_space a then dropBlanks rest else l
  end.

(** [String.prototype.toLowerCase] on the ASCII letters. *)
Definition toLowerAscii (a : ascii) : ascii :=
  let n := nat_of_ascii a in
  if (65 <=? n)%nat && (n <=? 90)%nat then ascii_of_nat (n + 32) else a.

Fixpoint toLowerCase (s : string) : string :=
  match s with
  | EmptyString => EmptyString
  | String a rest => String (toLowerAscii a) (toLowerCase rest)
  end.

(** Completion of a piece of JavaScript: a value or a thrown error. *)
Inductive Completion (A : Type) : Type :=
  | Return (a : A)
  | Throw (e : JsError).
Arguments Return {A} a.
Arguments Throw {A} e.

(** ** A state-and-exception monad for [async] code *)
Module Async.

Definition t (S A : Type) : Type := S -> Completion A * S.

Definition ret {S A} (a : A) : t S A := fun s => (Return a, s).

Definition throw {S A} (e : JsError) : t S A := fun s => (Throw e, s).

Definition bind {S A B} (m : t S A) (k : A -> t S B) : t S B :=
  fun s =>
    match m s with
    | (Return a, s') => k a s'
    | (Throw e, s') => (Throw e, s')
    end.

(** [try { m } catch (e) { h e }] *)
Definition try_catch {S A} (m : t S A) (h : JsError -> t S A) : t S A :=
  fun s =>
    match m s with
    | (Return a, s') => (Return a, s')
    | (Throw e, s') => h e s'
    end.

Definition modify {S} (f : S -> S) : t S unit := fun s => (Return tt, f s).

End Async.

Declare Scope async_scope.
Delimit Scope async_scope with async.
Notation "'let*' x ':=' m 'in' k" := (Async.bind m (fun x => k))
  (at level 10, x name, m at level 100, k at level 200) : async_scope.

(** * The browser-side service *)
Module Client.

(** Requests the service hands to [fetch].  The call to the own server is
    kept structured (normalised target, mode, sub-timeout) instead of as the
    encoded query string. *)
Inductive Request : Type :=
  | ApiRequest (target : string) (mode : string) (timeoutMs : Z)
  | DirectRequest (m : Method) (target : string).

(** One [fetch] invocation: the request and whether it left the browser.  A
    [fetch] on a signal that is already aborted rejects with [AbortError]
    before anything is sent. *)
Record NetCall : Type := mkCall {
  nc_request : Request;
  nc_sent : bool
}.

(** What fires while a direct request is in flight. *)
Inductive AbortSource : Type := ExternalSignal | OverallTimer.

Inductive FetchOutcome : Type :=
  | Responded (r : Response)
  | NetworkFailure (msg : string)
  | AbortedInFlight (src : AbortSource).

(** The server's JSON reply as the client reads it: [resp.ok] and
    [data?.status] ([None] when the body is not JSON or has no status). *)
Record ApiReply : Type := mkApiReply {
  api_ok : bool;
  api_status : option string
}.

(** The API call has a controller of its own; [ApiAborted None] is its
    sub-timeout firing, [ApiAborted (Some src)] an abort of the enclosing
    check that the merged signal passes on. *)
Inductive ApiOutcome : Type :=
  | ApiResponded (r : ApiReply)
  | ApiNetworkFailure (msg : string)
  | ApiAborted (src : option AbortSource).

(** How the network settles the three requests one check can issue. *)
Record NetEnv : Type := mkEnv {
  env_api : ApiOutcome;
  env_head : FetchOutcome;
  env_get : FetchOutcome
}.

(** State threaded through one check: the caller's signal, the check's own
    controller (merged with it) and the [fetch] invocations so far.  An absent
    [options.signal] behaves as a signal that never fires. *)
Record Net : Type := mkNet {
  ext_aborted : bool;
  ctl_aborted : bool;
  net_log : list NetCall
}.

Definition initialNet (signalAborted : bool) : Net :=
  mkNet signalAborted false [].

Definition abortController (s : Net) : Net :=
  mkNet (ext_aborted s) true (net_log s).

Definition fire (src : AbortSource) (s : Net) : Net :=
  match src with
  | ExternalSignal => mkNet true true (net_log s)
  | OverallTimer => mkNet (ext_aborted s) true (net_log s)
  end.

Definition logCall (c : NetCall) (s : Net) : Net :=
  mkNet (ext_aborted s) (ctl_aborted s) (net_log s ++ [c]).

Definition isDirect (m : Method) (r : Request) : bool :=
  match r with
  | DirectRequest m' _ => bool_decide (m = m')
  | ApiRequest _ _ _ => false
  end.

Abbreviation Task := (Async.t Net).

Local Open Scope async_scope.

(** [mergeSignals(externalSignal, internalController)]: an already aborted
    caller signal aborts the controller at once; later aborts are passed on by
    the listener, which [fire] accounts for. *)
Definition mergeSignals : Task unit :=
  Async.modify (fun s => if ext_aborted s then abortController s else s).

(** [fetch(target, { signal })] on the check's merged signal. *)
Definition fetch (req : Request) (o : FetchOutcome) : Task Response :=
  fun s =>
    if ctl_aborted s then (Throw abortError, logCall (mkCall req false) s)
    else
      let s' := logCall (mkCall req true) s in
      match o with
      | Responded r => (Return r, s')
      | NetworkFailure msg => (Throw (typeError msg), s')
      | AbortedInFlight src => (Throw abortError, fire src s')
      end.

(** The API [fetch] runs on the API controller's signal, which is aborted
    from the start exactly when the enclosing signal is.  [resp.json()] is
    folded into the reply. *)
Definition fetchApi (req : Request) (o : ApiOutcome) : Task ApiReply :=
  fun s =>
    if ctl_aborted s then (Throw abortError, logCall (mkCall req false) s)
    else
      let s' := logCall (mkCall req true) s in
      match o with
      | ApiResponded r => (Return r, s')
      | ApiNetworkFailure msg => (Throw (typeError msg), s')
      | ApiAborted None => (Throw abortError, s')
      | ApiAborted (Some src) => (Throw abortError, fire src s')
      end.

Definition classifyResponse (resp : Response) : InternalLinkHealthStatus :=
  if bool_decide (resp_type resp = opaque) then unknown
  else
    let status := resp_status resp in
    if (status =? 404)%Z || (status =? 410)%Z then dead
    else if (status =? 401)%Z || (status =? 403)%Z then dead
    else if (status >=? 500)%Z then dead
    else if (status >=? 200)%Z && (status <? 400)%Z then ok
    else unknown.

Definition isAbortError (e : JsError) : bool :=
  bool_decide (err_name e = "AbortError").

Record CheckOptions : Type := mkCheckOptions {
  opt_timeoutMs : option Z
}.

Section WithURLParser.

(** [new URL(s)]: [None] when the constructor throws. *)
Variable parseURL : string -> option URL.

Definition normalizeUrl (rawUrl : string) : option string :=
  let trimmed := trim rawUrl in
  if bool_decide (trimmed = EmptyString) then None
  else
    match parseURL trimmed with
    | Some u =>
        if bool_decide (protocol u ≠ "http:") && bool_decide (protocol u ≠ "https:")
        then None
        else Some (href u)
    | None =>
        match parseURL ("https://" +:+ trimmed) with
        | Some u => Some (href u)
        | None => None
        end
    end.

(** [checkLinkHealthViaApi]: [Some ok], [Some dead] or [None] for [null]. *)
Definition checkLinkHealthViaApi (env : NetEnv) (url : string)
    (timeoutMs : option Z) (mode : option string)
  : Task (option InternalLinkHealthStatus) :=
  match normalizeUrl url with
  | None => Async.ret None
  | Some normalized =>
      let timeoutMs := default 8000%Z timeoutMs in
      let mode := default "auto" mode in
      Async.try_catch
        (let* resp := fetchApi (ApiRequest normalized mode timeoutMs) (env_api env) in
         if negb (api_ok resp) then Async.ret None
         else
           match api_status resp with
           | Some status =>
               if bool_decide (status = "ok") then Async.ret (Some ok)
               else if bool_decide (status = "dead") then Async.ret (Some dead)
               else Async.ret None
           | None => Async.ret None
           end)
        (fun e => if isAbortError e then Async.ret None else Async.ret None)
  end.

(** [checkLinkHealth(url, options)].  The two timers show only through the
    aborts they cause ([AbortedInFlight], [ApiAborted]); [clearTimeout] in the
    [finally] blocks has no other effect on what is modelled. *)
Definition checkLinkHealth (env : NetEnv) (url : string) (options : CheckOptions)
  : Task InternalLinkHealthStatus :=
  match normalizeUrl url with
  | None => Async.ret dead
  | Some normalized =>
      let timeoutMs := default 8000%Z (opt_timeoutMs options) in
      let* _ := mergeSignals in
      let* apiStatus := checkLinkHealthViaApi env normalized
                          (Some (Z.min timeoutMs 4500)) (Some "auto") in
      match apiStatus with
      | Some status => Async.ret status
      | None =>
          Async.try_catch
            (let* resp := fetch (DirectRequest HEAD normalized) (env_head env) in
             let classified := classifyResponse resp in
             if bool_decide (classified ≠ unknown) then Async.ret classified
             else if (resp_status resp =? 405)%Z
                  then Async.throw (plainError "HEAD not allowed")
                  else Async.ret dead)
            (fun e =>
               if isAbortError e then Async.ret dead
               else
                 Async.try_catch
                   (let* resp := fetch (DirectRequest GET normalized) (env_get env) in
                    let classified := classifyResponse resp in
                    if bool_decide (classified ≠ unknown) then Async.ret classified
                    else Async.ret dead)
                   (fun e2 => if isAbortError e2 then Async.ret dead
                              else Async.ret dead))
      end
  end.

(** ** The batch scheduler *)

(** [{ id, url }]: a bookmark handed in by the caller, and also a queue item
    (whose [url] is then the normalised one). *)
Record Bookmark : Type := mkBookmark {
  b_id : string;
  b_url : string
}.

#[global] Instance Bookmark_eq_dec : EqDecision Bookmark.
Proof. solve_decision. Defined.

Record LinkCheckResult : Type := mkResult {
  r_id : string;
  r_url : string;
  r_status : InternalLinkHealthStatus
}.

Record CacheEntry : Type := mkEntry {
  ce_status : InternalLinkHealthStatus;
  checkedAt : Z
}.

(** [options.signal] is kept as its [aborted] flag at the time of the call;
    later firings are events of the run. *)
Record BatchCheckOptions : Type := mkOptions {
  concurrency : option Z;
  timeoutMs : option Z;
  signal : bool;
  cacheTtlMs : option Z;
  forceRefresh : option bool
}.

(** The item stored under ["linkHealthCache:v2"], by what [JSON.parse] makes
    of it: text that it rejects or that is no object, the JSON of an object
    (of which the members that are cache entries are kept; any other member
    is never fresh and plays no part), or the JSON of an array, given by its
    elements. *)
Inductive StoredItem : Type :=
  | Unreadable (raw : string)
  | CacheBlob (c : gmap string CacheEntry)
  | ArrayBlob (elements : list string).

(** [localStorage]: the item, and whether [setItem] succeeds (it throws on an
    exhausted quota). *)
Record LocalStorage : Type := mkStorage {
  ls_item : option StoredItem;
  ls_writable : bool
}.

(** The object that [readCache] returns and the workers write to: its
    members under url keys and, when the object is an array, its elements.
    An array passes the [typeof parsed !== "object"] test like any object;
    a url is no index, so the entries written to it are members that
    [JSON.stringify] leaves out. *)
Record Cache : Type := mkCache {
  c_entries : gmap string CacheEntry;
  c_elements : option (list string)
}.

(** [cache[url]] *)
#[global] Instance Cache_lookup : Lookup string CacheEntry Cache :=
  fun url c => c_entries c !! url.

(** [cache[url] = entry] *)
#[global] Instance Cache_insert : Insert string CacheEntry Cache :=
  fun url entry c => mkCache (<[url := entry]> (c_entries c)) (c_elements c).

(** [{}] *)
#[global] Instance Cache_empty : Empty Cache := mkCache ∅ None.

Definition readCache (ls : LocalStorage) : Cache :=
  match ls_item ls with
  | Some (CacheBlob c) => mkCache c None
  | Some (ArrayBlob elements) => mkCache ∅ (Some elements)
  | _ => ∅
  end.

(** [JSON.stringify(cache)]: of an array, the elements only. *)
Definition stringify (c : Cache) : StoredItem :=
  match c_elements c with
  | Some elements => ArrayBlob elements
  | None => CacheBlob (c_entries c)
  end.

Definition writeCache (c : Cache) (ls : LocalStorage) : LocalStorage :=
  if ls_writable ls then mkStorage (Some (stringify c)) true else ls.

(** What a run does that its caller can observe, in order: the [onProgress]
    calls (the callback is taken to return), and for each settled check its
    item, status, time stamp and the [fetch] invocations it made. *)
Inductive Effect : Type :=
  | OnProgress (processed total : nat)
  | Checked (item : Bookmark) (status : InternalLinkHealthStatus) (now : Z)
            (calls : list NetCall).

(** The variables the workers share, and per worker the item whose check it
    awaits ([None] once the worker has returned). *)
Record Batch : Type := mkBatch {
  cursor : nat;
  workers : list (option Bookmark);
  resultsById : gmap string LinkCheckResult;
  cache : Cache;
  processed : nat;
  aborted : bool;
  storage : LocalStorage;
  effects : list Effect;
  failure : option JsError
}.

(** What can happen while the workers await: the caller's signal fires, or
    the check of worker [w] settles, the network having behaved as [env]
    and [Date.now()] giving [now]. *)
Inductive Event : Type :=
  | AbortFired
  | Settled (w : nat) (env : NetEnv) (now : Z).

(** [Math.max(1, Math.min(options?.concurrency ?? 20, total || 1))] *)
Definition workerCount (options : BatchCheckOptions) (total : nat) : nat :=
  Z.to_nat
    (Z.max 1 (Z.min (default 20%Z (concurrency options))
                    (if (total =? 0)%nat then 1%Z else Z.of_nat total))).

Definition isFresh (options : BatchCheckOptions) (now : Z) (cached : CacheEntry) : bool :=
  negb (default false (forceRefresh options))
  && (now - checkedAt cached <=? default (12 * 60 * 60 * 1000)%Z (cacheTtlMs options))%Z.

(** One iteration of [for (const b of bookmarks)]. *)
Definition triage (cache0 : Cache) (now : Z)
    (options : BatchCheckOptions)
    (acc : gmap string LinkCheckResult * list Bookmark) (b : Bookmark)
  : gmap string LinkCheckResult * list Bookmark :=
  let '(results, queue) := acc in
  match normalizeUrl (b_url b) with
  | None => (<[b_id b := mkResult (b_id b) (b_url b) dead]> results, queue)
  | Some normalized =>
      match cache0 !! normalized with
      | Some cached =>
          if isFresh options now cached
          then (<[b_id b := mkResult (b_id b) (b_url b) (ce_status cached)]> results,
                queue)
          else (results, queue ++ [mkBookmark (b_id b) normalized])
      | None => (results, queue ++ [mkBookmark (b_id b) normalized])
      end
  end.

Definition prepass (cache0 : Cache) (now : Z)
    (options : BatchCheckOptions) (bookmarks : list Bookmark)
  : gmap string LinkCheckResult * list Bookmark :=
  fold_left (triage cache0 now options) bookmarks (∅, []).

(** The head of the worker loop: leave on an aborted signal, else take
    [cursor++] and leave when the queue is exhausted. *)
Definition claimNext (queue : list Bookmark) (st : Batch) : option Bookmark * Batch :=
  if aborted st then (None, st)
  else
    let index := cursor st in
    (queue !! index,
     mkBatch (S index) (workers st) (resultsById st) (cache st) (processed st)
       (aborted st) (storage st) (effects st) (failure st)).

Definition setWorker (w : nat) (slot : option Bookmark) (st : Batch) : Batch :=
  mkBatch (cursor st) (<[w := slot]> (workers st)) (resultsById st) (cache st)
    (processed st) (aborted st) (storage st) (effects st) (failure st).

Definition pushWorker (slot : option Bookmark) (st : Batch) : Batch :=
  mkBatch (cursor st) (workers st ++ [slot]) (resultsById st) (cache st)
    (processed st) (aborted st) (storage st) (effects st) (failure st).

(** [Array.from({ length: concurrency }, () => worker())]: each call runs to
    its first [await] before the next one starts. *)
Fixpoint launch (queue : list Bookmark) (n : nat) (st : Batch) : Batch :=
  match n with
  | O => st
  | S n' =>
      let '(slot, st') := claimNext queue st in
      launch queue n' (pushWorker slot st')
  end.

(** The body of the loop after [await checkLinkHealth(...)]. *)
Definition record (total : nat) (item : Bookmark)
    (status : InternalLinkHealthStatus) (now : Z) (calls : list NetCall)
    (st : Batch) : Batch :=
  mkBatch (cursor st) (workers st)
    (<[b_id item := mkResult (b_id item) (b_url item) status]> (resultsById st))
    (<[b_url item := mkEntry status now]> (cache st))
    (S (processed st)) (aborted st) (storage st)
    (effects st ++ [Checked item status now calls; OnProgress (S (processed st)) total])
    (failure st).

(** The signal handed to the check is the caller's: an abort seen by the
    check is seen by the loop. *)
Definition observeSignal (net : Net) (st : Batch) : Batch :=
  mkBatch (cursor st) (workers st) (resultsById st) (cache st) (processed st)
    (aborted st || ext_aborted net) (storage st) (effects st) (failure st).

(** A worker that throws rejects [Promise.all], and with it the call. *)
Definition reject (e : JsError) (st : Batch) : Batch :=
  mkBatch (cursor st) (workers st) (resultsById st) (cache st) (processed st)
    (aborted st) (storage st) (effects st)
    (match failure st with Some e0 => Some e0 | None => Some e end).

(** One event of the run.  A settlement of worker [w] runs the check the
    worker awaits against [env], then the rest of the loop body and the next
    loop head.  The loop head tests the signal right before it starts a
    check, so every check starts on a signal that has not fired. *)
Definition step (queue : list Bookmark) (total : nat) (options : BatchCheckOptions)
    (st : Batch) (ev : Event) : Batch :=
  match ev with
  | AbortFired =>
      mkBatch (cursor st) (workers st) (resultsById st) (cache st) (processed st)
        true (storage st) (effects st) (failure st)
  | Settled w env now =>
      match workers st !! w with
      | Some (Some item) =>
          let '(outcome, net) :=
            checkLinkHealth env (b_url item)
              (mkCheckOptions (Some (default 5000%Z (timeoutMs options))))
              (initialNet false) in
          let st1 := observeSignal net st in
          match outcome with
          | Throw e => setWorker w None (reject e st1)
          | Return status =>
              let st2 := record total item status now (net_log net) st1 in
              let '(slot, st3) := claimNext queue st2 in
              setWorker w slot st3
          end
      | _ => st
      end
  end.

Definition allReturned (st : Batch) : bool :=
  forallb (fun slot => bool_decide (slot = None)) (workers st).

Definition placeholder (b : Bookmark) : LinkCheckResult :=
  mkResult (b_id b) (b_url b) dead.

(** What the caller has once the promise settles. *)
Record Settlement : Type := mkSettlement {
  returned : Completion (list LinkCheckResult);
  finalStorage : LocalStorage;
  observed : list Effect
}.

(** The state in which the workers have been launched. *)
Definition started (bookmarks : list Bookmark) (options : BatchCheckOptions)
    (ls : LocalStorage) (now : Z) : Batch :=
  let total := length bookmarks in
  let cache0 := readCache ls in
  let '(results0, queue) := prepass cache0 now options bookmarks in
  launch queue (workerCount options total)
    (mkBatch 0 [] results0 cache0 (size results0) (signal options) ls
       [OnProgress (size results0) total] None).

Definition queueOf (bookmarks : list Bookmark) (options : BatchCheckOptions)
    (ls : LocalStorage) (now : Z) : list Bookmark :=
  snd (prepass (readCache ls) now options bookmarks).

(** The state after the events of [schedule]. *)
Definition during (bookmarks : list Bookmark) (options : BatchCheckOptions)
    (ls : LocalStorage) (now : Z) (schedule : list Event) : Batch :=
  fold_left (step (queueOf bookmarks options ls now) (length bookmarks) options)
    schedule (started bookmarks options ls now).

(** [batchCheckLinks(bookmarks, onProgress, options)] under a schedule of
    events: [None] while some worker still awaits its check. *)
Definition batchCheckLinks (bookmarks : list Bookmark) (options : BatchCheckOptions)
    (ls : LocalStorage) (now : Z) (schedule : list Event) : option Settlement :=
  let st := during bookmarks options ls now schedule in
  match failure st with
  | Some e => Some (mkSettlement (Throw e) (storage st) (effects st))
  | None =>
      if allReturned st then
        let ls' := if aborted st then storage st else writeCache (cache st) (storage st) in
        Some (mkSettlement
                (Return ((fun b => default (placeholder b) (resultsById st !! b_id b))
                           <$> bookmarks))
                ls' (effects st))
      else None
  end.

(** *** Reading a run *)

(** A settled check: its queue item, the status it returned, the time. *)
Record Settle : Type := mkSettle {
  s_item : Bookmark;
  s_status : InternalLinkHealthStatus;
  s_now : Z
}.

Definition progressCalls (es : list Effect) : list (nat * nat) :=
  omap (fun e => match e with OnProgress p t => Some (p, t) | _ => None end) es.

Definition settled (es : list Effect) : list Settle :=
  omap (fun e => match e with
                 | Checked item status now _ => Some (mkSettle item status now)
                 | _ => None
                 end) es.


Definition resultOf (c : Settle) : LinkCheckResult :=
  mkResult (b_id (s_item c)) (b_url (s_item c)) (s_status c).

Definition inflight (ws : list (option Bookmark)) : list Bookmark := omap id ws.

(** [resultsById.set(r.id, r)] and [cache[item.url] = { status, checkedAt }]. *)
Definition store (m : gmap string LinkCheckResult) (r : LinkCheckResult)
  : gmap string LinkCheckResult := <[r_id r := r]> m.

Definition remember (m : Cache) (c : Settle) : Cache :=
  <[b_url (s_item c) := mkEntry (s_status c) (s_now c)]> m.

(** The two outcomes of the first loop for one bookmark: a result that
    needs no network (invalid url, or a fresh cache entry), or a queue item. *)
Definition resolveLocally (cache0 : Cache) (now : Z)
    (options : BatchCheckOptions) (b : Bookmark) : option LinkCheckResult :=
  match normalizeUrl (b_url b) with
  | None => Some (mkResult (b_id b) (b_url b) dead)
  | Some normalized =>
      match cache0 !! normalized with
      | Some cached =>
          if isFresh options now cached
          then Some (mkResult (b_id b) (b_url b) (ce_status cached))
          else None
      | None => None
      end
  end.

Definition enqueue (cache0 : Cache) (now : Z)
    (options : BatchCheckOptions) (b : Bookmark) : option Bookmark :=
  match normalizeUrl (b_url b) with
  | None => None
  | Some normalized =>
      match cache0 !! normalized with
      | Some cached =>
          if isFresh options now cached then None
          else Some (mkBookmark (b_id b) normalized)
      | None => Some (mkBookmark (b_id b) normalized)
      end
  end.

(** Work left: queue items not yet claimed, and checks in flight. *)
Definition pending (queue : list Bookmark) (st : Batch) : nat :=
  (length queue - cursor st) + length (inflight (workers st)).

Definition isSettlement (env : NetEnv) (now : Z) (ev : Event) : Prop :=
  exists w : nat, ev = Settled w env now.

(** The worker count as the specification words it:
    [min(concurrency, queueLength, requestedConcurrency)]. *)
Definition workerCount_spec (concurrency queueLength requestedConcurrency : Z) : Z :=
  Z.min (Z.min concurrency queueLength) requestedConcurrency.

(** What holds of the shared variables between any two events of a run
    over [queue], started from [results0] and [cache0] on storage [ls]. *)
Record Inv (queue : list Bookmark) (results0 : gmap string LinkCheckResult)
    (cache0 : Cache) (total : nat) (ls : LocalStorage)
    (st : Batch) : Prop := mkInv {
  inv_claimed :
    (s_item <$> settled (effects st)) ++ inflight (workers st)
    ≡ₚ take (cursor st) queue;
  inv_results :
    resultsById st = fold_left store (resultOf <$> settled (effects st)) results0;
  inv_cache : cache st = fold_left remember (settled (effects st)) cache0;
  inv_processed : processed st = size results0 + length (settled (effects st));
  inv_progress :
    progressCalls (effects st)
    = (fun k => (size results0 + k, total)) <$> seq 0 (S (length (settled (effects st))));
  inv_storage : storage st = ls;
  inv_failure : failure st = None;
  inv_exit : aborted st = false -> None ∈ workers st -> length queue <= cursor st
}.

End WithURLParser.

End Client.

(** * The server side *)
Module Server.

(** What one request handler does to the outside world, in order.  The two
    [Enter...] entries mark the calls of the helpers with their arguments. *)
Inductive Op : Type :=
  | EnterHttpCheck (urlToCheck : string) (timeoutMs : Z)
  | EnterTcpProbe (targetUrl : string) (timeoutMs : Z)
  | Fetch (m : Method) (target : string) (sent : bool)
  | DnsLookup (host : string)
  | Connect (port : Z) (host : string) (timeoutMs : Z).

Inductive FetchOutcome : Type :=
  | Responded (r : Response)
  | NetworkFailure (msg : string)
  | TimedOut.

Inductive ConnectOutcome : Type :=
  | Connected
  | SocketTimeout
  | SocketError (e : JsError).

Record NetEnv : Type := mkEnv {
  env_head : FetchOutcome;
  env_get : FetchOutcome;
  env_dns : option JsError;
  env_connect : ConnectOutcome
}.

(** [srv_aborted] is the [aborted] flag of the controller of the HTTP check
    in progress; its only source is that check's timer. *)
Record Srv : Type := mkSrv {
  srv_aborted : bool;
  srv_ops : list Op
}.

Definition initialSrv : Srv := mkSrv false [].

Definition logOp (o : Op) (s : Srv) : Srv :=
  mkSrv (srv_aborted s) (srv_ops s ++ [o]).

Definition isHttpOp (o : Op) : bool :=
  match o with
  | EnterHttpCheck _ _ | Fetch _ _ _ => true
  | _ => false
  end.

Definition isTcpOp (o : Op) : bool :=
  match o with
  | EnterTcpProbe _ _ | DnsLookup _ | Connect _ _ _ => true
  | _ => false
  end.

Abbreviation Task := (Async.t Srv).

Local Open Scope async_scope.

Definition newAbortController : Task unit :=
  Async.modify (fun s => mkSrv false (srv_ops s)).

Definition enter (o : Op) : Task unit := Async.modify (logOp o).

Definition fetch (m : Method) (target : string) (o : FetchOutcome) : Task Response :=
  fun s =>
    if srv_aborted s then (Throw abortError, logOp (Fetch m target false) s)
    else
      let s' := logOp (Fetch m target true) s in
      match o with
      | Responded r => (Return r, s')
      | NetworkFailure msg => (Throw (typeError msg), s')
      | TimedOut => (Throw abortError, mkSrv true (srv_ops s'))
      end.

Definition classifyStatus (status : Z) : InternalLinkHealthStatus :=
  if (status =? 404)%Z || (status =? 410)%Z then dead
  else if (status =? 401)%Z || (status =? 403)%Z then dead
  else if (status >=? 500)%Z then dead
  else if (status >=? 200)%Z && (status <? 400)%Z then ok
  else unknown.

(** [String(e?.message || e)] *)
Definition describeError (e : JsError) : string :=
  if bool_decide (err_message e = EmptyString) then err_name e else err_message e.

Record HttpResult : Type := mkHttpResult {
  http_status : InternalLinkHealthStatus;
  httpStatus : option Z;
  finalUrl : option string;
  http_error : option string
}.

Record TcpResult : Type := mkTcpResult {
  tcp_status : InternalLinkHealthStatus;
  tcp_port : option Z;
  tcp_error : option string
}.

Definition checkLinkHealth (env : NetEnv) (urlToCheck : string) (timeoutMs : Z)
  : Task HttpResult :=
  let* _ := enter (EnterHttpCheck urlToCheck timeoutMs) in
  let* _ := newAbortController in
  Async.try_catch
    (Async.try_catch
       (let* resp := fetch HEAD urlToCheck (env_head env) in
        let status := classifyStatus (resp_status resp) in
        if bool_decide (status ≠ unknown)
        then Async.ret (mkHttpResult status (Some (resp_status resp))
                          (Some (resp_url resp)) None)
        else if (resp_status resp =? 405)%Z
             then Async.throw (plainError "HEAD not allowed")
             else Async.ret (mkHttpResult unknown (Some (resp_status resp))
                               (Some (resp_url resp)) None))
       (fun _ =>
          let* resp := fetch GET urlToCheck (env_get env) in
          let status := classifyStatus (resp_status resp) in
          Async.ret (mkHttpResult status (Some (resp_status resp))
                       (Some (resp_url resp)) None)))
    (fun e =>
       if bool_decide (err_name e = "AbortError")
       then Async.ret (mkHttpResult unknown None None (Some "timeout"))
       else Async.ret (mkHttpResult dead None None (Some (describeError e)))).

Definition dnsLookup (host : string) (o : option JsError) : Task unit :=
  fun s =>
    match o with
    | None => (Return tt, logOp (DnsLookup host) s)
    | Some e => (Throw e, logOp (DnsLookup host) s)
    end.

Definition socketConnect (p : Z) (host : string) (timeoutMs : Z)
    (o : ConnectOutcome) : Task unit :=
  fun s =>
    let s' := logOp (Connect p host timeoutMs) s in
    match o with
    | Connected => (Return tt, s')
    | SocketTimeout => (Throw (plainError "timeout"), s')
    | SocketError e => (Throw e, s')
    end.

(** The coerced [timeoutMs] query parameter, a JavaScript number;
    millisecond counts are taken to be integral. *)
Inductive JsNumber : Type := NaN | Infinite | Num (z : Z).

(** A query parameter as Express's parser hands it over: a string, or, for
    a parameter that is repeated ([mode=a&mode=b]) or written with brackets
    ([mode[x]=a]), an array or an object. *)
Inductive QueryValue : Type :=
  | Text (s : string)
  | Structured.

(** [req.query] as the route reads it.  [q_url] is [String(req.query.url)]
    for a parameter that is present ([None] for a missing one), [q_mode] is
    [req.query.mode] ([None] for [undefined]), and [q_timeoutMs] is what
    [Number(req.query.timeoutMs || '')] gives. *)
Record Query : Type := mkQuery {
  q_url : option string;
  q_mode : option QueryValue;
  q_timeoutMs : JsNumber
}.

(** The JSON bodies the route sends; each constructor is one object shape,
    with the spread results kept as records. *)
Inductive Body : Type :=
  | ErrorBody (error : string)
  | TcpBody (url mode : string) (tcp : TcpResult)
  | HttpBody (url mode : string) (http : HttpResult)
  | FallbackBody (url mode : string) (tcp : TcpResult) (httpFallback : HttpResult).

Record Reply : Type := mkReply {
  reply_code : Z;
  reply_body : Body
}.

Section WithURLParser.

Variable parseURL : string -> option URL.

Definition normalizeUrl (rawUrl : option string) : option string :=
  let trimmed := trim (default EmptyString rawUrl) in
  if bool_decide (trimmed = EmptyString) then None
  else
    match parseURL trimmed with
    | Some u =>
        if bool_decide (protocol u ≠ "http:") && bool_decide (protocol u ≠ "https:")
        then None
        else Some (href u)
    | None =>
        match parseURL ("https://" +:+ trimmed) with
        | Some u => Some (href u)
        | None => None
        end
    end.

Definition checkTcpConnectivity (env : NetEnv) (targetUrl : string) (timeoutMs : Z)
  : Task TcpResult :=
  let* _ := enter (EnterTcpProbe targetUrl timeoutMs) in
  Async.try_catch
    (match parseURL targetUrl with
     | None => Async.throw (typeError "Invalid URL")
     | Some u =>
         let p := match port u with
                  | Some n => n
                  | None => if bool_decide (protocol u = "https:") then 443%Z else 80%Z
                  end in
         let* _ := dnsLookup (hostname u) (env_dns env) in
         let* _ := socketConnect p (hostname u) timeoutMs (env_connect env) in
         Async.ret (mkTcpResult ok (Some p) None)
     end)
    (fun e =>
       if bool_decide (err_code e = Some "ENOTFOUND")
          || bool_decide (err_code e = Some "EAI_AGAIN")
       then Async.ret (mkTcpResult dead None (Some "dns"))
       else if bool_decide (err_message e = "timeout")
            then Async.ret (mkTcpResult dead None (Some "timeout"))
            else Async.ret (mkTcpResult dead None (Some (describeError e)))).

(** [(req.query.mode || 'auto').toLowerCase()]: an array or an object has
    no such method, and the call throws. *)
Definition requestedMode (q : Query) : Completion string :=
  match q_mode q with
  | Some (Text m) =>
      Return (toLowerCase (if bool_decide (m = EmptyString) then "auto" else m))
  | Some Structured =>
      Throw (typeError "(req.query.mode || 'auto').toLowerCase is not a function")
  | None => Return (toLowerCase "auto")
  end.

(** The value of an expression, or the error it throws, inside a handler. *)
Definition evaluate {A : Type} (c : Completion A) : Task A := fun s => (c, s).

(** [Number.isFinite(p) && p > 0 ? p : 6000] *)
Definition requestedTimeout (q : Query) : Z :=
  match q_timeoutMs q with
  | Num z => if (0 <? z)%Z then z else 6000%Z
  | _ => 6000%Z
  end.

(** The handler of [app.get('/api/link-health', ...)].  The handler is an
    [async] function: where it throws, its promise rejects and no reply is
    sent by the handler itself (Express then answers with status 500). *)
Definition linkHealthRoute (env : NetEnv) (q : Query) : Task Reply :=
  match normalizeUrl (q_url q) with
  | None => Async.ret (mkReply 400 (ErrorBody "Invalid url"))
  | Some normalized =>
      let* mode := evaluate (requestedMode q) in
      let timeoutMs := requestedTimeout q in
      if bool_decide (mode = "tcp") || bool_decide (mode = "ping") then
        let* tcp := checkTcpConnectivity env normalized (Z.min timeoutMs 3000) in
        Async.ret (mkReply 200 (TcpBody normalized "tcp" tcp))
      else
        let* httpResult := checkLinkHealth env normalized timeoutMs in
        if bool_decide (mode = "http") then
          Async.ret (mkReply 200 (HttpBody normalized "http" httpResult))
        else if bool_decide (http_status httpResult = unknown) then
          let* tcp := checkTcpConnectivity env normalized (Z.min timeoutMs 3000) in
          Async.ret (mkReply 200 (FallbackBody normalized "auto" tcp httpResult))
        else
          Async.ret (mkReply 200 (HttpBody normalized "auto" httpResult))
  end.

End WithURLParser.

End Server.

(** * The database module ([db.js]): statements built at run time *)
Module Db.

(** A member of a request body, and a parameter bound to a statement.
    Numbers are taken to be integers; [JsObject] stands for the arrays and
    objects, which the code passes on without looking inside. *)
Inductive JsValue : Type :=
  | JsNull
  | JsBool (b : bool)
  | JsNum (z : Z)
  | JsStr (s : string)
  | JsObject.

(** [ToBoolean] *)
Definition truthy (v : JsValue) : bool :=
  match v with
  | JsNull => false
  | JsBool b => b
  | JsNum z => negb (z =? 0)%Z
  | JsStr s => negb (bool_decide (s = EmptyString))
  | JsObject => true
  end.

(** [db.run(sql, params, callback)] *)
Record Statement : Type := mkStatement {
  sql : string;
  params : list JsValue
}.

Abbreviation Task := (Async.t (list Statement)).

Local Open Scope async_scope.

(** The state is the list of the statements run; [err] is what the driver
    hands to the callback. *)
Definition run (st : Statement) (err : option JsError) : Task unit :=
  fun log => (match err with Some e => Throw e | None => Return tt end, log ++ [st]).

(** [if (member !== undefined) { fields.push(field); values.push(value) }] *)
Definition pushIf (member : option JsValue) (field : string)
    (value : JsValue -> JsValue) (acc : list string * list JsValue)
  : list string * list JsValue :=
  match member with
  | Some v => (acc.1 ++ [field], acc.2 ++ [value v])
  | None => acc
  end.

(** [x ? 1 : 0] *)
Definition flag (v : JsValue) : JsValue := JsNum (if truthy v then 1 else 0).

(** The members of [bookmark] that [updateBookmark] reads; [None] for
    [undefined]. *)
Record BookmarkPatch : Type := mkBookmarkPatch {
  bp_title : option JsValue;
  bp_url : option JsValue;
  bp_categoryId : option JsValue;
  bp_favicon : option JsValue;
  bp_description : option JsValue;
  bp_isPinned : option JsValue;
  bp_isFavorite : option JsValue;
  bp_visitCount : option JsValue
}.

(** [updateBookmark(userId, id, bookmark)] *)
Definition updateBookmark (err : option JsError) (userId id : JsValue)
    (bookmark : BookmarkPatch) : Task unit :=
  let acc := ([], []) in
  let acc := pushIf (bp_title bookmark) "title = ?" (fun v => v) acc in
  let acc := pushIf (bp_url bookmark) "url = ?" (fun v => v) acc in
  let acc := pushIf (bp_categoryId bookmark) "category_id = ?" (fun v => v) acc in
  let acc := pushIf (bp_favicon bookmark) "icon = ?" (fun v => v) acc in
  let acc := pushIf (bp_description bookmark) "description = ?" (fun v => v) acc in
  let acc := pushIf (bp_isPinned bookmark) "is_pinned = ?" flag acc in
  let acc := pushIf (bp_isFavorite bookmark) "is_favorite = ?" flag acc in
  let acc := pushIf (bp_visitCount bookmark) "visit_count = ?" (fun v => v) acc in
  let '(fields, values) := acc in
  if (length fields =? 0)%nat then Async.ret tt
  else
    run (mkStatement
           ("UPDATE bookmarks SET " +:+ String.concat ", " fields
            +:+ " WHERE id = ? AND user_id = ?")
           (values ++ [id; userId]))
        err.

(** The members of the second argument of [updateUser]. *)
Record UserPatch : Type := mkUserPatch {
  up_username : option JsValue;
  up_email : option JsValue;
  up_password : option JsValue;
  up_role : option JsValue
}.

(** [s.includes(needle)] *)
Definition includes (needle s : string) : bool :=
  match String.index 0 needle s with
  | Some _ => true
  | None => false
  end.

(** [password !== undefined && password !== ''] *)
Definition givenPassword (password : option JsValue) : option JsValue :=
  match password with
  | Some (JsStr EmptyString) => None
  | other => other
  end.

(** [updateUser(id, { username, email, password, role })]; [hash] is
    [bcrypt.hash(_, 10)], which rejects what it cannot hash. *)
Definition updateUser (hash : JsValue -> Completion string) (err : option JsError)
    (id : JsValue) (patch : UserPatch) : Task unit :=
  let acc := ([], []) in
  let acc := pushIf (up_username patch) "username = ?" (fun v => v) acc in
  let acc := pushIf (up_email patch) "email = ?" (fun v => v) acc in
  let acc := pushIf (up_role patch) "role = ?" (fun v => v) acc in
  let* acc :=
    match givenPassword (up_password patch) with
    | Some password =>
        match hash password with
        | Return h => Async.ret (pushIf (Some (JsStr h)) "password = ?" (fun v => v) acc)
        | Throw e => Async.throw e
        end
    | None => Async.ret acc
    end in
  let '(fields, values) := acc in
  if (length fields =? 0)%nat then Async.ret tt
  else
    Async.try_catch
      (run (mkStatement
              ("UPDATE users SET " +:+ String.concat ", " fields +:+ " WHERE id = ?")
              (values ++ [id]))
           err)
      (fun e =>
         if includes "UNIQUE" (err_message e)
         then Async.throw (plainError "Username or email already exists")
         else Async.throw e).

(** *** Reading a statement *)

(** The number of [?] in the text of a statement. *)
Definition placeholders (text : string) : nat :=
  length (filter (fun a => a = "?"%char) (list_ascii_of_string text)).

(** The values a patch binds, in the order of the columns. *)
Definition bookmarkValues (bookmark : BookmarkPatch) : list JsValue :=
  omap (fun member => member)
    [bp_title bookmark; bp_url bookmark; bp_categoryId bookmark; bp_favicon bookmark;
     bp_description bookmark; flag <$> bp_isPinned bookmark;
     flag <$> bp_isFavorite bookmark; bp_visitCount bookmark].

(** Which members a patch has. *)
Definition bookmarkShape (bookmark : BookmarkPatch) : list bool :=
  (fun member => match member with Some _ => true | None => false end)
    <$> [bp_title bookmark; bp_url bookmark; bp_categoryId bookmark; bp_favicon bookmark;
         bp_description bookmark; bp_isPinned bookmark; bp_isFavorite bookmark;
         bp_visitCount bookmark].

(** The values [updateUser] binds; [hashed] is the hash of the password, if
    one is to be set. *)
Definition userValues (patch : UserPatch) (hashed : option string) : list JsValue :=
  omap (fun member => member)
    [up_username patch; up_email patch; up_role patch; JsStr <$> hashed].

End Db.

(** * Who may use the admin routes ([index.js]) *)
Module Api.

(** The payload of a token, as [login] signs it. *)
Record Claims : Type := mkClaims {
  c_id : Z;
  c_username : string;
  c_role : string
}.

(** A row of [users] as [findUserById] selects it. *)
Record UserRow : Type := mkUserRow {
  u_id : Z;
  u_username : string;
  u_email : string;
  u_role : string
}.

Inductive Json : Type :=
  | ErrorJson (error : string)
  | SuccessJson.

Record Reply : Type := mkReply {
  code : Z;
  body : Json
}.

(** [s.split(sep)] for a separator of one character. *)
Fixpoint split (sep : ascii) (s : string) : list string :=
  match s with
  | EmptyString => [EmptyString]
  | String a rest =>
      if bool_decide (a = sep) then EmptyString :: split sep rest
      else
        match split sep rest with
        | w :: ws => String a w :: ws
        | [] => [String a EmptyString]
        end
  end.

(** What the handlers do to the database, in order, and how the database
    answers. *)
Inductive DbOp : Type :=
  | FindUserById (id : string)
  | DeleteUser (id : string).

#[global] Instance DbOp_eq_dec : EqDecision DbOp.
Proof. solve_decision. Defined.

Inductive FindOutcome : Type :=
  | Found (row : UserRow)
  | Missing
  | FindFailed (e : JsError).

Record DbEnv : Type := mkDbEnv {
  db_find : FindOutcome;
  db_delete : option JsError
}.

Abbreviation Task := (Async.t (list DbOp)).

Local Open Scope async_scope.

Definition findUserById (id : string) (o : FindOutcome) : Task (option UserRow) :=
  fun log =>
    (match o with
     | Found row => Return (Some row)
     | Missing => Return None
     | FindFailed e => Throw e
     end, log ++ [FindUserById id]).

Definition deleteUser (id : string) (err : option JsError) : Task unit :=
  fun log => (match err with Some e => Throw e | None => Return tt end,
              log ++ [DeleteUser id]).

Section WithJwt.

(** [jwt.verify(token, JWT_SECRET)]: the payload, or the error thrown. *)
Variable verify : string -> Completion Claims.

(** [verifyToken]: a reply, or [next()] with [req.user] set. *)
Definition verifyToken (authHeader : option string) : Reply + Claims :=
  let token :=
    match authHeader with
    | Some h => if bool_decide (h = EmptyString) then None else split " " h !! 1%nat
    | None => None
    end in
  match token with
  | None => inl (mkReply 401 (ErrorJson "Access denied"))
  | Some t =>
      if bool_decide (t = EmptyString) then inl (mkReply 401 (ErrorJson "Access denied"))
      else
        match verify t with
        | Return verified => inr verified
        | Throw _ => inl (mkReply 401 (ErrorJson "Invalid token"))
        end
  end.

(** [verifyAdmin] *)
Definition verifyAdmin (user : Claims) : Reply + Claims :=
  if bool_decide (c_role user = "admin") then inr user
  else inl (mkReply 403 (ErrorJson "Access denied: Admins only")).

(** The handler of [app.delete('/api/admin/users/:id', ...)]. *)
Definition deleteUserHandler (env : DbEnv) (user : Claims) (id : string) : Task Reply :=
  Async.try_catch
    (let* userToDelete := findUserById id (db_find env) in
     match userToDelete with
     | None => Async.ret (mkReply 404 (ErrorJson "User not found"))
     | Some row =>
         if bool_decide (u_username row = "admin")
         then Async.ret (mkReply 403 (ErrorJson "Cannot delete the super admin account"))
         else if bool_decide (u_id row = c_id user)
         then Async.ret (mkReply 400 (ErrorJson "Cannot delete your own account"))
         else
           let* _ := deleteUser id (db_delete env) in
           Async.ret (mkReply 200 SuccessJson)
     end)
    (fun err => Async.ret (mkReply 500 (ErrorJson (err_message err)))).

(** The route with its two middlewares, for a request the rate limiter
    lets through. *)
Definition deleteUserRoute (env : DbEnv) (authHeader : option string) (id : string)
  : Task Reply :=
  match verifyToken authHeader with
  | inl reply => Async.ret reply
  | inr user =>
      match verifyAdmin user with
      | inl reply => Async.ret reply
      | inr admin => deleteUserHandler env admin id
      end
  end.

End WithJwt.

End Api.

(** * The classification table, as the specification words it *)

(** 404, 410, 401, 403 and everything from 500 up are dead; 200 to 399 is ok;
    anything else is unknown. *)
Definition Classify_table (status : Z) : InternalLinkHealthStatus :=
  if bool_decide (status ∈ [404; 410; 401; 403]%Z) then dead
  else if bool_decide (500 ≤ status)%Z then dead
  else if bool_decide (200 ≤ status ≤ 399)%Z then ok
  else unknown.

(** * A small URL parser for the examples

    Enough of [new URL] to run the code on concrete inputs: an absolute URL
    is a known scheme, [://], and a non-empty remainder without white space;
    a missing path is serialised as [/]. *)
Module Demo.

Definition hasNoSpace (s : string) : bool :=
  forallb (fun a => negb (Ascii.is_space a)) (list_ascii_of_string s).

Definition afterPrefix (p s : string) : option string :=
  if String.prefix p s
  then Some (String.substring (String.length p) (String.length s - String.length p) s)
  else None.

Fixpoint hostOf (s : string) : string :=
  match s with
  | EmptyString => EmptyString
  | String a rest => if bool_decide (a = "/"%char) then EmptyString else String a (hostOf rest)
  end.

Definition serialise (s rest : string) : string :=
  if bool_decide (hostOf rest = rest) then s +:+ "/" else s.

Definition withScheme (scheme s : string) : option URL :=
  match afterPrefix (scheme +:+ "//") s with
  | Some rest =>
      if bool_decide (hostOf rest = EmptyString) then None
      else Some (mkURL scheme (hostOf rest) None (serialise s rest))
  | None => None
  end.

Definition parseURL (s : string) : option URL :=
  if hasNoSpace s then
    match withScheme "https:" s with
    | Some u => Some u
    | None =>
        match withScheme "http:" s with
        | Some u => Some u
        | None => withScheme "ftp:" s
        end
    end
  else None.

Definition noOptions : Client.BatchCheckOptions :=
  Client.mkOptions None None false None None.

Definition emptyStorage : Client.LocalStorage := Client.mkStorage None true.

Definition page (status : Z) : Response := mkResponse basic status true "https://a.example/".

(** A network on which the own server is down and the target answers HEAD
    and GET with the given status. *)
Definition offlineApi (status : Z) : Client.NetEnv :=
  Client.mkEnv (Client.ApiNetworkFailure "Failed to fetch")
    (Client.Responded (page status)) (Client.Responded (page status)).

Definition bookmarksABC : list Client.Bookmark :=
  [Client.mkBookmark "a" "https://a.example/";
   Client.mkBookmark "b" "b.example";
   Client.mkBookmark "c" "not a url!!"].

(** The own server is down, HEAD is refused with 405, GET answers 200. *)
Definition headRefused : Client.NetEnv :=
  Client.mkEnv (Client.ApiNetworkFailure "Failed to fetch")
    (Client.Responded (page 405)) (Client.Responded (page 200)).

(** The own server answers with a definite status. *)
Definition apiSays (status : string) : Client.NetEnv :=
  Client.mkEnv (Client.ApiResponded (Client.mkApiReply true (Some status)))
    (Client.Responded (page 200)) (Client.Responded (page 200)).

(** The HEAD request hangs until the check's timer fires. *)
Definition hungHead : Client.NetEnv :=
  Client.mkEnv (Client.ApiNetworkFailure "Failed to fetch")
    (Client.AbortedInFlight Client.OverallTimer) (Client.Responded (page 200)).

Definition hungHeadServer : Server.NetEnv :=
  Server.mkEnv Server.TimedOut (Server.Responded (page 200)) None Server.Connected.

(** HEAD answers 100, which classifies as unknown; the host accepts a
    connection. *)
Definition informational : Server.NetEnv :=
  Server.mkEnv (Server.Responded (page 100)) (Server.Responded (page 200))
    None Server.Connected.

Definition autoQuery : Server.Query :=
  Server.mkQuery (Some "a.example") None (Server.Num 8000).

(** The caller's signal fires while the requests of a check are in flight. *)
Definition cancelled : Client.NetEnv :=
  Client.mkEnv (Client.ApiAborted (Some Client.ExternalSignal))
    (Client.AbortedInFlight Client.ExternalSignal)
    (Client.AbortedInFlight Client.ExternalSignal).

Definition five : list Client.Bookmark :=
  [Client.mkBookmark "a" "https://a.example/";
   Client.mkBookmark "b" "https://b.example/";
   Client.mkBookmark "c" "https://c.example/";
   Client.mkBookmark "d" "https://d.example/";
   Client.mkBookmark "e" "e.example"].

(** All five urls were checked 100 ms before the run. *)
Definition warmStorage : Client.LocalStorage :=
  Client.mkStorage
    (Some (Client.CacheBlob
             (list_to_map
                ((fun u => (u, Client.mkEntry ok 900))
                   <$> ["https://a.example/"; "https://b.example/";
                        "https://c.example/"; "https://d.example/";
                        "https://e.example/"]))))
    true.

Definition withConcurrency (n : Z) : Client.BatchCheckOptions :=
  Client.mkOptions (Some n) None false None None.

(** Two workers; two checks settle, the signal fires, the two checks then in
    flight are cut short. *)
Definition untilAbort : list Client.Event :=
  [Client.Settled 0 (offlineApi 200) 1010;
   Client.Settled 1 (offlineApi 404) 1011;
   Client.AbortFired].

Definition abortAfterTwo : list Client.Event :=
  untilAbort ++ [Client.Settled 0 cancelled 1012; Client.Settled 1 cancelled 1012].

Definition settleBA : list Client.Event :=
  [Client.Settled 1 (offlineApi 404) 2000; Client.Settled 0 (offlineApi 200) 2001].

Definition two : list Client.Bookmark :=
  [Client.mkBookmark "a" "https://a.example/";
   Client.mkBookmark "b" "https://b.example/"].

Definition one : list Client.Bookmark := [Client.mkBookmark "a" "https://a.example/"].

(** The resolver does not know the host. *)
Definition unresolved : Server.NetEnv :=
  Server.mkEnv (Server.Responded (page 200)) (Server.Responded (page 200))
    (Some (mkError "Error" "getaddrinfo ENOTFOUND a.example" (Some "ENOTFOUND")))
    Server.Connected.

Definition modeQuery (mode : string) : Server.Query :=
  Server.mkQuery (Some "a.example") (Some (Server.Text mode)) (Server.Num 8000).

(** The caller asks for every target to be checked anew. *)
Definition refresh : Client.BatchCheckOptions :=
  Client.mkOptions None None false None (Some true).

(** A token check that knows two tokens. *)
Definition verify (token : string) : Completion Api.Claims :=
  if bool_decide (token = "root-token") then Return (Api.mkClaims 1 "root" "admin")
  else if bool_decide (token = "bob-token") then Return (Api.mkClaims 2 "bob" "user")
  else Throw (mkError "JsonWebTokenError" "jwt malformed" None).

Definition userBob : Api.UserRow := Api.mkUserRow 2 "bob" "bob@example.com" "user".

(** Two targets under one id, and a third target. *)
Definition repeatedId : list Client.Bookmark :=
  [Client.mkBookmark "x" "https://a.example/";
   Client.mkBookmark "x" "https://b.example/";
   Client.mkBookmark "c" "https://c.example/"].

(** One worker: the first check returns ok, the second dead, the signal
    fires, the third check is cut short. *)
Definition overwriteThenAbort : list Client.Event :=
  [Client.Settled 0 (offlineApi 200) 1010;
   Client.Settled 0 (offlineApi 404) 1011;
   Client.AbortFired;
   Client.Settled 0 cancelled 1012].

(** An invalid url and a valid one under one id. *)
Definition repeatedIdInvalid : list Client.Bookmark :=
  [Client.mkBookmark "x" "not a url!!"; Client.mkBookmark "x" "b.example"].

(** The stored item is a JSON array. *)
Definition arrayStorage : Client.LocalStorage :=
  Client.mkStorage (Some (Client.ArrayBlob ["1"; "2"])) true.

(** [?url=a.example&mode=tcp&mode=http]: the mode arrives as an array. *)
Definition repeatedMode : Server.Query :=
  Server.mkQuery (Some "a.example") (Some Server.Structured) (Server.Num 8000).

End Demo.

(** * The client and the server on one wire *)
Module Wire.

(** The status strings of the JSON bodies. *)
Definition statusName (s : InternalLinkHealthStatus) : string :=
  match s with
  | ok => "ok"
  | dead => "dead"
  | unknown => "unknown"
  end.

(** The [status] member of a body the route sends, if it has one; a spread
    result contributes its own. *)
Definition bodyStatus (b : Server.Body) : option InternalLinkHealthStatus :=
  match b with
  | Server.ErrorBody _ => None
  | Server.TcpBody _ _ tcp => Some (Server.tcp_status tcp)
  | Server.HttpBody _ _ h => Some (Server.http_status h)
  | Server.FallbackBody _ _ tcp _ => Some (Server.tcp_status tcp)
  end.

(** What [fetch] and [resp.json()] make of a reply of the route: [resp.ok]
    for a code from 200 to 299, and the [status] member of the body. *)
Definition asSeenByClient (r : Server.Reply) : Client.ApiReply :=
  Client.mkApiReply (bool_decide (200 ≤ Server.reply_code r ≤ 299)%Z)
    (statusName <$> bodyStatus (Server.reply_body r)).

(** The query the route receives for an API request of the client. *)
Definition queryOf (target mode : string) (timeoutMs : Z) : Server.Query :=
  Server.mkQuery (Some target) (Some (Server.Text mode)) (Server.Num timeoutMs).

End Wire.

Example demo_normalize :
  Client.normalizeUrl Demo.parseURL "  example.com " = Some "https://example.com/"
  /\ Client.normalizeUrl Demo.parseURL "not a url!!" = None
  /\ Client.normalizeUrl Demo.parseURL "ftp://files.example/x" = None.
Proof. vm_compute. auto. Qed.

(** * Classification *)

Lemma classifyStatus_table (status : Z) :
  Server.classifyStatus status = Classify_table status.
Proof.
  unfold Server.classifyStatus, Classify_table.
  repeat case_bool_decide;
    repeat match goal with
      | H : _ ∈ _ :: _ |- _ => apply elem_of_cons in H as [H | H]
      | H : _ ∈ [] |- _ => apply elem_of_nil in H
      | H : _ ∉ _ |- _ => rewrite !not_elem_of_cons in H
      end;
    try done;
    repeat match goal with
      | |- context [(?a =? ?b)%Z] => destruct (Z.eqb_spec a b)
      | |- context [(?a >=? ?b)%Z] => destruct (Z.geb_spec a b)
      | |- context [(?a <? ?b)%Z] => destruct (Z.ltb_spec a b)
      end; simpl; try reflexivity; lia.
Qed.

Lemma classifyResponse_not_opaque (resp : Response) :
  resp_type resp ≠ opaque ->
  Client.classifyResponse resp = Server.classifyStatus (resp_status resp).
Proof.
  intros Hty. unfold Client.classifyResponse, Server.classifyStatus.
  case_bool_decide; [contradiction | reflexivity].
Qed.

Lemma classifyResponse_opaque (resp : Response) :
  resp_type resp = opaque -> Client.classifyResponse resp = unknown.
Proof.
  intros Hty. unfold Client.classifyResponse. case_bool_decide; [reflexivity | contradiction].
Qed.

(** C5.  Client and server classify a response by the same function of its
    status code, and that function is the table of the specification: 404,
    410, 401, 403 and every status from 500 up are dead, 200 to 399 is ok,
    anything else is unknown.  A well-formed response of type [opaque] has
    status 0 (the Fetch invariant, the hypothesis here), which both sides
    classify as unknown. *)
Theorem classification_agrees_with_table (resp : Response) :
  (resp_type resp = opaque -> resp_status resp = 0%Z) ->
  Client.classifyResponse resp = Server.classifyStatus (resp_status resp)
  /\ (forall s : Z, Server.classifyStatus s = Classify_table s)
  /\ (Server.classifyStatus 404 = dead /\ Server.classifyStatus 410 = dead
      /\ Server.classifyStatus 401 = dead /\ Server.classifyStatus 403 = dead
      /\ Server.classifyStatus 500 = dead /\ Server.classifyStatus 503 = dead
      /\ Server.classifyStatus 200 = ok /\ Server.classifyStatus 204 = ok
      /\ Server.classifyStatus 301 = ok /\ Server.classifyStatus 100 = unknown)
  /\ (forall s : Z, (500 <= s)%Z -> Server.classifyStatus s = dead)
  /\ (forall s : Z, (200 <= s <= 399)%Z -> Server.classifyStatus s = ok)
  /\ (forall s : Z, (s < 200)%Z \/ ((400 <= s < 500)%Z /\ s ∉ [401; 403; 404; 410]%Z) ->
        Server.classifyStatus s = unknown).
Proof.
  intros Hwf. split; [| split; [apply classifyStatus_table | split; [vm_compute; tauto |]]].
  - destruct (decide (resp_type resp = opaque)) as [Hop | Hop].
    + rewrite (classifyResponse_opaque _ Hop), (Hwf Hop). reflexivity.
    + apply classifyResponse_not_opaque, Hop.
  - repeat split; intros s Hs; rewrite classifyStatus_table; unfold Classify_table;
      repeat case_bool_decide;
      repeat match goal with
        | H : _ ∈ _ :: _ |- _ => apply elem_of_cons in H as [H | H]
        | H : _ ∈ [] |- _ => apply elem_of_nil in H
        end;
      try reflexivity; try lia.
    all: destruct Hs as [Hs | [Hs Hnot]]; try lia; subst s;
      exfalso; apply Hnot; repeat constructor.
Qed.

Lemma classification_agrees_with_table_witness :
  Client.classifyResponse (mkResponse opaque 0 false EmptyString) = unknown
  /\ Client.classifyResponse (Demo.page 404) = dead
  /\ Server.classifyStatus 404 = Classify_table 404.
Proof.
  pose proof (classification_agrees_with_table (mkResponse opaque 0 false EmptyString)
                (fun _ => eq_refl)) as [H1 _].
  pose proof (classification_agrees_with_table (Demo.page 404)) as H2.
  destruct H2 as [H2 [H3 _]]; [discriminate |].
  split; [rewrite H1; reflexivity | split; [rewrite H2; reflexivity | apply H3]].
Defined.

(** * The single-link check of the client *)

Section ClientCheck.

Variable parseURL : string -> option URL.

#[local] Arguments Client.classifyResponse : simpl never.

Local Ltac run_check :=
  unfold Client.checkLinkHealth, Client.checkLinkHealthViaApi, Client.mergeSignals,
    Client.fetch, Client.fetchApi, Async.bind, Async.try_catch, Async.ret,
    Async.throw, Async.modify, Client.isAbortError in *.

Lemma classifyResponse_cases (resp : Response) :
  Client.classifyResponse resp = ok \/ Client.classifyResponse resp = dead
  \/ Client.classifyResponse resp = unknown.
Proof. destruct (Client.classifyResponse resp); auto. Qed.

(** The API step answers with a definite status or with [null], and never
    throws. *)
Lemma checkLinkHealthViaApi_returns env url timeoutMs mode (s : Client.Net) :
  exists (r : option InternalLinkHealthStatus) (s' : Client.Net),
    Client.checkLinkHealthViaApi parseURL env url timeoutMs mode s = (Return r, s')
    /\ (r = None \/ r = Some ok \/ r = Some dead).
Proof.
  run_check.
  destruct (Client.normalizeUrl parseURL url); [| eauto].
  destruct (Client.ctl_aborted s); simpl; [eauto |].
  destruct (Client.env_api env) as [r | msg | [src |]]; simpl; eauto.
  destruct (Client.api_ok r); simpl; [| eauto].
  destruct (Client.api_status r) as [status |]; [| eauto].
  repeat case_bool_decide; eauto 6.
Qed.

(** Every run of the check returns, and what it returns is a public status. *)
Lemma checkLinkHealth_returns env url options (s : Client.Net) :
  exists (status : InternalLinkHealthStatus) (s' : Client.Net),
    Client.checkLinkHealth parseURL env url options s = (Return status, s')
    /\ (status = ok \/ status = dead).
Proof.
  unfold Client.checkLinkHealth.
  destruct (Client.normalizeUrl parseURL url) as [normalized |]; [| unfold Async.ret; eauto].
  unfold Async.bind at 1. unfold Client.mergeSignals, Async.modify.
  set (s0 := if Client.ext_aborted s then Client.abortController s else s).
  unfold Async.bind at 1.
  destruct (checkLinkHealthViaApi_returns env normalized
              (Some (Z.min (default 8000%Z (Client.opt_timeoutMs options)) 4500))
              (Some "auto") s0) as (r & s1 & -> & Hr).
  destruct Hr as [-> | [-> | ->]]; [| unfold Async.ret; eauto ..].
  run_check.
  repeat (case_match; simpl in *; simplify_eq);
    (eexists _, _; split; [reflexivity |]);
    auto;
    match goal with
    | |- Client.classifyResponse ?r = ok \/ _ =>
        destruct (classifyResponse_cases r) as [Hc | [Hc | Hc]]; rewrite Hc in *; auto
    end;
    match goal with
    | H : bool_decide (unknown <> unknown) = true |- _ =>
        apply bool_decide_eq_true in H; contradiction
    end.
Qed.

(** C1.  On every input, every network behaviour and every state of the
    caller's signal, the client's [checkLinkHealth] returns (it does not
    throw), and the value it returns is ok or dead, never unknown. *)
Theorem checkLinkHealth_resolves_ok_or_dead env url options (s : Client.Net) :
  exists (status : InternalLinkHealthStatus) (s' : Client.Net),
    Client.checkLinkHealth parseURL env url options s = (Return status, s')
    /\ (status = ok \/ status = dead) /\ status <> unknown.
Proof.
  destruct (checkLinkHealth_returns env url options s) as (status & s' & Hrun & Hst).
  exists status, s'. split; [exact Hrun | split; [exact Hst |]].
  destruct Hst as [-> | ->]; discriminate.
Qed.

Lemma normalizeUrl_None_iff (url : string) :
  Client.normalizeUrl parseURL url = None <->
  (trim url = EmptyString
   \/ (parseURL (trim url) = None /\ parseURL ("https://" +:+ trim url) = None)
   \/ (exists u, parseURL (trim url) = Some u
                 /\ protocol u <> "http:" /\ protocol u <> "https:")).
Proof.
  unfold Client.normalizeUrl. case_bool_decide as Hempty.
  { split; auto. }
  destruct (parseURL (trim url)) as [u |] eqn:Hparse.
  - repeat case_bool_decide; simpl; split; try discriminate; eauto 8.
    all: intros [? | [[? ?] | (u' & Hu' & ? & ?)]]; congruence.
  - destruct (parseURL ("https://" +:+ trim url)) eqn:Hparse2; split; try discriminate; auto.
    intros [? | [[? ?] | (u' & Hu' & ? & ?)]]; congruence.
Qed.

(** C8.  A url that is empty or white space only, or that does not parse as
    an http or https URL (neither as it stands nor with [https://] put in
    front, or it parses with another scheme), makes [checkLinkHealth] return
    dead in the state it started in: no [fetch] was invoked, neither for the
    server API nor for a HEAD or GET of the target. *)
Theorem checkLinkHealth_invalid_url_no_network env url options (s : Client.Net) :
  (trim url = EmptyString
   \/ (parseURL (trim url) = None /\ parseURL ("https://" +:+ trim url) = None)
   \/ (exists u, parseURL (trim url) = Some u
                 /\ protocol u <> "http:" /\ protocol u <> "https:")) ->
  Client.checkLinkHealth parseURL env url options s = (Return dead, s)
  /\ Client.net_log (snd (Client.checkLinkHealth parseURL env url options s))
     = Client.net_log s.
Proof.
  intros Hbad. apply normalizeUrl_None_iff in Hbad.
  unfold Client.checkLinkHealth. rewrite Hbad. unfold Async.ret. auto.
Qed.

End ClientCheck.

(** With the own server down: a HEAD answered 200 gives ok after one HEAD
    and no GET; a HEAD answered 405 is retried once with GET. *)
Example head_200_is_ok :
  Client.checkLinkHealth Demo.parseURL (Demo.offlineApi 200) "https://a.example/"
    (Client.mkCheckOptions None) (Client.initialNet false)
  = (Return ok,
     Client.mkNet false false
       [Client.mkCall (Client.ApiRequest "https://a.example/" "auto" 4500) true;
        Client.mkCall (Client.DirectRequest HEAD "https://a.example/") true]).
Proof. vm_compute. reflexivity. Qed.

Example head_405_get_200_is_ok :
  Client.checkLinkHealth Demo.parseURL Demo.headRefused "https://a.example/"
    (Client.mkCheckOptions None) (Client.initialNet false)
  = (Return ok,
     Client.mkNet false false
       [Client.mkCall (Client.ApiRequest "https://a.example/" "auto" 4500) true;
        Client.mkCall (Client.DirectRequest HEAD "https://a.example/") true;
        Client.mkCall (Client.DirectRequest GET "https://a.example/") true]).
Proof. vm_compute. reflexivity. Qed.

Lemma checkLinkHealth_invalid_url_no_network_witness :
  Client.checkLinkHealth Demo.parseURL (Demo.offlineApi 200) "not a url!!"
    (Client.mkCheckOptions None) (Client.initialNet false)
  = (Return dead, Client.initialNet false)
  /\ Client.net_log
       (snd (Client.checkLinkHealth Demo.parseURL (Demo.offlineApi 200) "not a url!!"
               (Client.mkCheckOptions None) (Client.initialNet false)))
     = [].
Proof.
  apply (checkLinkHealth_invalid_url_no_network Demo.parseURL).
  right; left. split; vm_compute; reflexivity.
Defined.

(** * A HEAD attempt that is aborted *)

Section HeadTimeout.

Variable parseURL : string -> option URL.

#[local] Arguments Client.classifyResponse : simpl never.

Lemma fire_log src (s : Client.Net) :
  Client.net_log (Client.fire src s) = Client.net_log s.
Proof. destruct src; reflexivity. Qed.

Lemma fire_ctl src (s : Client.Net) : Client.ctl_aborted (Client.fire src s) = true.
Proof. destruct src; reflexivity. Qed.

Local Ltac in_log H :=
  repeat (apply elem_of_cons in H as [H | H]; [subst |]);
  try (apply elem_of_nil in H; contradiction).

(** With an aborted HEAD the client never invokes [fetch] for a GET of the
    target, and a run that got as far as the HEAD attempt returns dead. *)
Lemma client_head_abort env url options sig src :
  Client.env_head env = Client.AbortedInFlight src ->
  (forall c, c ∈ Client.net_log
               (snd (Client.checkLinkHealth parseURL env url options (Client.initialNet sig))) ->
             Client.isDirect GET (Client.nc_request c) = false)
  /\ ((exists c, c ∈ Client.net_log
                   (snd (Client.checkLinkHealth parseURL env url options
                           (Client.initialNet sig)))
                 /\ Client.isDirect HEAD (Client.nc_request c) = true) ->
      fst (Client.checkLinkHealth parseURL env url options (Client.initialNet sig))
      = Return dead).
Proof.
  intros Hhead.
  unfold Client.checkLinkHealth, Client.checkLinkHealthViaApi, Client.mergeSignals,
    Client.fetch, Client.fetchApi, Async.bind, Async.try_catch, Async.ret,
    Async.throw, Async.modify, Client.isAbortError, Client.initialNet.
  rewrite Hhead.
  repeat (rewrite ?fire_log, ?fire_ctl in *; case_match; simpl in *; simplify_eq);
    rewrite ?fire_log; simpl; split;
    try (intros c Hc; in_log Hc; reflexivity);
    try reflexivity;
    intros (c & Hc & Hd); in_log Hc; simpl in Hd; discriminate.
Qed.

(** With a timed-out HEAD the server's inner handler still calls [fetch] for
    the GET, on the signal that has already fired: the call is rejected at
    once and nothing is sent. *)
Lemma server_head_timeout env target timeoutMs :
  Server.env_head env = Server.TimedOut ->
  Server.checkLinkHealth env target timeoutMs Server.initialSrv
  = (Return (Server.mkHttpResult unknown None None (Some "timeout")),
     Server.mkSrv true
       [Server.EnterHttpCheck target timeoutMs;
        Server.Fetch HEAD target true;
        Server.Fetch GET target false]).
Proof.
  intros Hhead.
  unfold Server.checkLinkHealth, Server.fetch, Server.enter, Server.newAbortController,
    Async.bind, Async.try_catch, Async.ret, Async.throw, Async.modify.
  simpl. rewrite Hhead. reflexivity.
Qed.

(** C6.  When the first HEAD attempt of the single-link HTTP check is
    aborted by the signal (the time-out fired), no GET request is made for
    the target: the client does not call [fetch] again and answers dead; the
    server answers unknown with error [timeout], its GET [fetch] being
    rejected on the fired signal before anything is sent. *)
Theorem head_timeout_no_get_retry
    (cenv : Client.NetEnv) (senv : Server.NetEnv) (url : string)
    (options : Client.CheckOptions) (sig : bool) (src : Client.AbortSource)
    (target : string) (timeoutMs : Z) :
  Client.env_head cenv = Client.AbortedInFlight src ->
  Server.env_head senv = Server.TimedOut ->
  let client := Client.checkLinkHealth parseURL cenv url options (Client.initialNet sig) in
  let server := Server.checkLinkHealth senv target timeoutMs Server.initialSrv in
  (forall c, c ∈ Client.net_log (snd client) ->
             Client.isDirect GET (Client.nc_request c) = false)
  /\ ((exists c, c ∈ Client.net_log (snd client)
                 /\ Client.isDirect HEAD (Client.nc_request c) = true) ->
      fst client = Return dead)
  /\ fst server = Return (Server.mkHttpResult unknown None None (Some "timeout"))
  /\ (forall t, Server.Fetch GET t true ∉ Server.srv_ops (snd server)).
Proof.
  intros Hc Hs client server.
  destruct (client_head_abort cenv url options sig src Hc) as [Hget Hdead].
  split; [exact Hget | split; [exact Hdead |]].
  subst server. rewrite (server_head_timeout senv target timeoutMs Hs). simpl.
  split; [reflexivity |].
  intros t Hin. in_log Hin; discriminate.
Qed.

End HeadTimeout.

Lemma head_timeout_no_get_retry_witness :
  Client.checkLinkHealth Demo.parseURL Demo.hungHead "a.example" (Client.mkCheckOptions None)
    (Client.initialNet false)
  = (Return dead,
     Client.mkNet false true
       [Client.mkCall (Client.ApiRequest "https://a.example/" "auto" 4500) true;
        Client.mkCall (Client.DirectRequest HEAD "https://a.example/") true])
  /\ fst (Server.checkLinkHealth Demo.hungHeadServer "https://a.example/" 6000 Server.initialSrv)
     = Return (Server.mkHttpResult unknown None None (Some "timeout")).
Proof.
  pose proof (head_timeout_no_get_retry Demo.parseURL Demo.hungHead Demo.hungHeadServer "a.example"
                (Client.mkCheckOptions None) false Client.OverallTimer
                "https://a.example/" 6000 eq_refl eq_refl) as (_ & _ & Hserver & _).
  split; [vm_compute; reflexivity | exact Hserver].
Defined.

(** * The route [GET /api/link-health] *)

Section Route.

Variable parseURL : string -> option URL.

Local Ltac run_server :=
  unfold Server.linkHealthRoute, Server.checkLinkHealth, Server.checkTcpConnectivity,
    Server.fetch, Server.dnsLookup, Server.socketConnect, Server.enter,
    Server.newAbortController, Async.bind, Async.try_catch, Async.ret, Async.throw,
    Async.modify in *.

(** The HTTP check of the server always returns a result; all it does is
    enter and call [fetch]. *)
Lemma server_checkLinkHealth_returns env target timeoutMs :
  exists (h : Server.HttpResult) (s1 : Server.Srv),
    Server.checkLinkHealth env target timeoutMs Server.initialSrv = (Return h, s1)
    /\ head (Server.srv_ops s1) = Some (Server.EnterHttpCheck target timeoutMs)
    /\ forallb Server.isHttpOp (Server.srv_ops s1) = true.
Proof.
  run_server. simpl.
  repeat (case_match; simpl in *; simplify_eq); eexists _, _; split; reflexivity || auto.
Qed.

(** The TCP probe always returns a result; it enters, then looks the host up
    and connects at most once each. *)
Lemma checkTcpConnectivity_returns env target timeoutMs (s : Server.Srv) :
  exists (tcp : Server.TcpResult) (s2 : Server.Srv) (probe : list Server.Op),
    Server.checkTcpConnectivity parseURL env target timeoutMs s = (Return tcp, s2)
    /\ Server.srv_ops s2
       = Server.srv_ops s ++ Server.EnterTcpProbe target timeoutMs :: probe
    /\ forallb Server.isTcpOp probe = true.
Proof.
  run_server. unfold Server.logOp. simpl.
  repeat (case_match; simpl in *; simplify_eq);
    eexists _, _, _; (split; [reflexivity |]); simpl;
    rewrite <- ?app_assoc; simpl; split; reflexivity.
Qed.

(** C7.  For a url that normalises and a mode (a string, or the default)
    that is none of [tcp], [ping] and [http] (so [auto], also by default),
    the route first runs the HTTP check with the requested time-out.  A result that is ok or dead is sent
    as it is, and nothing else was done.  Only on unknown does the route run
    the TCP probe, with [min(timeoutMs, 3000)] as its time-out, and send the
    probe's result with the HTTP result under [httpFallback]. *)
Theorem route_auto_http_then_capped_tcp (env : Server.NetEnv) (q : Server.Query)
    (normalized mode : string) :
  Server.normalizeUrl parseURL (Server.q_url q) = Some normalized ->
  Server.requestedMode q = Return mode ->
  mode ∉ ["tcp"; "ping"; "http"] ->
  let timeoutMs := Server.requestedTimeout q in
  let route := Server.linkHealthRoute parseURL env q Server.initialSrv in
  exists (h : Server.HttpResult) (s1 : Server.Srv),
    Server.checkLinkHealth env normalized timeoutMs Server.initialSrv = (Return h, s1)
    /\ head (Server.srv_ops s1) = Some (Server.EnterHttpCheck normalized timeoutMs)
    /\ forallb Server.isHttpOp (Server.srv_ops s1) = true
    /\ (Server.http_status h <> unknown ->
        route = (Return (Server.mkReply 200 (Server.HttpBody normalized "auto" h)), s1))
    /\ (Server.http_status h = unknown ->
        exists (tcp : Server.TcpResult) (s2 : Server.Srv) (probe : list Server.Op),
          Server.checkTcpConnectivity parseURL env normalized (Z.min timeoutMs 3000) s1
          = (Return tcp, s2)
          /\ route = (Return (Server.mkReply 200
                                (Server.FallbackBody normalized "auto" tcp h)), s2)
          /\ Server.srv_ops s2
             = Server.srv_ops s1
               ++ Server.EnterTcpProbe normalized (Z.min timeoutMs 3000) :: probe
          /\ forallb Server.isTcpOp probe = true
          /\ (Z.min timeoutMs 3000 <= 3000)%Z).
Proof.
  intros Hurl Hstring Hmode timeoutMs route.
  destruct (server_checkLinkHealth_returns env normalized timeoutMs)
    as (h & s1 & Hhttp & Hfirst & Hops).
  exists h, s1. split; [exact Hhttp | split; [exact Hfirst | split; [exact Hops |]]].
  assert (Hroute : route =
    Async.bind (Server.checkLinkHealth env normalized timeoutMs)
      (fun httpResult =>
         if bool_decide (Server.http_status httpResult = unknown)
         then Async.bind
                (Server.checkTcpConnectivity parseURL env normalized (Z.min timeoutMs 3000))
                (fun tcp => Async.ret (Server.mkReply 200
                                         (Server.FallbackBody normalized "auto" tcp httpResult)))
         else Async.ret (Server.mkReply 200 (Server.HttpBody normalized "auto" httpResult)))
      Server.initialSrv).
  { subst route. unfold Server.linkHealthRoute. rewrite Hurl.
    unfold Async.bind at 1. unfold Server.evaluate. rewrite Hstring.
    rewrite !not_elem_of_cons in Hmode. destruct Hmode as (Htcp & Hping & Hhttp' & _).
    repeat case_bool_decide; try contradiction; reflexivity. }
  unfold Async.bind at 1 in Hroute. rewrite Hhttp in Hroute. rewrite Hroute. split.
  - intros Hdef. case_bool_decide; [contradiction | reflexivity].
  - intros Hunk. case_bool_decide; [| contradiction].
    destruct (checkTcpConnectivity_returns env normalized (Z.min timeoutMs 3000) s1)
      as (tcp & s2 & probe & Htcp & Hlog & Hprobe).
    exists tcp, s2, probe. unfold Async.bind, Async.ret. rewrite Htcp.
    repeat split; auto. lia.
Qed.

End Route.

Lemma route_auto_http_then_capped_tcp_witness :
  Server.linkHealthRoute Demo.parseURL Demo.informational Demo.autoQuery Server.initialSrv
  = (Return (Server.mkReply 200
               (Server.FallbackBody "https://a.example/" "auto"
                  (Server.mkTcpResult ok (Some 443%Z) None)
                  (Server.mkHttpResult unknown (Some 100%Z) (Some "https://a.example/") None))),
     Server.mkSrv false
       [Server.EnterHttpCheck "https://a.example/" 8000;
        Server.Fetch HEAD "https://a.example/" true;
        Server.EnterTcpProbe "https://a.example/" 3000;
        Server.DnsLookup "a.example";
        Server.Connect 443 "a.example" 3000])
  /\ exists h s1,
       Server.checkLinkHealth Demo.informational "https://a.example/" 8000 Server.initialSrv
       = (Return h, s1)
       /\ Server.http_status h = unknown.
Proof.
  split; [vm_compute; reflexivity |].
  destruct (route_auto_http_then_capped_tcp Demo.parseURL Demo.informational Demo.autoQuery
              "https://a.example/" "auto") as (h & s1 & Hhttp & _).
  - vm_compute; reflexivity.
  - reflexivity.
  - rewrite !not_elem_of_cons.
    repeat split; try (intros Heq; vm_compute in Heq; discriminate).
    apply not_elem_of_nil.
  - exists h, s1. split; [exact Hhttp |].
    vm_compute in Hhttp. injection Hhttp as Hh _. rewrite <- Hh. reflexivity.
Defined.

(** * The batch scheduler *)

Import Client.

Section Triage.

Variable parseURL : string -> option URL.
Variable cache0 : Cache.
Variable now0 : Z.
Variable options : BatchCheckOptions.

Local Abbreviation resolved := (omap (resolveLocally parseURL cache0 now0 options)).
Local Abbreviation queued := (omap (enqueue parseURL cache0 now0 options)).

Lemma triage_cases (b : Bookmark) :
  (exists r, resolveLocally parseURL cache0 now0 options b = Some r
             /\ enqueue parseURL cache0 now0 options b = None
             /\ r_id r = b_id b /\ r_url r = b_url b)
  \/ (exists n, resolveLocally parseURL cache0 now0 options b = None
                /\ enqueue parseURL cache0 now0 options b = Some (mkBookmark (b_id b) n)
                /\ normalizeUrl parseURL (b_url b) = Some n).
Proof.
  unfold resolveLocally, enqueue.
  destruct (normalizeUrl parseURL (b_url b)) as [n |]; [| left; eauto].
  destruct (cache0 !! n) as [cached |]; [| right; eauto].
  destruct (isFresh options now0 cached); [left | right]; eauto.
Qed.

Lemma triage_step (m : gmap string LinkCheckResult) (q : list Bookmark) (b : Bookmark) :
  triage parseURL cache0 now0 options (m, q) b
  = (fold_left store (resolved [b]) m, q ++ queued [b]).
Proof.
  unfold triage, resolveLocally, enqueue. simpl.
  destruct (normalizeUrl parseURL (b_url b)) as [n |]; simpl.
  - destruct (cache0 !! n) as [cached |]; simpl; [| reflexivity].
    destruct (isFresh options now0 cached); simpl; [| reflexivity].
    rewrite app_nil_r. reflexivity.
  - rewrite app_nil_r. reflexivity.
Qed.

Lemma prepass_from (bs : list Bookmark) (m : gmap string LinkCheckResult)
    (q : list Bookmark) :
  fold_left (triage parseURL cache0 now0 options) bs (m, q)
  = (fold_left store (resolved bs) m, q ++ queued bs).
Proof.
  revert m q. induction bs as [| b bs IH]; intros m q.
  - simpl. rewrite app_nil_r. reflexivity.
  - cbn [fold_left]. rewrite triage_step, IH.
    change (b :: bs) with ([b] ++ bs). rewrite !omap_app, fold_left_app, app_assoc.
    reflexivity.
Qed.

(** The first loop splits the bookmarks, in order, into locally resolved
    results and queue items. *)
Lemma prepass_spec (bs : list Bookmark) :
  prepass parseURL cache0 now0 options bs = (fold_left store (resolved bs) ∅, queued bs).
Proof. unfold prepass. rewrite prepass_from. reflexivity. Qed.


Lemma partition_ids (bs : list Bookmark) :
  (r_id <$> resolved bs) ++ (b_id <$> queued bs) ≡ₚ b_id <$> bs.
Proof.
  induction bs as [| b bs IH]; [reflexivity |].
  change (b :: bs) with ([b] ++ bs). rewrite !omap_app, !fmap_app. simpl.
  destruct (triage_cases b) as [(r & -> & -> & Hid & _) | (n & -> & -> & _)]; simpl.
  - rewrite Hid. constructor. exact IH.
  - rewrite <- IH. symmetry. apply Permutation_middle.
Qed.

Lemma resolved_elem (bs : list Bookmark) (b : Bookmark) (r : LinkCheckResult) :
  b ∈ bs -> resolveLocally parseURL cache0 now0 options b = Some r -> r ∈ resolved bs.
Proof. intros Hb Hr. apply list_elem_of_omap. eauto. Qed.

Lemma queued_elem (bs : list Bookmark) (b : Bookmark) (item : Bookmark) :
  b ∈ bs -> enqueue parseURL cache0 now0 options b = Some item -> item ∈ queued bs.
Proof. intros Hb Hr. apply list_elem_of_omap. eauto. Qed.

End Triage.

Section Store.

Lemma store_lookup_notin (rs : list LinkCheckResult) (m : gmap string LinkCheckResult)
    (id : string) :
  id ∉ r_id <$> rs -> fold_left store rs m !! id = m !! id.
Proof.
  revert m. induction rs as [| r rs IH]; intros m Hid; [reflexivity |].
  rewrite fmap_cons, not_elem_of_cons in Hid. destruct Hid as [Hne Hid].
  cbn [fold_left]. rewrite IH by exact Hid. unfold store.
  rewrite lookup_insert_ne by congruence. reflexivity.
Qed.

Lemma store_lookup_in (rs : list LinkCheckResult) (m : gmap string LinkCheckResult)
    (r : LinkCheckResult) :
  NoDup (r_id <$> rs) -> r ∈ rs -> fold_left store rs m !! r_id r = Some r.
Proof.
  revert m. induction rs as [| r0 rs IH]; intros m Hnd Hr.
  - apply elem_of_nil in Hr. contradiction.
  - rewrite fmap_cons in Hnd. apply NoDup_cons in Hnd as [Hfresh Hnd].
    cbn [fold_left]. apply elem_of_cons in Hr as [-> | Hr].
    + rewrite store_lookup_notin by exact Hfresh. unfold store. apply lookup_insert_eq.
    + apply IH; assumption.
Qed.


Lemma store_keys (rs : list LinkCheckResult) (m : gmap string LinkCheckResult) :
  (forall k v, m !! k = Some v -> r_id v = k) ->
  forall k v, fold_left store rs m !! k = Some v -> r_id v = k.
Proof.
  revert m. induction rs as [| r0 rs IH]; intros m Hm; [exact Hm |].
  simpl. apply IH. intros k v. unfold store.
  destruct (decide (r_id r0 = k)) as [<- | Hne].
  - rewrite lookup_insert_eq. congruence.
  - rewrite lookup_insert_ne by exact Hne. apply Hm.
Qed.

Lemma cache_lookup_insert_eq (m : Cache) (url : string) (entry : CacheEntry) :
  <[url := entry]> m !! url = Some entry.
Proof. apply (lookup_insert_eq (c_entries m)). Qed.

Lemma cache_lookup_insert_ne (m : Cache) (url url' : string) (entry : CacheEntry) :
  url <> url' -> <[url := entry]> m !! url' = m !! url'.
Proof. apply (lookup_insert_ne (c_entries m)). Qed.

Lemma cache_lookup_empty (url : string) : (∅ : Cache) !! url = None.
Proof. apply (lookup_empty (M := gmap string)). Qed.

(** The checks of a run do not change what kind of object the cache is. *)
Lemma remember_elements (cs : list Settle) (m : Cache) :
  c_elements (fold_left remember cs m) = c_elements m.
Proof.
  revert m. induction cs as [| c cs IH]; intros m; [reflexivity |].
  cbn [fold_left]. rewrite IH. reflexivity.
Qed.

Lemma readCache_elements (ls : LocalStorage) :
  c_elements (readCache ls)
  = match ls_item ls with Some (ArrayBlob elements) => Some elements | _ => None end.
Proof. unfold readCache. destruct (ls_item ls) as [[] |]; reflexivity. Qed.

Lemma remember_lookup (cs : list Settle) (m : Cache) (c : Settle) :
  c ∈ cs -> is_Some (fold_left remember cs m !! b_url (s_item c)).
Proof.
  revert m. induction cs as [| c0 cs IH] using rev_ind; intros m Hc.
  - apply elem_of_nil in Hc. contradiction.
  - rewrite fold_left_app. cbn [fold_left]. unfold remember at 1.
    destruct (decide (b_url (s_item c0) = b_url (s_item c))) as [-> | Hne].
    + rewrite cache_lookup_insert_eq. eauto.
    + rewrite cache_lookup_insert_ne by exact Hne.
      apply elem_of_app in Hc as [Hc | Hc]; [apply IH, Hc |].
      apply list_elem_of_singleton in Hc. congruence.
Qed.

End Store.

Section Workers.

Lemma inflight_app (ws : list (option Bookmark)) (slot : option Bookmark) :
  inflight (ws ++ [slot]) = inflight ws ++ option_list slot.
Proof. unfold inflight. rewrite omap_app. destruct slot; reflexivity. Qed.

(** Replacing the slot of one worker changes the in-flight items by that
    slot only. *)
Lemma inflight_insert (ws : list (option Bookmark)) (w : nat) (old : option Bookmark) :
  ws !! w = Some old ->
  exists rest : list Bookmark,
    inflight ws ≡ₚ option_list old ++ rest
    /\ forall new : option Bookmark, inflight (<[w := new]> ws) ≡ₚ option_list new ++ rest.
Proof.
  intros Hw.
  exists (inflight (take w ws) ++ inflight (drop (S w) ws)). split.
  - rewrite <- (take_drop_middle ws w old Hw) at 1.
    unfold inflight. rewrite omap_app. cbn [omap].
    destruct old as [item |]; simpl; [| reflexivity].
    symmetry. apply Permutation_middle.
  - intros new. rewrite insert_take_drop by (eapply lookup_lt_Some; exact Hw).
    unfold inflight. rewrite omap_app. cbn [omap].
    destruct new as [item |]; simpl; [| reflexivity].
    symmetry. apply Permutation_middle.
Qed.

Lemma returned_slot_insert (ws : list (option Bookmark)) (w : nat)
    (slot : option Bookmark) :
  None ∈ <[w := slot]> ws -> slot = None \/ None ∈ ws.
Proof.
  intros Hin. apply list_elem_of_lookup in Hin as [i Hi].
  destruct (decide (i = w)) as [-> | Hne].
  - destruct (decide (w < length ws)) as [Hlt | Hge].
    + rewrite list_lookup_insert_eq in Hi by exact Hlt. left. congruence.
    + rewrite list_insert_ge in Hi by lia. right. apply list_elem_of_lookup. eauto.
  - rewrite list_lookup_insert_ne in Hi by congruence.
    right. apply list_elem_of_lookup. eauto.
Qed.

Lemma allReturned_inflight (st : Batch) :
  allReturned st = true -> inflight (workers st) = [].
Proof.
  unfold allReturned, inflight. induction (workers st) as [| slot ws IH]; [reflexivity |].
  simpl. intros Hall. apply andb_true_iff in Hall as [Hslot Hall].
  apply bool_decide_eq_true in Hslot. subst slot. apply IH, Hall.
Qed.

Lemma allReturned_slot (st : Batch) (w : nat) (slot : option Bookmark) :
  allReturned st = true -> workers st !! w = Some slot -> slot = None.
Proof.
  unfold allReturned. intros Hall Hw.
  apply Is_true_true, forallb_True in Hall.
  rewrite Forall_forall in Hall.
  specialize (Hall slot (list_elem_of_lookup_2 _ _ _ Hw)).
  apply bool_decide_unpack in Hall. exact Hall.
Qed.

End Workers.

Section Run.

Variable parseURL : string -> option URL.
Variable bookmarks : list Bookmark.
Variable options : BatchCheckOptions.
Variable ls : LocalStorage.
Variable now0 : Z.

Local Abbreviation total := (length bookmarks).
Local Abbreviation cache0 := (readCache ls).
Local Abbreviation results0 := (fst (prepass parseURL cache0 now0 options bookmarks)).
Local Abbreviation queue := (queueOf parseURL bookmarks options ls now0).
Local Abbreviation run := (during parseURL bookmarks options ls now0).
Local Abbreviation Invariant := (Inv queue results0 cache0 total ls).

Lemma take_S_lookup {A} (l : list A) (n : nat) :
  take (S n) l = take n l ++ option_list (l !! n).
Proof.
  destruct (l !! n) as [x |] eqn:Hn.
  - apply take_S_r, Hn.
  - apply lookup_ge_None in Hn. simpl. rewrite app_nil_r, !take_ge by lia. reflexivity.
Qed.

Lemma settled_snoc (es : list Effect) item status now calls p t :
  settled (es ++ [Checked item status now calls; OnProgress p t])
  = settled es ++ [mkSettle item status now].
Proof. unfold settled. rewrite omap_app. reflexivity. Qed.

Lemma progressCalls_snoc (es : list Effect) item status now calls p t :
  progressCalls (es ++ [Checked item status now calls; OnProgress p t])
  = progressCalls es ++ [(p, t)].
Proof. unfold progressCalls. rewrite omap_app. reflexivity. Qed.

Lemma progress_next (p0 t n : nat) :
  ((fun k => (p0 + k, t)) <$> seq 0 (S n)) ++ [(S (p0 + n), t)]
  = (fun k => (p0 + k, t)) <$> seq 0 (S (S n)).
Proof.
  rewrite (seq_S (S n)), fmap_app. cbn [fmap list_fmap].
  replace (p0 + (0 + S n)) with (S (p0 + n)) by lia. reflexivity.
Qed.

(** A worker slot filled by the loop head, at launch. *)
Lemma inv_launch_one (st : Batch) :
  Invariant st ->
  Invariant (pushWorker (fst (claimNext queue st)) (snd (claimNext queue st))).
Proof.
  intros [Hperm Hres Hcache Hproc Hprog Hsto Hfail Hexit].
  unfold claimNext. destruct (aborted st) eqn:Hab; simpl.
  - constructor; simpl; try assumption.
    + rewrite inflight_app. simpl. rewrite app_nil_r. exact Hperm.
    + rewrite Hab. discriminate.
  - constructor; simpl; try assumption.
    + rewrite inflight_app, take_S_lookup, app_assoc, Hperm. reflexivity.
    + intros _ Hin. apply elem_of_app in Hin as [Hin | Hin].
      * specialize (Hexit eq_refl Hin). lia.
      * apply list_elem_of_singleton in Hin. symmetry in Hin.
        apply lookup_ge_None in Hin. lia.
Qed.

Lemma inv_launch (n : nat) (st : Batch) :
  Invariant st -> Invariant (launch queue n st).
Proof.
  revert st. induction n as [| n IH]; intros st Hinv; [exact Hinv |].
  simpl. pose proof (inv_launch_one st Hinv) as Hone.
  destruct (claimNext queue st) as [slot st']. apply IH, Hone.
Qed.

Lemma launch_workers (n : nat) (st : Batch) :
  length (workers (launch queue n st)) = length (workers st) + n.
Proof.
  revert st. induction n as [| n IH]; intros st; [simpl; lia |].
  simpl. destruct (claimNext queue st) as [slot st'] eqn:Hclaim.
  rewrite IH. simpl. rewrite length_app. simpl.
  unfold claimNext in Hclaim. destruct (aborted st); simplify_eq; simpl; lia.
Qed.

Lemma started_eq :
  started parseURL bookmarks options ls now0
  = launch queue (workerCount options total)
      (mkBatch 0 [] results0 cache0 (size results0) (signal options) ls
         [OnProgress (size results0) total] None).
Proof.
  unfold started, queueOf.
  destruct (prepass parseURL cache0 now0 options bookmarks) as [r q]. reflexivity.
Qed.

Lemma inv_started : Invariant (started parseURL bookmarks options ls now0).
Proof.
  rewrite started_eq. apply inv_launch.
  constructor; simpl; rewrite ?Nat.add_0_r; try reflexivity.
  intros _ Hin. apply elem_of_nil in Hin. contradiction.
Qed.

(** One event keeps the invariant. *)
Lemma inv_step (st : Batch) (ev : Event) :
  Invariant st -> Invariant (step parseURL queue total options st ev).
Proof.
  intros Hinv. destruct ev as [| w env now]; simpl.
  { destruct Hinv. constructor; simpl; try assumption. discriminate. }
  destruct (workers st !! w) as [[item |] |] eqn:Hw; try exact Hinv.
  destruct (checkLinkHealth_returns parseURL env (b_url item)
              (mkCheckOptions (Some (default 5000%Z (timeoutMs options))))
              (initialNet false)) as (status & net & Hrun & _).
  rewrite Hrun.
  destruct Hinv as [Hperm Hres Hcache Hproc Hprog Hsto Hfail Hexit].
  destruct (inflight_insert (workers st) w (Some item) Hw) as (rest & Hold & Hnew).
  assert (Hmoved : forall slot,
    (s_item <$> settled (effects st) ++ [mkSettle item status now])
      ++ inflight (<[w := slot]> (workers st))
    ≡ₚ take (cursor st) queue ++ option_list slot).
  { intros slot. rewrite Hnew, <- Hperm, Hold, fmap_app. simpl.
    rewrite <- !app_assoc. apply Permutation_app_head. simpl.
    rewrite (Permutation_app_comm (option_list slot) rest). reflexivity. }
  unfold claimNext. simpl.
  destruct (aborted st || ext_aborted net) eqn:Hab; simpl.
  - constructor; simpl; try assumption.
    + rewrite settled_snoc, Hmoved. simpl. rewrite app_nil_r. reflexivity.
    + rewrite settled_snoc, fmap_app, fold_left_app, <- Hres. reflexivity.
    + rewrite settled_snoc, fold_left_app, <- Hcache. reflexivity.
    + rewrite settled_snoc, length_app, Hproc. simpl. lia.
    + rewrite settled_snoc, progressCalls_snoc, length_app, Hprog, Hproc.
      replace (length (settled (effects st)) + length [mkSettle item status now])
        with (S (length (settled (effects st)))) by (simpl; lia).
      apply progress_next.
    + rewrite Hab. discriminate.
  - apply orb_false_iff in Hab as [Hab _].
    constructor; simpl; try assumption.
    + rewrite settled_snoc, Hmoved, take_S_lookup. reflexivity.
    + rewrite settled_snoc, fmap_app, fold_left_app, <- Hres. reflexivity.
    + rewrite settled_snoc, fold_left_app, <- Hcache. reflexivity.
    + rewrite settled_snoc, length_app, Hproc. simpl. lia.
    + rewrite settled_snoc, progressCalls_snoc, length_app, Hprog, Hproc.
      replace (length (settled (effects st)) + length [mkSettle item status now])
        with (S (length (settled (effects st)))) by (simpl; lia).
      apply progress_next.
    + intros _ Hin. apply returned_slot_insert in Hin as [Hnone | Hin].
      * apply lookup_ge_None in Hnone. lia.
      * specialize (Hexit Hab Hin). lia.
Qed.

Lemma inv_steps (schedule : list Event) (st : Batch) :
  Invariant st -> Invariant (fold_left (step parseURL queue total options) schedule st).
Proof.
  revert st. induction schedule as [| ev schedule IH]; intros st Hinv; [exact Hinv |].
  simpl. apply IH, inv_step, Hinv.
Qed.

Lemma inv_during (schedule : list Event) : Invariant (run schedule).
Proof. unfold during. apply inv_steps, inv_started. Qed.

Lemma step_workers (st : Batch) (ev : Event) :
  length (workers (step parseURL queue total options st ev)) = length (workers st).
Proof.
  destruct ev as [| w env now]; simpl; [reflexivity |].
  destruct (workers st !! w) as [[item |] |]; try reflexivity.
  destruct (checkLinkHealth parseURL env (b_url item) _ _) as [[status | e] net]; simpl.
  - unfold claimNext. simpl. destruct (aborted st || ext_aborted net); simpl;
      apply length_insert.
  - apply length_insert.
Qed.

Lemma during_workers (schedule : list Event) :
  length (workers (run schedule)) = workerCount options total.
Proof.
  unfold during.
  assert (Hgen : forall st,
    length (workers (fold_left (step parseURL queue total options) schedule st))
    = length (workers st)).
  { induction schedule as [| ev schedule IH]; intros st; [reflexivity |].
    simpl. rewrite IH. apply step_workers. }
  rewrite Hgen, started_eq, launch_workers. reflexivity.
Qed.

Lemma workerCount_pos : 1 <= workerCount options total.
Proof. unfold workerCount. lia. Qed.

End Run.

Section Outcome.

Variable parseURL : string -> option URL.
Variable bookmarks : list Bookmark.
Variable options : BatchCheckOptions.
Variable ls : LocalStorage.
Variable now0 : Z.

Local Abbreviation total := (length bookmarks).
Local Abbreviation cache0 := (readCache ls).
Local Abbreviation results0 := (fst (prepass parseURL cache0 now0 options bookmarks)).
Local Abbreviation queue := (queueOf parseURL bookmarks options ls now0).
Local Abbreviation run := (during parseURL bookmarks options ls now0).
Local Abbreviation resolved := (omap (resolveLocally parseURL cache0 now0 options) bookmarks).
Local Abbreviation locally := (resolveLocally parseURL cache0 now0 options).
Local Abbreviation checkOptions :=
  (mkCheckOptions (Some (default 5000%Z (timeoutMs options)))).

Lemma queue_eq : queue = omap (enqueue parseURL cache0 now0 options) bookmarks.
Proof. unfold queueOf. rewrite prepass_spec. reflexivity. Qed.

Lemma results0_eq : results0 = fold_left store resolved ∅.
Proof. rewrite prepass_spec. reflexivity. Qed.

Lemma ids_split :
  NoDup (b_id <$> bookmarks) ->
  NoDup (r_id <$> resolved)
  /\ (forall id, id ∈ r_id <$> resolved -> id ∉ b_id <$> queue)
  /\ NoDup (b_id <$> queue).
Proof.
  intros Hnd. rewrite queue_eq. apply NoDup_app.
  rewrite partition_ids. exact Hnd.
Qed.


Lemma bookmark_by_id (b b' : Bookmark) :
  NoDup (b_id <$> bookmarks) -> b ∈ bookmarks -> b' ∈ bookmarks ->
  b_id b = b_id b' -> b = b'.
Proof.
  intros Hnd Hb Hb' Hid.
  apply list_elem_of_lookup in Hb as [i Hi]. apply list_elem_of_lookup in Hb' as [j Hj].
  assert (i = j) as ->.
  { apply (NoDup_lookup _ i j (b_id b) Hnd); rewrite list_lookup_fmap.
    - rewrite Hi. reflexivity.
    - rewrite Hj, Hid. reflexivity. }
  congruence.
Qed.

Lemma settled_queue (schedule : list Event) (c : Settle) :
  c ∈ settled (effects (run schedule)) -> s_item c ∈ queue.
Proof.
  intros Hc. apply (subseteq_take (cursor (run schedule))).
  rewrite <- (inv_claimed _ _ _ _ _ _ (inv_during parseURL bookmarks options ls now0 schedule)).
  apply elem_of_app. left. apply list_elem_of_fmap_2, Hc.
Qed.

Lemma settled_ids (schedule : list Event) :
  NoDup (b_id <$> queue) ->
  NoDup (b_id <$> (s_item <$> settled (effects (run schedule)))).
Proof.
  intros Hq.
  assert (Htake : NoDup (b_id <$> take (cursor (run schedule)) queue)).
  { rewrite fmap_take. eapply sublist_NoDup; [exact Hq | apply sublist_take]. }
  rewrite <- (inv_claimed _ _ _ _ _ _ (inv_during parseURL bookmarks options ls now0 schedule))
    in Htake.
  rewrite fmap_app in Htake. apply NoDup_app in Htake as [Htake _]. exact Htake.
Qed.

Lemma resultOf_ids (cs : list Settle) :
  r_id <$> (resultOf <$> cs) = b_id <$> (s_item <$> cs).
Proof. induction cs as [| c cs IH]; [reflexivity |]. rewrite !fmap_cons, IH. reflexivity. Qed.

(** Each queue item stems from one bookmark: same id, normalised url. *)
Lemma queue_origin (item : Bookmark) :
  item ∈ queue ->
  exists b n, b ∈ bookmarks /\ locally b = None
              /\ normalizeUrl parseURL (b_url b) = Some n
              /\ item = mkBookmark (b_id b) n.
Proof.
  rewrite queue_eq. intros Hitem. apply list_elem_of_omap in Hitem as (b & Hb & Hq).
  destruct (triage_cases parseURL cache0 now0 options b)
    as [(r & _ & Hnone & _) | (n & Hloc & Hsome & Hn)]; [congruence |].
  exists b, n. repeat split; try assumption. congruence.
Qed.

(** What the map of results holds for a bookmark, at any point of a run
    over bookmarks with pairwise distinct ids. *)
Lemma recorded_results (schedule : list Event) (b : Bookmark) :
  NoDup (b_id <$> bookmarks) -> b ∈ bookmarks ->
  (forall r, locally b = Some r -> resultsById (run schedule) !! b_id b = Some r)
  /\ (forall c, c ∈ settled (effects (run schedule)) -> b_id (s_item c) = b_id b ->
        exists n, normalizeUrl parseURL (b_url b) = Some n
                  /\ s_item c = mkBookmark (b_id b) n
                  /\ resultsById (run schedule) !! b_id b
                     = Some (mkResult (b_id b) n (s_status c)))
  /\ (locally b = None ->
      (forall c, c ∈ settled (effects (run schedule)) -> b_id (s_item c) <> b_id b) ->
      resultsById (run schedule) !! b_id b = None).
Proof.
  intros Hnd Hb.
  destruct (ids_split Hnd) as (Hres & Hdisj & Hqueue).
  pose proof (settled_ids schedule Hqueue) as Hsettled.
  rewrite (inv_results _ _ _ _ _ _ (inv_during parseURL bookmarks options ls now0 schedule)).
  rewrite results0_eq.
  split; [| split].
  - intros r Hr.
    destruct (triage_cases parseURL cache0 now0 options b)
      as [(r' & Hr' & _ & Hid & _) | (n & Hloc & _)]; [| congruence].
    assert (r' = r) as -> by congruence.
    assert (Hin : r ∈ resolved) by (eapply resolved_elem; eassumption).
    rewrite store_lookup_notin.
    + rewrite <- Hid. apply store_lookup_in; assumption.
    + rewrite resultOf_ids. intros Hmem.
      apply list_elem_of_fmap in Hmem as (item & Hitem & Hmem).
      apply list_elem_of_fmap in Hmem as (c & -> & Hc).
      apply (Hdisj (r_id r)).
      * apply list_elem_of_fmap_2, Hin.
      * rewrite Hid, Hitem. apply list_elem_of_fmap_2, (settled_queue schedule), Hc.
  - intros c Hc Hid.
    destruct (queue_origin (s_item c) (settled_queue schedule c Hc))
      as (b' & n & Hb' & _ & Hn & Hitem).
    assert (b' = b) as ->.
    { apply bookmark_by_id; try assumption. rewrite <- Hid, Hitem. reflexivity. }
    exists n. split; [exact Hn | split; [exact Hitem |]].
    assert (Hkey : b_id b = r_id (resultOf c)) by (simpl; congruence).
    rewrite Hkey, store_lookup_in.
    + unfold resultOf. rewrite Hitem. reflexivity.
    + rewrite resultOf_ids. exact Hsettled.
    + apply list_elem_of_fmap_2, Hc.
  - intros Hloc Hnone.
    rewrite !store_lookup_notin; [apply lookup_empty | |].
    + intros Hmem. apply (Hdisj _ Hmem).
      destruct (triage_cases parseURL cache0 now0 options b)
        as [(r' & Hr' & _) | (n & _ & Hq & _)]; [congruence |].
      rewrite queue_eq.
      apply (list_elem_of_fmap_2' b_id _ (mkBookmark (b_id b) n)); [| reflexivity].
      eapply queued_elem; eassumption.
    + rewrite resultOf_ids. intros Hmem.
      apply list_elem_of_fmap in Hmem as (item & Hitem & Hmem).
      apply list_elem_of_fmap in Hmem as (c & -> & Hc).
      apply (Hnone c Hc). congruence.
Qed.

(** A run that has settled without failure: every worker has returned. *)
Lemma completed_run (schedule : list Event) (out : Settlement) :
  batchCheckLinks parseURL bookmarks options ls now0 schedule = Some out ->
  allReturned (run schedule) = true
  /\ returned out
     = Return ((fun b => default (placeholder b) (resultsById (run schedule) !! b_id b))
                 <$> bookmarks)
  /\ finalStorage out
     = (if aborted (run schedule) then ls else writeCache (cache (run schedule)) ls)
  /\ observed out = effects (run schedule).
Proof.
  unfold batchCheckLinks.
  pose proof (inv_during parseURL bookmarks options ls now0 schedule) as Hinv.
  rewrite (inv_failure _ _ _ _ _ _ Hinv), (inv_storage _ _ _ _ _ _ Hinv).
  destruct (allReturned (run schedule)); [| discriminate].
  intros Hout. injection Hout as <-. simpl. auto.
Qed.

(** Without an abort the workers leave only once the queue is used up, so
    every queue item has been checked. *)
Lemma settled_all (schedule : list Event) :
  allReturned (run schedule) = true -> aborted (run schedule) = false ->
  s_item <$> settled (effects (run schedule)) ≡ₚ queue.
Proof.
  intros Hall Hab.
  pose proof (inv_during parseURL bookmarks options ls now0 schedule) as Hinv.
  pose proof (inv_claimed _ _ _ _ _ _ Hinv) as Hperm.
  rewrite (allReturned_inflight _ Hall), app_nil_r in Hperm.
  rewrite Hperm, take_ge; [reflexivity |].
  apply (inv_exit _ _ _ _ _ _ Hinv Hab).
  pose proof (during_workers parseURL bookmarks options ls now0 schedule) as Hlen.
  pose proof (workerCount_pos bookmarks options) as Hpos.
  destruct (workers (run schedule)) as [| slot ws] eqn:Hws; [simpl in Hlen; lia |].
  assert (slot = None) as ->.
  { apply (allReturned_slot (run schedule) 0); [exact Hall | rewrite Hws; reflexivity]. }
  left.
Qed.

Lemma keys_of_results (schedule : list Event) (id : string) (r : LinkCheckResult) :
  resultsById (run schedule) !! id = Some r -> r_id r = id.
Proof.
  rewrite (inv_results _ _ _ _ _ _ (inv_during parseURL bookmarks options ls now0 schedule)).
  rewrite results0_eq. apply store_keys, store_keys.
  intros k v. rewrite lookup_empty. discriminate.
Qed.

Lemma not_returned_inflight (st : Batch) :
  allReturned st = false -> exists w item, workers st !! w = Some (Some item).
Proof.
  unfold allReturned. induction (workers st) as [| slot ws IH]; [discriminate |].
  destruct slot as [item |]; simpl.
  - intros _. exists 0, item. reflexivity.
  - intros Hrest.
    destruct (IH Hrest) as (w & item & Hw). exists (S w), item. exact Hw.
Qed.

(** The settlement of a check in flight uses up one unit of work: the
    worker takes the next queue item or returns. *)
Lemma settle_pending (st : Batch) (w : nat) (item : Bookmark) env now :
  workers st !! w = Some (Some item) ->
  pending queue (step parseURL queue total options st (Settled w env now))
  < pending queue st.
Proof.
  intros Hw. unfold pending. simpl. rewrite Hw.
  destruct (checkLinkHealth_returns parseURL env (b_url item)
              (mkCheckOptions (Some (default 5000%Z (timeoutMs options))))
              (initialNet false)) as (status & net & Hrun & _).
  rewrite Hrun.
  destruct (inflight_insert (workers st) w (Some item) Hw) as (rest & Hold & Hnew).
  apply Permutation_length in Hold. simpl in Hold.
  unfold claimNext. simpl. destruct (aborted st || ext_aborted net); simpl.
  - rewrite (Permutation_length (Hnew None)). simpl. lia.
  - rewrite (Permutation_length (Hnew (queue !! cursor st))).
    destruct (queue !! cursor st) as [next |] eqn:Hnext; simpl.
    + apply lookup_lt_Some in Hnext. lia.
    + lia.
Qed.

(** From any state, settling the checks in flight, however the network
    answers, brings every worker to return. *)
Lemma can_finish (env : NetEnv) (now : Z) (n : nat) (st : Batch) :
  pending queue st <= n ->
  exists rest : list Event,
    Forall (isSettlement env now) rest
    /\ allReturned (fold_left (step parseURL queue total options) rest st) = true.
Proof.
  revert st. induction n as [| n IH]; intros st Hle;
    destruct (allReturned st) eqn:Hall;
    try (exists []; split; [constructor | exact Hall]);
    destruct (not_returned_inflight st Hall) as (w & item & Hw);
    pose proof (settle_pending st w item env now Hw) as Hless; [lia |].
  destruct (IH (step parseURL queue total options st (Settled w env now))) as (rest & Hrest & Hdone);
    [lia |].
  exists (Settled w env now :: rest). split; [| exact Hdone].
  constructor; [exists w; reflexivity | exact Hrest].
Qed.

Lemma run_completes (schedule : list Event) (env : NetEnv) (now : Z) :
  exists (rest : list Event) (out : Settlement),
    Forall (isSettlement env now) rest
    /\ batchCheckLinks parseURL bookmarks options ls now0 (schedule ++ rest) = Some out.
Proof.
  destruct (can_finish env now (pending queue (run schedule)) (run schedule) (le_n _))
    as (rest & Hrest & Hdone).
  exists rest. unfold batchCheckLinks.
  pose proof (inv_during parseURL bookmarks options ls now0 (schedule ++ rest)) as Hinv.
  rewrite (inv_failure _ _ _ _ _ _ Hinv).
  unfold during in Hdone |- *. rewrite fold_left_app, Hdone. eauto.
Qed.

Lemma aborted_step (st : Batch) (ev : Event) :
  aborted st = true -> aborted (step parseURL queue total options st ev) = true.
Proof.
  intros Hab. destruct ev as [| w env now]; simpl; [reflexivity |].
  destruct (workers st !! w) as [[item |] |]; try exact Hab.
  destruct (checkLinkHealth parseURL env (b_url item) _ _) as [[status | e] net]; simpl;
    unfold claimNext; simpl; rewrite ?Hab; simpl; rewrite ?Hab; reflexivity.
Qed.

Lemma aborted_later (schedule rest : list Event) :
  aborted (run schedule) = true -> aborted (run (schedule ++ rest)) = true.
Proof.
  unfold during. rewrite fold_left_app.
  generalize (fold_left (step parseURL queue total options) schedule
                (started parseURL bookmarks options ls now0)).
  induction rest as [| ev rest IH]; intros st Hab; [exact Hab |].
  simpl. apply IH, aborted_step, Hab.
Qed.



Lemma launch_effects (n : nat) (st : Batch) :
  effects (launch queue n st) = effects st.
Proof.
  revert st. induction n as [| n IH]; intros st; [reflexivity |].
  simpl. destruct (claimNext queue st) as [slot st'] eqn:Hclaim. rewrite IH.
  unfold claimNext in Hclaim. destruct (aborted st); simplify_eq; reflexivity.
Qed.

Lemma launch_cursor (n : nat) (st : Batch) :
  aborted st = false -> cursor (launch queue n st) = cursor st + n.
Proof.
  revert st. induction n as [| n IH]; intros st Hab; [simpl; lia |].
  simpl. unfold claimNext. rewrite Hab. rewrite IH by reflexivity. simpl. lia.
Qed.

Lemma started_settled : settled (effects (started parseURL bookmarks options ls now0)) = [].
Proof. rewrite started_eq, launch_effects. reflexivity. Qed.

(** What one event adds to the checks made: a settlement of a worker that
    awaits a check adds that check, with the status the check returns on
    the network of the event. *)
Lemma step_settled (st : Batch) (ev : Event) (c : Settle) :
  c ∈ settled (effects (step parseURL queue total options st ev)) <->
  c ∈ settled (effects st)
  \/ exists w env now item status,
       ev = Settled w env now
       /\ workers st !! w = Some (Some item)
       /\ fst (checkLinkHealth parseURL env (b_url item) checkOptions (initialNet false))
          = Return status
       /\ c = mkSettle item status now.
Proof.
  destruct ev as [| w env now]; simpl.
  { split; [auto |]. intros [Hc | (w & env & now & item & status & Hev & _)];
      [exact Hc | discriminate]. }
  destruct (workers st !! w) as [[item |] |] eqn:Hw.
  - destruct (checkLinkHealth_returns parseURL env (b_url item) checkOptions
                (initialNet false)) as (status & net & Hrun & _).
    rewrite Hrun.
    assert (Hadd : c ∈ settled (effects st) ++ [mkSettle item status now] <->
              c ∈ settled (effects st)
              \/ exists w' env' now' item' status',
                   Settled w env now = Settled w' env' now'
                   /\ workers st !! w' = Some (Some item')
                   /\ fst (checkLinkHealth parseURL env' (b_url item') checkOptions
                             (initialNet false)) = Return status'
                   /\ c = mkSettle item' status' now').
    { rewrite elem_of_app, list_elem_of_singleton. split.
      - intros [Hc | ->]; [left; exact Hc |].
        right. exists w, env, now, item, status. rewrite Hrun. auto.
      - intros [Hc | (w' & env' & now' & item' & status' & Hev & Hw' & Hst & ->)];
          [left; exact Hc |].
        right. injection Hev as <- <- <-. rewrite Hw in Hw'. injection Hw' as <-.
        rewrite Hrun in Hst. simpl in Hst. injection Hst as <-. reflexivity. }
    unfold claimNext. simpl.
    destruct (aborted st || ext_aborted net); simpl; rewrite settled_snoc; exact Hadd.
  - split; [auto |].
    intros [Hc | (w' & env' & now' & item' & status' & Hev & Hw' & _)]; [exact Hc |].
    injection Hev as <- <- <-. rewrite Hw in Hw'. discriminate.
  - split; [auto |].
    intros [Hc | (w' & env' & now' & item' & status' & Hev & Hw' & _)]; [exact Hc |].
    injection Hev as <- <- <-. rewrite Hw in Hw'. discriminate.
Qed.

(** The checks a run has made, read off its events: each is the settlement,
    by an event of the schedule, of the check that the worker of the event
    awaited at that point, and its status is what [checkLinkHealth] returns
    on the network of the event. *)
Lemma settled_events (schedule : list Event) (c : Settle) :
  c ∈ settled (effects (run schedule)) <->
  exists pre w env now post item status,
    schedule = pre ++ Settled w env now :: post
    /\ workers (run pre) !! w = Some (Some item)
    /\ fst (checkLinkHealth parseURL env (b_url item) checkOptions (initialNet false))
       = Return status
    /\ c = mkSettle item status now.
Proof.
  induction schedule as [| ev schedule IH] using rev_ind.
  - unfold during. simpl. rewrite started_settled. split.
    + intros Hc. apply elem_of_nil in Hc. contradiction.
    + intros (pre & w & env & now & post & item & status & Hsplit & _).
      destruct pre; discriminate.
  - assert (Hrun : run (schedule ++ [ev])
                   = step parseURL queue total options (run schedule) ev).
    { unfold during. rewrite fold_left_app. reflexivity. }
    rewrite Hrun, step_settled, IH. split.
    + intros [(pre & w & env & now & post & item & status & -> & Hrest)
             | (w & env & now & item & status & -> & Hrest)].
      * exists pre, w, env, now, (post ++ [ev]), item, status.
        rewrite <- app_assoc. split; [reflexivity | exact Hrest].
      * exists schedule, w, env, now, [], item, status. auto.
    + intros (pre & w & env & now & post & item & status & Hsplit & Hrest).
      destruct post as [| last post _] using rev_ind.
      * apply app_inj_tail in Hsplit as [-> ->]. right. eauto 10.
      * rewrite app_comm_cons, app_assoc in Hsplit.
        apply app_inj_tail in Hsplit as [-> ->]. left. eauto 10.
Qed.

(** What a completed run over targets with pairwise distinct ids returns
    for one of them, read off the events of the schedule. *)
Lemma result_of_target (schedule : list Event) (out : Settlement) (i : nat) (b : Bookmark) :
  batchCheckLinks parseURL bookmarks options ls now0 schedule = Some out ->
  NoDup (b_id <$> bookmarks) ->
  bookmarks !! i = Some b ->
  exists results : list LinkCheckResult,
    returned out = Return results
    /\ (forall pre w env now post item status,
          schedule = pre ++ Settled w env now :: post ->
          workers (run pre) !! w = Some (Some item) ->
          b_id item = b_id b ->
          fst (checkLinkHealth parseURL env (b_url item) checkOptions (initialNet false))
          = Return status ->
          normalizeUrl parseURL (b_url b) = Some (b_url item)
          /\ results !! i = Some (mkResult (b_id b) (b_url item) status))
    /\ (forall r, locally b = Some r -> results !! i = Some r)
    /\ (locally b = None ->
        (forall pre w env now post item,
           schedule = pre ++ Settled w env now :: post ->
           workers (run pre) !! w = Some (Some item) -> b_id item <> b_id b) ->
        results !! i = Some (placeholder b)).
Proof.
  intros Hout Hnd Hb.
  destruct (completed_run schedule out Hout) as (_ & Hret & _ & _).
  destruct (recorded_results schedule b Hnd (list_elem_of_lookup_2 _ _ _ Hb))
    as (Hlocal & Hchecked & Hmissing).
  eexists. split; [exact Hret |]. rewrite list_lookup_fmap, Hb. simpl.
  split; [| split].
  - intros pre w env now post item status Hsplit Hw Hid Hst.
    destruct (Hchecked (mkSettle item status now)) as (n & Hn & Hitem & ->).
    + apply settled_events. exists pre, w, env, now, post, item, status. auto.
    + exact Hid.
    + simpl in Hitem. subst item. simpl. auto.
  - intros r Hr. rewrite (Hlocal r Hr). reflexivity.
  - intros Hloc Hnone. rewrite Hmissing; [reflexivity | exact Hloc |].
    intros c Hc.
    apply settled_events in Hc
      as (pre & w & env & now & post & item & status & Hsplit & Hw & _ & ->).
    simpl. eapply Hnone; eassumption.
Qed.

(** C3, as the code has it.  Once the caller's signal has fired during a
    run, the run still returns: settling the checks in flight, whichever
    way, completes it.  What it then returns is one result per target, in
    the order of the targets, and the stored cache is left as it was found.
    With pairwise distinct ids: a target whose check is settled by an event
    of the schedule carries the status that [checkLinkHealth] returns on the
    network of that event, a target resolved without a check carries that
    result, and a target for which no event settles a check carries the dead
    placeholder.  The results are kept by id, so that without distinct ids a
    target may carry the result of another. *)
Theorem aborted_run_results_and_storage (schedule : list Event) (env : NetEnv) (now : Z) :
  aborted (run schedule) = true ->
  (exists (rest : list Event) (out : Settlement),
      Forall (isSettlement env now) rest
      /\ batchCheckLinks parseURL bookmarks options ls now0 (schedule ++ rest) = Some out)
  /\ (forall (rest : list Event) (out : Settlement),
        batchCheckLinks parseURL bookmarks options ls now0 (schedule ++ rest) = Some out ->
        exists results : list LinkCheckResult,
          returned out = Return results
          /\ length results = length bookmarks
          /\ r_id <$> results = b_id <$> bookmarks
          /\ finalStorage out = ls
          /\ (NoDup (b_id <$> bookmarks) ->
              forall i b, bookmarks !! i = Some b ->
                (forall pre w env' now' post item status,
                   schedule ++ rest = pre ++ Settled w env' now' :: post ->
                   workers (run pre) !! w = Some (Some item) ->
                   b_id item = b_id b ->
                   fst (checkLinkHealth parseURL env' (b_url item) checkOptions
                          (initialNet false)) = Return status ->
                   results !! i = Some (mkResult (b_id b) (b_url item) status))
                /\ (forall r, locally b = Some r -> results !! i = Some r)
                /\ (locally b = None ->
                    (forall pre w env' now' post item,
                       schedule ++ rest = pre ++ Settled w env' now' :: post ->
                       workers (run pre) !! w = Some (Some item) ->
                       b_id item <> b_id b) ->
                    results !! i = Some (placeholder b)))).
Proof.
  intros Hfired. split; [apply run_completes |].
  intros rest out Hout.
  pose proof (aborted_later schedule rest Hfired) as Hab.
  destruct (completed_run (schedule ++ rest) out Hout) as (Hall & Hret & Hsto & Hobs).
  eexists. split; [exact Hret | split; [apply length_fmap | split; [| split]]].
  - rewrite <- list_fmap_compose. apply list_fmap_ext. intros i b Hb. simpl.
    destruct (resultsById (run (schedule ++ rest)) !! b_id b) as [r |] eqn:Hr; simpl;
      [| reflexivity].
    apply (keys_of_results (schedule ++ rest)), Hr.
  - rewrite Hsto, Hab. reflexivity.
  - intros Hnd i b Hb.
    destruct (result_of_target (schedule ++ rest) out i b Hout Hnd Hb)
      as (results & Hret' & Hchecked & Hlocal & Hmissing).
    rewrite Hret in Hret'. injection Hret' as <-.
    split; [| split; [exact Hlocal | exact Hmissing]].
    intros pre w env' now' post item status Hsplit Hw Hid Hst.
    apply (Hchecked pre w env' now' post item status Hsplit Hw Hid Hst).
Qed.

(** C10, as the code has it.  In the list a completed run returns over
    targets with pairwise distinct ids, a target with an invalid url and a
    target served from a fresh cache entry carry the url as it was handed
    in, while a target whose check is settled by an event of the schedule
    carries the normalised url, with the status that check returned.  In a
    run on which the signal has not fired that is every target not resolved
    in the first loop.  The results are kept by id, so that without distinct
    ids a target may carry the url of another. *)
Theorem result_url_raw_or_normalized (schedule : list Event) (out : Settlement)
    (i : nat) (b : Bookmark) :
  batchCheckLinks parseURL bookmarks options ls now0 schedule = Some out ->
  NoDup (b_id <$> bookmarks) ->
  bookmarks !! i = Some b ->
  exists results : list LinkCheckResult,
    returned out = Return results
    /\ (normalizeUrl parseURL (b_url b) = None ->
        results !! i = Some (mkResult (b_id b) (b_url b) dead))
    /\ (forall n cached,
          normalizeUrl parseURL (b_url b) = Some n -> cache0 !! n = Some cached ->
          isFresh options now0 cached = true ->
          results !! i = Some (mkResult (b_id b) (b_url b) (ce_status cached)))
    /\ (forall pre w env now post item status,
          schedule = pre ++ Settled w env now :: post ->
          workers (run pre) !! w = Some (Some item) ->
          b_id item = b_id b ->
          fst (checkLinkHealth parseURL env (b_url item) checkOptions (initialNet false))
          = Return status ->
          normalizeUrl parseURL (b_url b) = Some (b_url item)
          /\ results !! i = Some (mkResult (b_id b) (b_url item) status))
    /\ (aborted (run schedule) = false -> locally b = None ->
        exists n pre w env now post status,
          normalizeUrl parseURL (b_url b) = Some n
          /\ schedule = pre ++ Settled w env now :: post
          /\ workers (run pre) !! w = Some (Some (mkBookmark (b_id b) n))
          /\ fst (checkLinkHealth parseURL env n checkOptions (initialNet false))
             = Return status
          /\ results !! i = Some (mkResult (b_id b) n status)).
Proof.
  intros Hout Hnd Hb.
  destruct (completed_run schedule out Hout) as (Hall & _ & _ & _).
  destruct (result_of_target schedule out i b Hout Hnd Hb)
    as (results & Hret & Hchecked & Hlocal & _).
  exists results. split; [exact Hret |].
  split; [| split; [| split; [exact Hchecked |]]].
  - intros Hbad. apply Hlocal. unfold resolveLocally. rewrite Hbad. reflexivity.
  - intros n cached Hn Hcached Hfresh. apply Hlocal.
    unfold resolveLocally. rewrite Hn, Hcached, Hfresh. reflexivity.
  - intros Hab Hloc.
    destruct (triage_cases parseURL cache0 now0 options b)
      as [(r & Hr & _) | (n & _ & Hq & Hn)]; [congruence |].
    assert (Hitem : mkBookmark (b_id b) n ∈ queue).
    { rewrite queue_eq. eapply queued_elem; [| exact Hq].
      eapply list_elem_of_lookup_2, Hb. }
    rewrite <- (settled_all schedule Hall Hab) in Hitem.
    apply list_elem_of_fmap in Hitem as (c & Hc & Hin).
    apply settled_events in Hin
      as (pre & w & env & now & post & item & status & Hsplit & Hw & Hst & ->).
    simpl in Hc. subst item.
    destruct (Hchecked pre w env now post (mkBookmark (b_id b) n) status Hsplit Hw
                eq_refl Hst) as [_ Hres].
    exists n, pre, w, env, now, post, status. auto 10.
Qed.

(** C9, as the code has it.  The number of workers launched is
    [max(1, min(options.concurrency ?? 20, total || 1))], whatever the length
    of the queue; it stays the number of worker slots throughout the run.
    When the signal has not fired at the call, the workers that find an item
    at launch are as many as the smaller of that number and the queue
    length; the others return at once. *)
Theorem workers_launched :
  length (workers (started parseURL bookmarks options ls now0))
  = Z.to_nat (Z.max 1 (Z.min (default 20%Z (concurrency options))
                              (if (total =? 0)%nat then 1%Z else Z.of_nat total)))
  /\ (forall schedule, length (workers (run schedule))
                       = length (workers (started parseURL bookmarks options ls now0)))
  /\ (signal options = false ->
      length (inflight (workers (started parseURL bookmarks options ls now0)))
      = Nat.min (workerCount options total) (length queue)).
Proof.
  pose proof (during_workers parseURL bookmarks options ls now0 []) as Hstart.
  unfold during in Hstart. simpl in Hstart.
  split; [rewrite Hstart; reflexivity | split].
  - intros schedule. rewrite Hstart. apply during_workers.
  - intros Hsig.
    pose proof (inv_claimed _ _ _ _ _ _ (inv_started parseURL bookmarks options ls now0))
      as Hperm.
    rewrite started_eq in Hperm |- *.
    rewrite launch_effects, launch_cursor in Hperm by exact Hsig. simpl in Hperm.
    rewrite (Permutation_length Hperm), length_take. reflexivity.
Qed.

(** C4, as the code has it.  While a run is under way the stored cache is
    never written: after any events it is what it was at the call.  A check
    that settles writes its entry into the in-memory map at once.  The map is
    stored once, when all workers have returned and the signal has not
    fired; it then holds an entry for the url of every queue item, unless
    the stored item was an array, which is stored back with its elements
    and nothing else. *)
Theorem durable_cache_written_once_at_end (schedule : list Event) :
  storage (run schedule) = ls
  /\ (forall w env now item,
        workers (run schedule) !! w = Some (Some item) ->
        exists status,
          fst (checkLinkHealth parseURL env (b_url item)
                 (mkCheckOptions (Some (default 5000%Z (timeoutMs options))))
                 (initialNet false)) = Return status
          /\ cache (run (schedule ++ [Settled w env now])) !! b_url item
             = Some (mkEntry status now)
          /\ storage (run (schedule ++ [Settled w env now])) = ls)
  /\ (forall out,
        batchCheckLinks parseURL bookmarks options ls now0 schedule = Some out ->
        finalStorage out
        = (if aborted (run schedule) then ls else writeCache (cache (run schedule)) ls)
        /\ (aborted (run schedule) = false -> ls_writable ls = true ->
            match ls_item ls with
            | Some (ArrayBlob elements) =>
                ls_item (finalStorage out) = Some (ArrayBlob elements)
            | _ =>
                exists c, ls_item (finalStorage out) = Some (CacheBlob c)
                          /\ forall item, item ∈ queue -> is_Some (c !! b_url item)
            end)).
Proof.
  pose proof (inv_during parseURL bookmarks options ls now0) as Hinv.
  split; [apply (inv_storage _ _ _ _ _ _ (Hinv schedule)) | split].
  - intros w env now item Hw.
    destruct (checkLinkHealth_returns parseURL env (b_url item)
                (mkCheckOptions (Some (default 5000%Z (timeoutMs options))))
                (initialNet false)) as (status & net & Hrun & _).
    exists status. rewrite Hrun. split; [reflexivity |].
    split; [| apply (inv_storage _ _ _ _ _ _ (Hinv _))].
    unfold during. rewrite fold_left_app. simpl. fold (run schedule).
    rewrite Hw, Hrun. unfold claimNext. simpl.
    destruct (aborted (run schedule) || ext_aborted net); simpl; apply lookup_insert_eq.
  - intros out Hout.
    destruct (completed_run schedule out Hout) as (Hall & _ & Hsto & _).
    split; [exact Hsto |]. intros Hab Hwr.
    rewrite Hsto, Hab. unfold writeCache, stringify. rewrite Hwr. simpl.
    rewrite (inv_cache _ _ _ _ _ _ (Hinv schedule)), remember_elements, readCache_elements.
    assert (Hentries : forall item, item ∈ queue ->
              is_Some (c_entries (fold_left remember (settled (effects (run schedule)))
                                    cache0) !! b_url item)).
    { intros item Hitem.
      rewrite <- (settled_all schedule Hall Hab) in Hitem.
      apply list_elem_of_fmap in Hitem as (c & -> & Hc).
      apply remember_lookup, Hc. }
    destruct (ls_item ls) as [[raw | c | elements] |]; eauto.
Qed.

End Outcome.

(** * The scheduler on concrete runs *)



(** Two targets under one id.  The check of the first returns ok, the check
    of the second dead, then the signal fires: the run returns dead for both,
    so the first target, whose check completed before the abort, does not
    carry the status of its check. *)
Lemma repeated_id_loses_completed_status :
  workers (during Demo.parseURL Demo.repeatedId (Demo.withConcurrency 1)
             Demo.emptyStorage 1000 []) !! 0%nat
  = Some (Some (mkBookmark "x" "https://a.example/"))
  /\ fst (checkLinkHealth Demo.parseURL (Demo.offlineApi 200) "https://a.example/"
            (mkCheckOptions (Some 5000%Z)) (initialNet false)) = Return ok
  /\ aborted (during Demo.parseURL Demo.repeatedId (Demo.withConcurrency 1)
                Demo.emptyStorage 1000 (take 2 Demo.overwriteThenAbort)) = false
  /\ aborted (during Demo.parseURL Demo.repeatedId (Demo.withConcurrency 1)
                Demo.emptyStorage 1000 (take 3 Demo.overwriteThenAbort)) = true
  /\ returned <$> batchCheckLinks Demo.parseURL Demo.repeatedId (Demo.withConcurrency 1)
                    Demo.emptyStorage 1000 Demo.overwriteThenAbort
     = Some (Return [mkResult "x" "https://b.example/" dead;
                     mkResult "x" "https://b.example/" dead;
                     mkResult "c" "https://c.example/" dead]).
Proof. vm_compute. auto 10. Qed.

(** An invalid url and a valid one under one id: the target with the
    invalid url, resolved without network work, comes back with the
    normalised url of the other, not with its own url as handed in. *)
Lemma repeated_id_invalid_target_normalized_url :
  normalizeUrl Demo.parseURL "not a url!!" = None
  /\ returned <$> batchCheckLinks Demo.parseURL Demo.repeatedIdInvalid Demo.noOptions
                    Demo.emptyStorage 1000 [Settled 0 (Demo.offlineApi 404) 2000]
     = Some (Return [mkResult "x" "https://b.example/" dead;
                     mkResult "x" "https://b.example/" dead]).
Proof. vm_compute. auto. Qed.

Lemma aborted_run_results_and_storage_witness :
  aborted (during Demo.parseURL Demo.five (Demo.withConcurrency 2) Demo.emptyStorage 1000
             Demo.untilAbort) = true
  /\ exists (out : Settlement) (results : list LinkCheckResult),
       batchCheckLinks Demo.parseURL Demo.five (Demo.withConcurrency 2) Demo.emptyStorage
         1000 Demo.abortAfterTwo = Some out
       /\ returned out = Return results
       /\ length results = 5
       /\ r_id <$> results = ["a"; "b"; "c"; "d"; "e"]
       /\ finalStorage out = Demo.emptyStorage
       /\ results !! 0%nat = Some (mkResult "a" "https://a.example/" ok)
       /\ results !! 1%nat = Some (mkResult "b" "https://b.example/" dead)
       /\ results !! 4%nat = Some (mkResult "e" "e.example" dead).
Proof.
  assert (Hfired : aborted (during Demo.parseURL Demo.five (Demo.withConcurrency 2)
                              Demo.emptyStorage 1000 Demo.untilAbort) = true)
    by (vm_compute; reflexivity).
  split; [exact Hfired |].
  destruct (batchCheckLinks Demo.parseURL Demo.five (Demo.withConcurrency 2)
              Demo.emptyStorage 1000 Demo.abortAfterTwo) as [out |] eqn:Hrun;
    [| vm_compute in Hrun; discriminate].
  destruct (aborted_run_results_and_storage Demo.parseURL Demo.five (Demo.withConcurrency 2)
              Demo.emptyStorage 1000 Demo.untilAbort Demo.cancelled 1012 Hfired)
    as [_ Hprops].
  destruct (Hprops [Settled 0 Demo.cancelled 1012; Settled 1 Demo.cancelled 1012] out Hrun)
    as (results & Hret & Hlen & Hids & Hsto & Hstatus).
  assert (Hnd : NoDup (b_id <$> Demo.five)).
  { vm_compute. repeat constructor; rewrite ?elem_of_cons, ?elem_of_nil; intuition discriminate. }
  exists out, results.
  split; [reflexivity |]. split; [exact Hret |]. split; [exact Hlen |].
  split; [exact Hids |]. split; [exact Hsto |].
  split; [| split].
  - destruct (Hstatus Hnd 0 (mkBookmark "a" "https://a.example/") eq_refl)
      as (Hchecked & _).
    apply (Hchecked [] 0 (Demo.offlineApi 200) 1010%Z
             [Settled 1 (Demo.offlineApi 404) 1011; AbortFired;
              Settled 0 Demo.cancelled 1012; Settled 1 Demo.cancelled 1012]
             (mkBookmark "a" "https://a.example/") ok);
      vm_compute; reflexivity.
  - destruct (Hstatus Hnd 1 (mkBookmark "b" "https://b.example/") eq_refl)
      as (Hchecked & _).
    apply (Hchecked [Settled 0 (Demo.offlineApi 200) 1010] 1 (Demo.offlineApi 404) 1011%Z
             [AbortFired; Settled 0 Demo.cancelled 1012; Settled 1 Demo.cancelled 1012]
             (mkBookmark "b" "https://b.example/") dead);
      vm_compute; reflexivity.
  - destruct (Hstatus Hnd 4 (mkBookmark "e" "e.example") eq_refl)
      as (_ & _ & Hmissing).
    apply Hmissing; [vm_compute; reflexivity |].
    intros pre w env' now' post item Hsplit Hw.
    change (Demo.untilAbort
            ++ [Settled 0 Demo.cancelled 1012; Settled 1 Demo.cancelled 1012])
      with [Settled 0 (Demo.offlineApi 200) 1010; Settled 1 (Demo.offlineApi 404) 1011;
            AbortFired; Settled 0 Demo.cancelled 1012; Settled 1 Demo.cancelled 1012]
      in Hsplit.
    do 5 (destruct pre as [| ev pre]; simpl in Hsplit;
          [ first [ discriminate Hsplit
                  | injection Hsplit as Hw' _ _ _; subst w; vm_compute in Hw;
                    injection Hw as Hitem; subst item; discriminate ]
          | injection Hsplit as Hev Hsplit; subst ev ]).
    destruct pre; discriminate Hsplit.
Defined.

(** The same run in full: the two checks that settled before the signal
    fired keep their statuses, the two cut short are recorded as dead under
    their normalised urls, and the target no worker reached gets the
    placeholder with its url as handed in. *)
Example abort_after_two_results :
  returned <$> batchCheckLinks Demo.parseURL Demo.five (Demo.withConcurrency 2)
                 Demo.emptyStorage 1000 Demo.abortAfterTwo
  = Some (Return [mkResult "a" "https://a.example/" ok;
                  mkResult "b" "https://b.example/" dead;
                  mkResult "c" "https://c.example/" dead;
                  mkResult "d" "https://d.example/" dead;
                  mkResult "e" "e.example" dead]).
Proof. vm_compute. reflexivity. Qed.

Lemma result_url_raw_or_normalized_witness :
  exists (out : Settlement) (results : list LinkCheckResult),
    batchCheckLinks Demo.parseURL Demo.bookmarksABC Demo.noOptions Demo.emptyStorage 1000
      Demo.settleBA = Some out
    /\ returned out = Return results
    /\ results !! 1%nat = Some (mkResult "b" "https://b.example/" dead)
    /\ results !! 2%nat = Some (mkResult "c" "not a url!!" dead).
Proof.
  destruct (batchCheckLinks Demo.parseURL Demo.bookmarksABC Demo.noOptions
              Demo.emptyStorage 1000 Demo.settleBA) as [out |] eqn:Hrun;
    [| vm_compute in Hrun; discriminate].
  assert (Hnd : NoDup (b_id <$> Demo.bookmarksABC)).
  { vm_compute. repeat constructor; rewrite ?elem_of_cons, ?elem_of_nil; intuition discriminate. }
  destruct (result_url_raw_or_normalized Demo.parseURL Demo.bookmarksABC Demo.noOptions
              Demo.emptyStorage 1000 Demo.settleBA out 2 (mkBookmark "c" "not a url!!")
              Hrun Hnd eq_refl) as (results & Hret & Hraw & _).
  destruct (result_url_raw_or_normalized Demo.parseURL Demo.bookmarksABC Demo.noOptions
              Demo.emptyStorage 1000 Demo.settleBA out 1 (mkBookmark "b" "b.example")
              Hrun Hnd eq_refl) as (results' & Hret' & _ & _ & Hworker & _).
  rewrite Hret in Hret'. injection Hret' as <-.
  exists out, results. split; [reflexivity | split; [exact Hret |]]. split.
  - apply (Hworker [] 1 (Demo.offlineApi 404) 2000%Z [Settled 0 (Demo.offlineApi 200) 2001]
             (mkBookmark "b" "https://b.example/") dead);
      vm_compute; reflexivity.
  - apply Hraw. vm_compute. reflexivity.
Defined.

(** The raw and the normalised url side by side: [b] went through a worker,
    [c] did not. *)
Example urls_of_results :
  returned <$> batchCheckLinks Demo.parseURL Demo.bookmarksABC Demo.noOptions
                 Demo.emptyStorage 1000 Demo.settleBA
  = Some (Return [mkResult "a" "https://a.example/" ok;
                  mkResult "b" "https://b.example/" dead;
                  mkResult "c" "not a url!!" dead]).
Proof. vm_compute. reflexivity. Qed.

(** A requested concurrency of 0 and one target to check: the code launches
    one worker, which takes the item, where the formula of the claim gives
    [min(1, 1, 0) = 0]. *)
Lemma zero_concurrency_one_worker :
  length (workers (started Demo.parseURL Demo.one (Demo.withConcurrency 0)
                     Demo.emptyStorage 1000)) = 1
  /\ inflight (workers (started Demo.parseURL Demo.one (Demo.withConcurrency 0)
                          Demo.emptyStorage 1000))
     = [mkBookmark "a" "https://a.example/"]
  /\ workerCount_spec
       (Z.of_nat (workerCount (Demo.withConcurrency 0) (length Demo.one)))
       (Z.of_nat (length (queueOf Demo.parseURL Demo.one (Demo.withConcurrency 0)
                            Demo.emptyStorage 1000)))
       (default 20%Z (concurrency (Demo.withConcurrency 0)))
     = 0%Z.
Proof. vm_compute. auto. Qed.

(** Five targets served from the cache under the default options: five
    workers are launched although the queue is empty. *)
Example empty_queue_five_workers :
  queueOf Demo.parseURL Demo.five Demo.noOptions Demo.warmStorage 1000 = []
  /\ workers (started Demo.parseURL Demo.five Demo.noOptions Demo.warmStorage 1000)
     = [None; None; None; None; None].
Proof. vm_compute. auto. Qed.

(** One worker, two targets, the first check has settled: its entry is in
    the in-memory map, the stored cache is still empty, the run goes on. *)
Lemma first_check_not_stored :
  settled (effects (during Demo.parseURL Demo.two (Demo.withConcurrency 1)
                      Demo.emptyStorage 1000 [Settled 0 (Demo.offlineApi 200) 2000]))
  = [mkSettle (mkBookmark "a" "https://a.example/") ok 2000]
  /\ cache (during Demo.parseURL Demo.two (Demo.withConcurrency 1)
              Demo.emptyStorage 1000 [Settled 0 (Demo.offlineApi 200) 2000])
       !! "https://a.example/" = Some (mkEntry ok 2000)
  /\ ls_item (storage (during Demo.parseURL Demo.two (Demo.withConcurrency 1)
                         Demo.emptyStorage 1000 [Settled 0 (Demo.offlineApi 200) 2000]))
     = None
  /\ batchCheckLinks Demo.parseURL Demo.two (Demo.withConcurrency 1)
       Demo.emptyStorage 1000 [Settled 0 (Demo.offlineApi 200) 2000] = None.
Proof. vm_compute. auto. Qed.

(** * More on the single-link check of the client *)

Section ClientPolicy.

Variable parseURL : string -> option URL.

#[local] Arguments Client.classifyResponse : simpl never.

Local Ltac run_client :=
  unfold Client.checkLinkHealth, Client.checkLinkHealthViaApi, Client.mergeSignals,
    Client.fetch, Client.fetchApi, Async.bind, Async.try_catch, Async.ret,
    Async.throw, Async.modify, Client.isAbortError, Client.initialNet in *.

Local Ltac cases :=
  repeat (rewrite ?fire_log, ?fire_ctl in *; case_match; simpl in *; simplify_eq).

Local Ltac log_len :=
  simpl; rewrite ?fire_log; simpl; rewrite ?length_app; simpl; lia.

Local Ltac in_calls H :=
  repeat (apply elem_of_cons in H as [H | H]; [subst |]);
  try (apply elem_of_nil in H; contradiction).

(** The API step hands on a status only when the server answered with a
    success code and the body's status is exactly ["ok"] or ["dead"]; an
    invalid url, a fired signal, a failure, another code or any other status
    (["unknown"] too) gives [null].  It never throws and calls [fetch] at most
    once. *)
Theorem api_step_hands_on_definite_status_only env url timeoutMs mode (s : Client.Net) :
  exists (r : option InternalLinkHealthStatus) (s' : Client.Net),
    Client.checkLinkHealthViaApi parseURL env url timeoutMs mode s = (Return r, s')
    /\ (forall st, r = Some st <->
          (st <> unknown
           /\ is_Some (Client.normalizeUrl parseURL url)
           /\ Client.ctl_aborted s = false
           /\ Client.env_api env
              = Client.ApiResponded (Client.mkApiReply true (Some (Wire.statusName st)))))
    /\ length (Client.net_log s') <= S (length (Client.net_log s)).
Proof.
  run_client.
  destruct (Client.normalizeUrl parseURL url) as [n |] eqn:Hn.
  2:{ eexists _, _. split; [reflexivity |]. split; [| log_len].
      intros st. split; [discriminate |]. intros (_ & [x Hx] & _). discriminate. }
  destruct (Client.ctl_aborted s) eqn:Hctl; simpl.
  { eexists _, _. split; [reflexivity |]. split; [| log_len].
    intros st. split; [discriminate |]. intros (_ & _ & Hno & _). discriminate. }
  destruct (Client.env_api env) as [[okb status] | msg | [src |]] eqn:Hapi; simpl;
    try (eexists _, _; split; [reflexivity |];
         split; [| log_len];
         intros st; split; [discriminate |]; intros (_ & _ & _ & Heq); discriminate).
  destruct okb; simpl.
  2:{ eexists _, _. split; [reflexivity |]. split; [| log_len].
      intros st. split; [discriminate |]. intros (_ & _ & _ & Heq). discriminate. }
  destruct status as [status |]; simpl.
  2:{ eexists _, _. split; [reflexivity |]. split; [| log_len].
      intros st. split; [discriminate |]. intros (_ & _ & _ & Heq). discriminate. }
  repeat case_bool_decide; subst;
    (eexists _, _; split; [reflexivity |];
     split; [| log_len]);
    intros st; split.
  all: try (intros Heq; injection Heq as <-; repeat split; eauto; discriminate).
  all: try discriminate.
  all: intros (Hst & _ & _ & Heq); injection Heq as Heq; destruct st; simpl in Heq;
    congruence.
Qed.

(** One check calls [fetch] at most three times, in this order and each at
    most once: the server API, a HEAD of the target, a GET of the target; a
    GET is never called without a HEAD before it. *)
Theorem check_calls_fetch_in_order env url options sig (normalized : string) :
  Client.normalizeUrl parseURL url = Some normalized ->
  let log := Client.net_log
               (snd (Client.checkLinkHealth parseURL env url options
                       (Client.initialNet sig))) in
  (Client.nc_request <$> log)
    `sublist_of` [Client.ApiRequest
                    (default normalized (Client.normalizeUrl parseURL normalized)) "auto"
                    (Z.min (default 8000%Z (Client.opt_timeoutMs options)) 4500);
                  Client.DirectRequest HEAD normalized;
                  Client.DirectRequest GET normalized]
  /\ ((exists c, c ∈ log /\ Client.isDirect GET (Client.nc_request c) = true) ->
      exists c, c ∈ log /\ Client.isDirect HEAD (Client.nc_request c) = true).
Proof.
  intros Hn log. subst log. run_client. rewrite Hn.
  destruct (Client.normalizeUrl parseURL normalized) as [n' |] eqn:Hn'; simpl;
    cases; split; simpl; rewrite ?fire_log; simpl;
    try (repeat first [apply sublist_nil | apply sublist_skip | apply sublist_cons]).
  all: intros (c & Hc & Hget); in_calls Hc; simpl in Hget; try discriminate.
  all: exists (Client.mkCall (Client.DirectRequest HEAD normalized) true);
    split; [rewrite ?elem_of_cons; auto | reflexivity].
Qed.

(** On a signal that has fired before the call nothing leaves the browser:
    the answer is dead and every [fetch] the check calls is rejected unsent. *)
Theorem fired_signal_sends_nothing env url options :
  let run := Client.checkLinkHealth parseURL env url options (Client.initialNet true) in
  fst run = Return dead
  /\ forall c, c ∈ Client.net_log (snd run) -> Client.nc_sent c = false.
Proof.
  intros run. subst run. run_client.
  cases; split; try reflexivity; intros c Hc; in_calls Hc; reflexivity.
Qed.

(** A definite answer of the server is final: the check returns it after
    that one request and does not contact the target itself. *)
Theorem api_answer_is_final env url options (normalized target : string)
    (st : InternalLinkHealthStatus) :
  Client.normalizeUrl parseURL url = Some normalized ->
  Client.normalizeUrl parseURL normalized = Some target ->
  st <> unknown ->
  Client.env_api env = Client.ApiResponded (Client.mkApiReply true (Some (Wire.statusName st))) ->
  Client.checkLinkHealth parseURL env url options (Client.initialNet false)
  = (Return st,
     Client.mkNet false false
       [Client.mkCall
          (Client.ApiRequest target "auto"
             (Z.min (default 8000%Z (Client.opt_timeoutMs options)) 4500)) true]).
Proof.
  intros Hn Hn' Hst Hapi. run_client. rewrite Hn. simpl. rewrite Hn', Hapi. simpl.
  destruct st; simpl; try reflexivity. contradiction.
Qed.

(** The GET retry policy.  A GET of the target is called exactly when the
    HEAD went out and either failed with a network error or was answered
    405 by a response that classifies as unknown.  The answer is then the
    classification of the GET response, with unknown and every failure
    turned into dead. *)
Theorem get_retry_policy env url options sig (normalized : string) :
  Client.normalizeUrl parseURL url = Some normalized ->
  let run := Client.checkLinkHealth parseURL env url options (Client.initialNet sig) in
  let log := Client.net_log (snd run) in
  ((exists c, c ∈ log /\ Client.isDirect GET (Client.nc_request c) = true) <->
   (Client.mkCall (Client.DirectRequest HEAD normalized) true ∈ log
    /\ ((exists msg, Client.env_head env = Client.NetworkFailure msg)
        \/ (exists r, Client.env_head env = Client.Responded r
                      /\ Client.classifyResponse r = unknown
                      /\ resp_status r = 405%Z))))
  /\ ((exists c, c ∈ log /\ Client.isDirect GET (Client.nc_request c) = true) ->
      fst run
      = Return (match Client.env_get env with
                | Client.Responded r' =>
                    match Client.classifyResponse r' with
                    | unknown => dead
                    | definite => definite
                    end
                | _ => dead
                end)).
Proof.
  intros Hn run log. subst log run. run_client. rewrite Hn.
  cases;
    repeat match goal with
      | H : bool_decide _ = true |- _ => apply bool_decide_eq_true in H
      | H : bool_decide _ = false |- _ => apply bool_decide_eq_false in H
      | H : (_ =? _)%Z = true |- _ => apply Z.eqb_eq in H
      | H : (_ =? _)%Z = false |- _ => apply Z.eqb_neq in H
      end;
    repeat match goal with
      | H : ~ (?x <> unknown) |- _ =>
          assert (x = unknown)
            by (destruct x; try reflexivity; exfalso; apply H; discriminate);
          clear H
      end;
    rewrite ?fire_log; simpl;
    (split; [split |]).
  all: try (intros (c & Hc & Hget); in_calls Hc; simpl in Hget; discriminate).
  all: try (intros (Hhead & _); in_calls Hhead; discriminate).
  all: try (intros (_ & [[? ?] | (? & ? & ? & ?)]); simplify_eq; congruence).
  all: try (intros _; split;
            [rewrite ?elem_of_cons; auto
            | first [left; eexists; reflexivity
                    | right; eexists; split; [reflexivity | split; assumption]]]).
  all: try (intros _; exists (Client.mkCall (Client.DirectRequest GET normalized) true);
            split; [rewrite ?elem_of_cons; auto | reflexivity]).
  all: intros _; try reflexivity; try congruence.
Qed.

End ClientPolicy.

Lemma check_calls_fetch_in_order_witness :
  (Client.nc_request
     <$> Client.net_log
           (snd (Client.checkLinkHealth Demo.parseURL Demo.headRefused "a.example"
                   (Client.mkCheckOptions None) (Client.initialNet false))))
  = [Client.ApiRequest "https://a.example/" "auto" 4500;
     Client.DirectRequest HEAD "https://a.example/";
     Client.DirectRequest GET "https://a.example/"]
  /\ (Client.nc_request
        <$> Client.net_log
              (snd (Client.checkLinkHealth Demo.parseURL (Demo.offlineApi 200) "a.example"
                      (Client.mkCheckOptions None) (Client.initialNet false))))
     `sublist_of` [Client.ApiRequest "https://a.example/" "auto" 4500;
                   Client.DirectRequest HEAD "https://a.example/";
                   Client.DirectRequest GET "https://a.example/"].
Proof.
  split; [vm_compute; reflexivity |].
  apply (check_calls_fetch_in_order Demo.parseURL (Demo.offlineApi 200) "a.example"
           (Client.mkCheckOptions None) false "https://a.example/").
  vm_compute. reflexivity.
Defined.

Lemma api_answer_is_final_witness :
  Client.checkLinkHealth Demo.parseURL (Demo.apiSays "dead") "a.example"
    (Client.mkCheckOptions (Some 3000%Z)) (Client.initialNet false)
  = (Return dead,
     Client.mkNet false false
       [Client.mkCall (Client.ApiRequest "https://a.example/" "auto" 3000) true]).
Proof.
  apply (api_answer_is_final Demo.parseURL (Demo.apiSays "dead") "a.example"
           (Client.mkCheckOptions (Some 3000%Z)) "https://a.example/" "https://a.example/"
           dead).
  - vm_compute. reflexivity.
  - vm_compute. reflexivity.
  - discriminate.
  - reflexivity.
Defined.

Lemma get_retry_policy_witness :
  fst (Client.checkLinkHealth Demo.parseURL Demo.headRefused "a.example"
         (Client.mkCheckOptions None) (Client.initialNet false))
  = Return ok.
Proof.
  destruct (get_retry_policy Demo.parseURL Demo.headRefused "a.example"
              (Client.mkCheckOptions None) false "https://a.example/") as [_ Hres].
  - vm_compute. reflexivity.
  - rewrite Hres; [vm_compute; reflexivity |].
    exists (Client.mkCall (Client.DirectRequest GET "https://a.example/") true).
    split; [vm_compute | reflexivity].
    repeat constructor.
Defined.

(** * More on the server's checks *)

Section ServerPolicy.

Variable parseURL : string -> option URL.

Local Ltac run_srv :=
  unfold Server.linkHealthRoute, Server.checkLinkHealth, Server.checkTcpConnectivity,
    Server.fetch, Server.dnsLookup, Server.socketConnect, Server.enter,
    Server.newAbortController, Server.logOp, Server.initialSrv, Async.bind,
    Async.try_catch, Async.ret, Async.throw, Async.modify in *.

Local Ltac cases := repeat (case_match; simpl in *; simplify_eq).

Local Ltac in_ops H :=
  repeat (apply elem_of_cons in H as [H | H]; [simplify_eq |]);
  try (apply elem_of_nil in H; contradiction).

(** The HTTP check of the server always answers (it never throws), and the
    answer has one of two shapes: an HTTP status code with the final url and
    the classification of that code, or no code and an error text.  In the
    second shape the status is unknown, with error [timeout], exactly when
    the check's timer has fired, and dead otherwise. *)
Theorem server_check_answer_shape (env : Server.NetEnv) (target : string) (timeoutMs : Z) :
  exists (h : Server.HttpResult) (s' : Server.Srv),
    Server.checkLinkHealth env target timeoutMs Server.initialSrv = (Return h, s')
    /\ ((exists code final,
           Server.httpStatus h = Some code /\ Server.finalUrl h = Some final
           /\ Server.http_error h = None
           /\ Server.http_status h = Server.classifyStatus code
           /\ Server.srv_aborted s' = false)
        \/ (Server.httpStatus h = None /\ Server.finalUrl h = None
            /\ ((Server.srv_aborted s' = true /\ Server.http_status h = unknown
                 /\ Server.http_error h = Some "timeout")
                \/ (Server.srv_aborted s' = false /\ Server.http_status h = dead
                    /\ exists msg, Server.http_error h = Some msg))))
    /\ length (Server.srv_ops s') <= 3.
Proof.
  run_srv. simpl.
  cases; eexists _, _; (split; [reflexivity |]); simpl; (split; [| lia]);
    first [left; eexists _, _; repeat split; reflexivity
          | right; repeat split; left; repeat split; reflexivity
          | right; repeat split; right; repeat split; eexists; reflexivity
          | left; eexists _, _; repeat split; try reflexivity;
            match goal with
            | H : bool_decide (?c <> unknown) = false |- _ =>
                apply bool_decide_eq_false in H;
                destruct c; try reflexivity; exfalso; apply H; discriminate
            end].
Qed.

(** The server retries with GET exactly when the HEAD brought no response
    or a 405.  Any other HEAD response is final, also one that classifies as
    unknown (a 100 or a 429, say): it is answered with its code after that
    one request. *)
Theorem server_get_retry_policy (env : Server.NetEnv) (target : string) (timeoutMs : Z) :
  let run := Server.checkLinkHealth env target timeoutMs Server.initialSrv in
  ((exists sent, Server.Fetch GET target sent ∈ Server.srv_ops (snd run)) <->
   ~ (exists r, Server.env_head env = Server.Responded r /\ resp_status r <> 405%Z))
  /\ (forall r, Server.env_head env = Server.Responded r -> resp_status r <> 405%Z ->
        run = (Return (Server.mkHttpResult (Server.classifyStatus (resp_status r))
                         (Some (resp_status r)) (Some (resp_url r)) None),
               Server.mkSrv false
                 [Server.EnterHttpCheck target timeoutMs; Server.Fetch HEAD target true])).
Proof.
  intros run. subst run. run_srv. simpl.
  assert (H405 : forall x, Server.classifyStatus x <> unknown -> x <> 405%Z).
  { intros x Hx ->. apply Hx. reflexivity. }
  destruct (Server.env_head env) as [r | msg |] eqn:Hhead; simpl.
  - destruct (Server.classifyStatus (resp_status r)) eqn:Hcls; simpl;
      try case_bool_decide; try congruence; simpl.
    1, 2: assert (resp_status r <> 405%Z) by (apply H405; congruence).
    1, 2: split;
      [split;
        [intros [sent Hin]; in_ops Hin
        | intros Hno; exfalso; apply Hno; eauto]
      | intros r0 Hr0 Hne; simplify_eq; rewrite Hcls; reflexivity].
    destruct (resp_status r =? 405)%Z eqn:Hst; simpl.
    + apply Z.eqb_eq in Hst.
      split; [| intros r0 Hr0 Hne; simplify_eq; contradiction].
      split; [intros _ (r0 & Hr0 & Hne); simplify_eq; contradiction |].
      intros _. destruct (Server.env_get env); simpl; eexists;
        repeat first [apply list_elem_of_here | apply list_elem_of_further].
    + apply Z.eqb_neq in Hst.
      split; [| intros r0 Hr0 Hne; simplify_eq; rewrite Hcls; reflexivity].
      split; [intros [sent Hin]; in_ops Hin | intros Hno; exfalso; apply Hno; eauto].
  - split; [| intros r0 Hr0; discriminate].
    split; [intros _ (r0 & Hr0 & _); discriminate |].
    intros _. destruct (Server.env_get env); simpl; eexists;
      repeat first [apply list_elem_of_here | apply list_elem_of_further].
  - split; [| intros r0 Hr0; discriminate].
    split; [intros _ (r0 & Hr0 & _); discriminate |].
    intros _. eexists. repeat first [apply list_elem_of_here | apply list_elem_of_further].
Qed.

(** What the TCP probe adds to the record: its entry mark, then at most a
    lookup and a connect, the connect with the time-out it was given. *)
Lemma checkTcpConnectivity_ops env target timeoutMs (s : Server.Srv) :
  exists (tcp : Server.TcpResult) (s' : Server.Srv),
    Server.checkTcpConnectivity parseURL env target timeoutMs s = (Return tcp, s')
    /\ Server.tcp_status tcp <> unknown
    /\ forall o, o ∈ Server.srv_ops s' ->
         o ∈ Server.srv_ops s \/ o = Server.EnterTcpProbe target timeoutMs
         \/ (exists h, o = Server.DnsLookup h)
         \/ (exists p h, o = Server.Connect p h timeoutMs).
Proof.
  run_srv.
  cases; eexists _, _; (split; [reflexivity |]); (split; [discriminate |]);
    intros o Ho; simpl in Ho;
    rewrite ?elem_of_app, ?elem_of_cons, ?elem_of_nil in Ho;
    intuition (subst; eauto 8).
Qed.

Lemma server_checkLinkHealth_ops env target timeoutMs :
  exists (h : Server.HttpResult) (s' : Server.Srv),
    Server.checkLinkHealth env target timeoutMs Server.initialSrv = (Return h, s')
    /\ forall o, o ∈ Server.srv_ops s' ->
         o = Server.EnterHttpCheck target timeoutMs
         \/ exists m sent, o = Server.Fetch m target sent.
Proof.
  run_srv. simpl.
  cases; eexists _, _; (split; [reflexivity |]);
    intros o Ho; in_ops Ho; eauto.
Qed.

(** The TCP probe always answers, with ok or dead and never unknown.  It
    answers ok exactly when the url parses, the host resolves and the
    connection is made; ok comes with the port (the url's own, else 443 for
    https and 80 for anything else) and without an error, dead with an error
    and without a port. *)
Theorem tcp_probe_answer (env : Server.NetEnv) (target : string) (timeoutMs : Z)
    (s : Server.Srv) :
  exists (tcp : Server.TcpResult) (s' : Server.Srv),
    Server.checkTcpConnectivity parseURL env target timeoutMs s = (Return tcp, s')
    /\ Server.tcp_status tcp <> unknown
    /\ (Server.tcp_status tcp = ok <->
        is_Some (parseURL target) /\ Server.env_dns env = None
        /\ Server.env_connect env = Server.Connected)
    /\ (Server.tcp_status tcp = ok ->
        exists u, parseURL target = Some u
                  /\ Server.tcp_port tcp
                     = Some (match port u with
                             | Some n => n
                             | None => if bool_decide (protocol u = "https:")
                                       then 443%Z else 80%Z
                             end)
                  /\ Server.tcp_error tcp = None)
    /\ (Server.tcp_status tcp = dead ->
        Server.tcp_port tcp = None /\ is_Some (Server.tcp_error tcp)).
Proof.
  run_srv.
  destruct (parseURL target) as [u |] eqn:Hu; simpl;
    destruct (Server.env_dns env) as [e |] eqn:Hdns; simpl;
    destruct (Server.env_connect env) as [| | e'] eqn:Hcon; simpl;
    repeat (case_match; simpl in *; simplify_eq);
    eexists _, _; (split; [reflexivity |]); simpl;
    (split; [discriminate |]);
    first
      [ split;
        [split; [intros _; repeat split; eauto | intros _; reflexivity]
        | split;
          [intros _; exists u; split; [reflexivity |]; split; [| reflexivity];
           repeat match goal with
             | H : ?l = _ |- context [?l] => rewrite H
             end; reflexivity
          | discriminate]]
      | split;
        [split; [discriminate | intros ([? ?] & ? & ?); simplify_eq]
        | split; [discriminate | intros _; split; [reflexivity | eauto]]] ].
Qed.

(** A host that does not resolve is never connected to; the answer is dead,
    with error [dns] when the resolver reports [ENOTFOUND] or [EAI_AGAIN]. *)
Theorem tcp_dns_failure_skips_connect (env : Server.NetEnv) (target : string)
    (timeoutMs : Z) (s : Server.Srv) (e : JsError) :
  Server.env_dns env = Some e ->
  exists (tcp : Server.TcpResult) (s' : Server.Srv),
    Server.checkTcpConnectivity parseURL env target timeoutMs s = (Return tcp, s')
    /\ Server.tcp_status tcp = dead
    /\ (forall p h t, Server.Connect p h t ∈ Server.srv_ops s' ->
                      Server.Connect p h t ∈ Server.srv_ops s)
    /\ (is_Some (parseURL target) ->
        err_code e = Some "ENOTFOUND" \/ err_code e = Some "EAI_AGAIN" ->
        Server.tcp_error tcp = Some "dns").
Proof.
  intros Hdns. run_srv. rewrite Hdns.
  destruct (parseURL target) as [u |] eqn:Hu; simpl;
    repeat (case_match; simpl in *; simplify_eq);
    repeat match goal with
      | H : bool_decide _ = true |- _ => apply bool_decide_eq_true in H
      | H : bool_decide _ = false |- _ => apply bool_decide_eq_false in H
      | H : _ || _ = false |- _ => apply orb_false_iff in H as [? ?]
      end;
    eexists _, _; (split; [reflexivity |]); simpl;
    (split; [reflexivity |]);
    (split; [intros p h t Hin;
             rewrite ?elem_of_app, ?elem_of_cons, ?elem_of_nil in Hin;
             intuition (subst; eauto; discriminate) |]);
    try reflexivity; try (intros _ _; reflexivity).
  all: try (intros [? ?]; discriminate).
  all: intros _ [Hc | Hc]; congruence.
Qed.

Lemma requestedTimeout_pos (q : Server.Query) : (0 < Server.requestedTimeout q)%Z.
Proof.
  unfold Server.requestedTimeout. destruct (Server.q_timeoutMs q) as [| | z]; try lia.
  destruct (0 <? z)%Z eqn:Hz; [apply Z.ltb_lt in Hz |]; lia.
Qed.

(** The handler of the route up to the mode: with a url that normalises
    and a mode that is a string (or missing), it goes on with that mode. *)
Local Ltac enter_route Hn Hmode :=
  unfold Server.linkHealthRoute; rewrite Hn;
  unfold Async.bind at 1; unfold Server.evaluate; rewrite Hmode.

Lemma bind_evaluate {A B : Type} (a : A) (k : A -> Server.Task B) (s : Server.Srv) :
  Async.bind (Server.evaluate (Return a)) k s = k a s.
Proof. reflexivity. Qed.

Lemma requestedMode_cases (q : Server.Query) :
  (Server.q_mode q = Some Server.Structured
   /\ exists e, Server.requestedMode q = Throw e /\ err_name e = "TypeError")
  \/ (Server.q_mode q <> Some Server.Structured
      /\ exists mode, Server.requestedMode q = Return mode).
Proof.
  unfold Server.requestedMode. destruct (Server.q_mode q) as [[m |] |].
  - right. split; [discriminate | eauto].
  - left. split; [reflexivity | eauto].
  - right. split; [discriminate | eauto].
Qed.

(** What the handler of the route does, for every query.  It replies 400
    exactly when the url does not normalise, whatever the other parameters.
    With a url that normalises it replies 200 when the mode is a string or
    missing; when the mode is an array or an object (a repeated or bracketed
    parameter) it throws a [TypeError] before it has done anything, so that
    the handler sends no reply of its own.  Every HTTP check it starts has a
    positive time-out, and every TCP probe and connect a time-out of at most
    3000 ms, whatever [timeoutMs] the caller sent. *)
Theorem route_replies_unless_mode_structured (env : Server.NetEnv) (q : Server.Query) :
  exists (outcome : Completion Server.Reply) (s' : Server.Srv),
    Server.linkHealthRoute parseURL env q Server.initialSrv = (outcome, s')
    /\ (Server.normalizeUrl parseURL (Server.q_url q) = None ->
        outcome = Return (Server.mkReply 400 (Server.ErrorBody "Invalid url"))
        /\ s' = Server.initialSrv)
    /\ (is_Some (Server.normalizeUrl parseURL (Server.q_url q)) ->
        (Server.q_mode q = Some Server.Structured ->
         (exists e, outcome = Throw e /\ err_name e = "TypeError")
         /\ s' = Server.initialSrv)
        /\ (Server.q_mode q <> Some Server.Structured ->
            exists body, outcome = Return (Server.mkReply 200 body)))
    /\ (forall o, o ∈ Server.srv_ops s' ->
          match o with
          | Server.EnterHttpCheck _ t => (0 < t)%Z
          | Server.EnterTcpProbe _ t | Server.Connect _ _ t => (0 < t <= 3000)%Z
          | _ => True
          end).
Proof.
  pose proof (requestedTimeout_pos q) as Hpos.
  destruct (Server.normalizeUrl parseURL (Server.q_url q)) as [n |] eqn:Hn.
  2:{ unfold Server.linkHealthRoute. rewrite Hn. eexists _, _. split; [reflexivity |].
      split; [auto |]. split; [intros [x Hx]; discriminate |].
      intros o Ho. apply elem_of_nil in Ho. contradiction. }
  destruct (requestedMode_cases q) as [[Hq (e & Hmode & He)] | [Hq (mode & Hmode)]].
  { enter_route Hn Hmode. eexists _, _. split; [reflexivity |].
    split; [discriminate |]. split.
    - intros _. split; [eauto | intros Hno; contradiction].
    - intros o Ho. apply elem_of_nil in Ho. contradiction. }
  enter_route Hn Hmode.
  set (t := Server.requestedTimeout q) in *.
  assert (Hcap : (0 < Z.min t 3000 <= 3000)%Z) by lia.
  assert (Hdone : forall (outcome : Completion Server.Reply) (s' : Server.Srv),
            (exists body, outcome = Return (Server.mkReply 200 body)) ->
            (forall o, o ∈ Server.srv_ops s' ->
               match o with
               | Server.EnterHttpCheck _ t => (0 < t)%Z
               | Server.EnterTcpProbe _ t | Server.Connect _ _ t => (0 < t <= 3000)%Z
               | _ => True
               end) ->
            (Some n = None ->
             outcome = Return (Server.mkReply 400 (Server.ErrorBody "Invalid url"))
             /\ s' = Server.initialSrv)
            /\ (is_Some (Some n) ->
                (Server.q_mode q = Some Server.Structured ->
                 (exists e, outcome = Throw e /\ err_name e = "TypeError")
                 /\ s' = Server.initialSrv)
                /\ (Server.q_mode q <> Some Server.Structured ->
                    exists body, outcome = Return (Server.mkReply 200 body)))
            /\ (forall o, o ∈ Server.srv_ops s' ->
                  match o with
                  | Server.EnterHttpCheck _ t => (0 < t)%Z
                  | Server.EnterTcpProbe _ t | Server.Connect _ _ t => (0 < t <= 3000)%Z
                  | _ => True
                  end)).
  { intros outcome s' Hbody Hops. split; [discriminate |]. split; [| exact Hops].
    intros _. split; [intros Hs; contradiction | intros _; exact Hbody]. }
  destruct (bool_decide (mode = "tcp") || bool_decide (mode = "ping")).
  { destruct (checkTcpConnectivity_ops env n (Z.min t 3000) Server.initialSrv)
      as (tcp & s' & Hrun & _ & Hops).
    unfold Async.bind, Async.ret. rewrite Hrun. eexists _, _. split; [reflexivity |].
    apply Hdone; [eauto |].
    intros o Ho. destruct (Hops o Ho) as [Hin | [-> | [[h ->] | (p & h & ->)]]]; auto.
    apply elem_of_nil in Hin. contradiction. }
  destruct (server_checkLinkHealth_ops env n t) as (h & s1 & Hrun & Hops).
  unfold Async.bind at 1. rewrite Hrun.
  assert (Hhttp : forall o, o ∈ Server.srv_ops s1 ->
            match o with
            | Server.EnterHttpCheck _ t => (0 < t)%Z
            | Server.EnterTcpProbe _ t | Server.Connect _ _ t => (0 < t <= 3000)%Z
            | _ => True
            end).
  { intros o Ho. destruct (Hops o Ho) as [-> | (m & sent & ->)]; auto. }
  destruct (bool_decide (mode = "http")).
  { eexists _, _. split; [reflexivity |]. apply Hdone; [eauto | exact Hhttp]. }
  destruct (bool_decide (Server.http_status h = unknown)).
  - destruct (checkTcpConnectivity_ops env n (Z.min t 3000) s1)
      as (tcp & s2 & Hrun2 & _ & Hops2).
    unfold Async.bind, Async.ret. rewrite Hrun2. eexists _, _. split; [reflexivity |].
    apply Hdone; [eauto |].
    intros o Ho. destruct (Hops2 o Ho) as [Hin | [-> | [[h' ->] | (p & h' & ->)]]]; auto.
    exact (Hhttp o Hin).
  - eexists _, _. split; [reflexivity |]. apply Hdone; [eauto | exact Hhttp].
Qed.

(** The replies of the route to a query with a valid url and a mode that is
    a string or missing, by shape. *)
Lemma route_reply_cases (env : Server.NetEnv) (q : Server.Query)
    (normalized mode : string) :
  Server.normalizeUrl parseURL (Server.q_url q) = Some normalized ->
  Server.requestedMode q = Return mode ->
  exists (body : Server.Body) (s' : Server.Srv),
    Server.linkHealthRoute parseURL env q Server.initialSrv
    = (Return (Server.mkReply 200 body), s')
    /\ ((exists tcp, body = Server.TcpBody normalized "tcp" tcp
                     /\ Server.tcp_status tcp <> unknown)
        \/ (exists h, body = Server.HttpBody normalized "http" h /\ mode = "http")
        \/ (exists tcp h, body = Server.FallbackBody normalized "auto" tcp h
                          /\ Server.tcp_status tcp <> unknown)
        \/ (exists h, body = Server.HttpBody normalized "auto" h
                      /\ Server.http_status h <> unknown)).
Proof.
  intros Hn Hstring. enter_route Hn Hstring.
  destruct (bool_decide (mode = "tcp") || bool_decide (mode = "ping")).
  { destruct (checkTcpConnectivity_ops env normalized
                (Z.min (Server.requestedTimeout q) 3000) Server.initialSrv)
      as (tcp & s' & Hrun & Hst & _).
    unfold Async.bind, Async.ret. rewrite Hrun. eexists _, _.
    split; [reflexivity |]. left. eauto. }
  destruct (server_checkLinkHealth_ops env normalized (Server.requestedTimeout q))
    as (h & s1 & Hrun & _).
  unfold Async.bind at 1. rewrite Hrun.
  case_bool_decide as Hmode.
  { eexists _, _. split; [reflexivity |]. right. left. eauto. }
  case_bool_decide as Hunk.
  - destruct (checkTcpConnectivity_ops env normalized
                (Z.min (Server.requestedTimeout q) 3000) s1)
      as (tcp & s2 & Hrun2 & Hst & _).
    unfold Async.bind, Async.ret. rewrite Hrun2. eexists _, _.
    split; [reflexivity |]. right. right. left. eauto.
  - eexists _, _. split; [reflexivity |]. right. right. right. eauto.
Qed.

(** For a mode that is a string or missing and is not [http], the route
    replies 200 to a valid url and the status it sends is ok or dead, never
    unknown: an unknown HTTP result is replaced by the result of the TCP
    probe, which is always definite. *)
Theorem route_status_definite_unless_http (env : Server.NetEnv) (q : Server.Query)
    (normalized mode : string) :
  Server.normalizeUrl parseURL (Server.q_url q) = Some normalized ->
  Server.requestedMode q = Return mode ->
  mode <> "http" ->
  exists (reply : Server.Reply) (s' : Server.Srv),
    Server.linkHealthRoute parseURL env q Server.initialSrv = (Return reply, s')
    /\ Server.reply_code reply = 200%Z
    /\ (Wire.bodyStatus (Server.reply_body reply) = Some ok
        \/ Wire.bodyStatus (Server.reply_body reply) = Some dead).
Proof.
  intros Hn Hstring Hmode.
  assert (Hdef : forall st : InternalLinkHealthStatus,
            st <> unknown -> Some st = Some ok \/ Some st = Some dead).
  { intros [] Hst; auto. contradiction. }
  destruct (route_reply_cases env q normalized mode Hn Hstring)
    as (body & s' & Hrun & Hbody).
  exists (Server.mkReply 200 body), s'. split; [exact Hrun |]. split; [reflexivity |].
  destruct Hbody as [(tcp & -> & Hst) | [(h & -> & Hhttp)
                    | [(tcp & h & -> & Hst) | (h & -> & Hst)]]]; simpl.
  - apply Hdef, Hst.
  - contradiction.
  - apply Hdef, Hst.
  - apply Hdef, Hst.
Qed.

(** In mode [tcp], and under its alias [ping], the route runs the probe
    only: no HTTP request is made, and the reply names the mode [tcp]. *)
Theorem route_tcp_mode_probe_only (env : Server.NetEnv) (q : Server.Query)
    (normalized : string) :
  Server.normalizeUrl parseURL (Server.q_url q) = Some normalized ->
  Server.requestedMode q = Return "tcp" \/ Server.requestedMode q = Return "ping" ->
  exists (tcp : Server.TcpResult) (s' : Server.Srv),
    Server.checkTcpConnectivity parseURL env normalized
      (Z.min (Server.requestedTimeout q) 3000) Server.initialSrv = (Return tcp, s')
    /\ Server.linkHealthRoute parseURL env q Server.initialSrv
       = (Return (Server.mkReply 200 (Server.TcpBody normalized "tcp" tcp)), s')
    /\ forall o, o ∈ Server.srv_ops s' -> Server.isHttpOp o = false.
Proof.
  intros Hn Hmode.
  destruct (checkTcpConnectivity_ops env normalized
              (Z.min (Server.requestedTimeout q) 3000) Server.initialSrv)
    as (tcp & s' & Hrun & _ & Hops).
  exists tcp, s'. split; [exact Hrun |]. split.
  - destruct Hmode as [Hmode | Hmode]; enter_route Hn Hmode;
      rewrite ?bool_decide_eq_false_2 by discriminate;
      rewrite ?bool_decide_eq_true_2 by reflexivity;
      cbn [orb]; unfold Async.bind, Async.ret; rewrite Hrun; reflexivity.
  - intros o Ho. destruct (Hops o Ho) as [Hin | [-> | [[h ->] | (p & h & ->)]]];
      try reflexivity.
    apply elem_of_nil in Hin. contradiction.
Qed.

(** In mode [http] the route sends the result of the HTTP check as it is,
    unknown included, and never opens a connection of its own: no lookup and
    no probe. *)
Theorem route_http_mode_check_only (env : Server.NetEnv) (q : Server.Query)
    (normalized : string) :
  Server.normalizeUrl parseURL (Server.q_url q) = Some normalized ->
  Server.requestedMode q = Return "http" ->
  exists (h : Server.HttpResult) (s' : Server.Srv),
    Server.checkLinkHealth env normalized (Server.requestedTimeout q) Server.initialSrv
    = (Return h, s')
    /\ Server.linkHealthRoute parseURL env q Server.initialSrv
       = (Return (Server.mkReply 200 (Server.HttpBody normalized "http" h)), s')
    /\ forall o, o ∈ Server.srv_ops s' -> Server.isTcpOp o = false.
Proof.
  intros Hn Hmode. enter_route Hn Hmode. simpl.
  destruct (server_checkLinkHealth_ops env normalized (Server.requestedTimeout q))
    as (h & s' & Hrun & Hops).
  exists h, s'. unfold Async.bind, Async.ret. rewrite Hrun.
  split; [reflexivity | split; [reflexivity |]].
  intros o Ho. destruct (Hops o Ho) as [-> | (m & sent & ->)]; reflexivity.
Qed.

Lemma toLowerAscii_idemp (a : ascii) : toLowerAscii (toLowerAscii a) = toLowerAscii a.
Proof. destruct a as [[] [] [] [] [] [] [] []]; reflexivity. Qed.

Lemma toLowerCase_idemp (m : string) : toLowerCase (toLowerCase m) = toLowerCase m.
Proof. induction m as [| a m IH]; simpl; [| rewrite toLowerAscii_idemp, IH]; reflexivity. Qed.

Lemma toLowerCase_empty (m : string) : toLowerCase m = EmptyString <-> m = EmptyString.
Proof. destruct m; simpl; split; congruence. Qed.

Lemma requestedMode_fold (u : option string) (m : string) (t : Server.JsNumber) :
  Server.requestedMode (Server.mkQuery u (Some (Server.Text (toLowerCase m))) t)
  = Server.requestedMode (Server.mkQuery u (Some (Server.Text m)) t).
Proof.
  unfold Server.requestedMode. simpl. f_equal.
  destruct (decide (m = EmptyString)) as [-> | Hm]; [reflexivity |].
  rewrite (bool_decide_eq_false_2 (m = EmptyString)) by assumption.
  rewrite bool_decide_eq_false_2 by (rewrite toLowerCase_empty; assumption).
  apply toLowerCase_idemp.
Qed.

(** The route reads the mode without regard to letter case: a query whose
    mode is written in other case gets the same reply and causes the same
    operations as the query with the mode in lower case. *)
Theorem route_mode_case_insensitive (env : Server.NetEnv) (u : option string)
    (m : string) (t : Server.JsNumber) (s : Server.Srv) :
  Server.linkHealthRoute parseURL env (Server.mkQuery u (Some (Server.Text m)) t) s
  = Server.linkHealthRoute parseURL env
      (Server.mkQuery u (Some (Server.Text (toLowerCase m))) t) s.
Proof.
  unfold Server.linkHealthRoute. rewrite requestedMode_fold. reflexivity.
Qed.

(** A mode that is a string the route does not know (anything but tcp, ping
    and http, in any case) is served as auto: the reply and the operations
    are those of the same query without a mode. *)
Theorem route_other_mode_is_auto (env : Server.NetEnv) (q : Server.Query)
    (mode : string) (s : Server.Srv) :
  Server.requestedMode q = Return mode ->
  mode <> "tcp" ->
  mode <> "ping" ->
  mode <> "http" ->
  Server.linkHealthRoute parseURL env q s
  = Server.linkHealthRoute parseURL env
      (Server.mkQuery (Server.q_url q) None (Server.q_timeoutMs q)) s.
Proof.
  intros Hstring Htcp Hping Hhttp. unfold Server.linkHealthRoute.
  change (Server.requestedMode (Server.mkQuery (Server.q_url q) None (Server.q_timeoutMs q)))
    with (@Return string "auto").
  change (Server.requestedTimeout (Server.mkQuery (Server.q_url q) None (Server.q_timeoutMs q)))
    with (Server.requestedTimeout q).
  change (Server.q_url (Server.mkQuery (Server.q_url q) None (Server.q_timeoutMs q)))
    with (Server.q_url q).
  destruct (Server.normalizeUrl parseURL (Server.q_url q)) as [n |]; [| reflexivity].
  rewrite Hstring, !bind_evaluate.
  rewrite !bool_decide_eq_false_2 by assumption.
  rewrite !bool_decide_eq_false_2 by discriminate.
  simpl. unfold Async.bind.
  destruct (Server.checkLinkHealth env n (Server.requestedTimeout q) s) as [[h | e] s1];
    [| reflexivity].
  destruct (bool_decide (Server.http_status h = unknown)); reflexivity.
Qed.

(** The client and the server together.  When the own server answers the
    client's API request with what the route replies to it, and that reply
    has code 200, the check returns the status of the reply, which is ok or
    dead, after that one request: the client does not contact the target
    itself. *)
Theorem server_verdict_reaches_client (senv : Server.NetEnv) (cenv : Client.NetEnv)
    (url : string) (options : Client.CheckOptions) (normalized target : string)
    (reply : Server.Reply) (ss : Server.Srv) :
  let timeoutMs := Z.min (default 8000%Z (Client.opt_timeoutMs options)) 4500 in
  Client.normalizeUrl parseURL url = Some normalized ->
  Client.normalizeUrl parseURL normalized = Some target ->
  Server.linkHealthRoute parseURL senv (Wire.queryOf target "auto" timeoutMs)
    Server.initialSrv = (Return reply, ss) ->
  Client.env_api cenv = Client.ApiResponded (Wire.asSeenByClient reply) ->
  Server.reply_code reply = 200%Z ->
  exists st : InternalLinkHealthStatus,
    Wire.bodyStatus (Server.reply_body reply) = Some st
    /\ st <> unknown
    /\ Client.checkLinkHealth parseURL cenv url options (Client.initialNet false)
       = (Return st,
          Client.mkNet false false
            [Client.mkCall (Client.ApiRequest target "auto" timeoutMs) true]).
Proof.
  intros timeoutMs Hn Hn' Hroute Hapi Hcode.
  destruct (Server.normalizeUrl parseURL (Some target)) as [n |] eqn:Hsn.
  2:{ unfold Server.linkHealthRoute in Hroute.
      change (Server.q_url (Wire.queryOf target "auto" timeoutMs)) with (Some target)
        in Hroute.
      rewrite Hsn in Hroute. injection Hroute as <- _. discriminate. }
  destruct (route_reply_cases senv (Wire.queryOf target "auto" timeoutMs) n "auto" Hsn
              eq_refl) as (body & s' & Hrun & Hbody).
  rewrite Hrun in Hroute. injection Hroute as <- <-.
  assert (Hseen : exists st, Wire.bodyStatus body = Some st /\ st <> unknown).
  { destruct Hbody as [(tcp & -> & Hst) | [(h & -> & Hhttp)
                      | [(tcp & h & -> & Hst) | (h & -> & Hst)]]]; simpl;
      first [discriminate Hhttp | eauto]. }
  destruct Hseen as (st & Hst & Hdef). exists st. split; [exact Hst |].
  split; [exact Hdef |].
  unfold Wire.asSeenByClient in Hapi. simpl in Hapi, Hst. rewrite Hst in Hapi.
  unfold Client.checkLinkHealth, Client.checkLinkHealthViaApi, Client.mergeSignals,
    Client.fetchApi, Async.bind, Async.try_catch, Async.ret, Async.modify,
    Client.initialNet.
  rewrite Hn. simpl. rewrite Hn', Hapi. simpl.
  destruct st; simpl; try reflexivity. contradiction.
Qed.

End ServerPolicy.

Lemma tcp_dns_failure_skips_connect_witness :
  exists (tcp : Server.TcpResult) (s' : Server.Srv),
    Server.checkTcpConnectivity Demo.parseURL Demo.unresolved "https://a.example/" 2500
      Server.initialSrv = (Return tcp, s')
    /\ Server.tcp_status tcp = dead
    /\ Server.tcp_error tcp = Some "dns".
Proof.
  destruct (tcp_dns_failure_skips_connect Demo.parseURL Demo.unresolved
              "https://a.example/" 2500 Server.initialSrv _ eq_refl)
    as (tcp & s' & Hrun & Hst & _ & Herr).
  exists tcp, s'. split; [exact Hrun |]. split; [exact Hst |].
  apply Herr; [vm_compute; eauto | left; reflexivity].
Defined.

Lemma route_status_definite_unless_http_witness :
  exists (reply : Server.Reply) (s' : Server.Srv),
    Server.linkHealthRoute Demo.parseURL Demo.informational Demo.autoQuery
      Server.initialSrv = (Return reply, s')
    /\ Server.reply_code reply = 200%Z
    /\ (Wire.bodyStatus (Server.reply_body reply) = Some ok
        \/ Wire.bodyStatus (Server.reply_body reply) = Some dead).
Proof.
  apply (route_status_definite_unless_http Demo.parseURL Demo.informational
           Demo.autoQuery "https://a.example/" "auto").
  - vm_compute. reflexivity.
  - reflexivity.
  - discriminate.
Defined.

Lemma route_tcp_mode_probe_only_witness :
  exists (tcp : Server.TcpResult) (s' : Server.Srv),
    Server.checkTcpConnectivity Demo.parseURL Demo.informational "https://a.example/"
      (Z.min (Server.requestedTimeout (Demo.modeQuery "PING")) 3000) Server.initialSrv
    = (Return tcp, s')
    /\ Server.linkHealthRoute Demo.parseURL Demo.informational (Demo.modeQuery "PING")
         Server.initialSrv
       = (Return (Server.mkReply 200 (Server.TcpBody "https://a.example/" "tcp" tcp)), s')
    /\ forall o, o ∈ Server.srv_ops s' -> Server.isHttpOp o = false.
Proof.
  apply (route_tcp_mode_probe_only Demo.parseURL Demo.informational
           (Demo.modeQuery "PING") "https://a.example/").
  - vm_compute. reflexivity.
  - right. vm_compute. reflexivity.
Defined.

Lemma route_http_mode_check_only_witness :
  exists (h : Server.HttpResult) (s' : Server.Srv),
    Server.checkLinkHealth Demo.informational "https://a.example/"
      (Server.requestedTimeout (Demo.modeQuery "http")) Server.initialSrv
    = (Return h, s')
    /\ Server.linkHealthRoute Demo.parseURL Demo.informational (Demo.modeQuery "http")
         Server.initialSrv
       = (Return (Server.mkReply 200 (Server.HttpBody "https://a.example/" "http" h)), s')
    /\ forall o, o ∈ Server.srv_ops s' -> Server.isTcpOp o = false.
Proof.
  apply (route_http_mode_check_only Demo.parseURL Demo.informational
           (Demo.modeQuery "http") "https://a.example/").
  - vm_compute. reflexivity.
  - vm_compute. reflexivity.
Defined.

Lemma route_other_mode_is_auto_witness :
  Server.linkHealthRoute Demo.parseURL Demo.informational (Demo.modeQuery "deep")
    Server.initialSrv
  = Server.linkHealthRoute Demo.parseURL Demo.informational
      (Server.mkQuery (Some "a.example") None (Server.Num 8000)) Server.initialSrv.
Proof.
  apply (route_other_mode_is_auto Demo.parseURL Demo.informational
           (Demo.modeQuery "deep") "deep" Server.initialSrv);
    [reflexivity | discriminate ..].
Defined.

Lemma server_verdict_reaches_client_witness :
  exists st : InternalLinkHealthStatus,
    st = ok
    /\ Client.checkLinkHealth Demo.parseURL (Demo.apiSays "ok") "a.example" (Client.mkCheckOptions None) (Client.initialNet false)
       = (Return st,
          Client.mkNet false false
            [Client.mkCall (Client.ApiRequest "https://a.example/" "auto" 4500) true]).
Proof.
  destruct (server_verdict_reaches_client Demo.parseURL Demo.informational
              (Demo.apiSays "ok")
              "a.example" (Client.mkCheckOptions None)
              "https://a.example/" "https://a.example/"
              (Server.mkReply 200
                 (Server.FallbackBody "https://a.example/" "auto"
                    (Server.mkTcpResult ok (Some 443%Z) None)
                    (Server.mkHttpResult unknown (Some 100%Z)
                       (Some "https://a.example/") None)))
              (snd (Server.linkHealthRoute Demo.parseURL Demo.informational
                      (Wire.queryOf "https://a.example/" "auto" 4500) Server.initialSrv)))
    as (st & Hbody & _ & Hrun); try (vm_compute; reflexivity).
  exists st. split; [| exact Hrun].
  vm_compute in Hbody. congruence.
Defined.

(** * More on the batch scheduler *)

Section StoreMore.


Lemma remember_lookup_notin (cs : list Settle) (m : Cache) (k : string) :
  k ∉ (fun c => b_url (s_item c)) <$> cs -> fold_left remember cs m !! k = m !! k.
Proof.
  revert m. induction cs as [| c cs IH]; intros m Hk; [reflexivity |].
  rewrite fmap_cons, not_elem_of_cons in Hk. destruct Hk as [Hne Hk].
  cbn [fold_left]. rewrite IH by exact Hk. unfold remember.
  rewrite cache_lookup_insert_ne by congruence. reflexivity.
Qed.

(** The entry under the url of a settled check is that of the last check of
    that url. *)
Lemma remember_last (cs : list Settle) (m : Cache) (c : Settle) :
  c ∈ cs ->
  exists c', c' ∈ cs /\ b_url (s_item c') = b_url (s_item c)
             /\ fold_left remember cs m !! b_url (s_item c)
                = Some (mkEntry (s_status c') (s_now c')).
Proof.
  revert m. induction cs as [| c0 cs IH] using rev_ind; intros m Hc.
  - apply elem_of_nil in Hc. contradiction.
  - rewrite fold_left_app. cbn [fold_left]. unfold remember at 1.
    destruct (decide (b_url (s_item c0) = b_url (s_item c))) as [Heq | Hne].
    + exists c0. rewrite <- Heq, cache_lookup_insert_eq.
      split; [apply elem_of_app; right; left | auto].
    + rewrite cache_lookup_insert_ne by exact Hne.
      apply elem_of_app in Hc as [Hc | Hc].
      * destruct (IH m Hc) as (c' & Hc' & Hurl & Hlook).
        exists c'. split; [apply elem_of_app; left; exact Hc' | auto].
      * apply list_elem_of_singleton in Hc. congruence.
Qed.

Lemma inflight_returned (ws : list (option Bookmark)) :
  inflight ws = [] -> forallb (fun slot => bool_decide (slot = None)) ws = true.
Proof.
  induction ws as [| [item |] ws IH]; [reflexivity | discriminate |].
  intros Hws. simpl. apply IH, Hws.
Qed.

End StoreMore.

Section BatchPolicy.

Variable parseURL : string -> option URL.
Variable bookmarks : list Bookmark.
Variable options : BatchCheckOptions.
Variable ls : LocalStorage.
Variable now0 : Z.

Local Abbreviation total := (length bookmarks).
Local Abbreviation cache0 := (readCache ls).
Local Abbreviation results0 := (fst (prepass parseURL cache0 now0 options bookmarks)).
Local Abbreviation queue := (queueOf parseURL bookmarks options ls now0).
Local Abbreviation run := (during parseURL bookmarks options ls now0).
Local Abbreviation resolved := (omap (resolveLocally parseURL cache0 now0 options) bookmarks).
Local Abbreviation locally := (resolveLocally parseURL cache0 now0 options).
Local Abbreviation invariant := (inv_during parseURL bookmarks options ls now0).
Local Abbreviation next := (step parseURL queue total options).

Lemma step_definite (st : Batch) (ev : Event) :
  Forall (fun c => s_status c = ok \/ s_status c = dead) (settled (effects st)) ->
  Forall (fun c => s_status c = ok \/ s_status c = dead) (settled (effects (next st ev))).
Proof.
  intros Hst. destruct ev as [| w env now]; simpl; [exact Hst |].
  destruct (workers st !! w) as [[item |] |]; try exact Hst.
  destruct (checkLinkHealth_returns parseURL env (b_url item)
              (mkCheckOptions (Some (default 5000%Z (timeoutMs options))))
              (initialNet false)) as (status & net & Hrun & Hdef).
  rewrite Hrun. unfold claimNext. simpl.
  destruct (aborted st || ext_aborted net); simpl; rewrite settled_snoc;
    (apply Forall_app; split; [exact Hst | constructor; [exact Hdef | constructor]]).
Qed.

Lemma started_effects :
  effects (started parseURL bookmarks options ls now0) = [OnProgress (size results0) total].
Proof.
  rewrite started_eq. apply (launch_effects parseURL bookmarks options ls now0).
Qed.

(** No check of a run ever returns unknown. *)
Lemma settled_definite (schedule : list Event) :
  Forall (fun c => s_status c = ok \/ s_status c = dead) (settled (effects (run schedule))).
Proof.
  unfold during.
  assert (Hstart : Forall (fun c => s_status c = ok \/ s_status c = dead)
                     (settled (effects (started parseURL bookmarks options ls now0)))).
  { rewrite started_effects. constructor. }
  revert Hstart. generalize (started parseURL bookmarks options ls now0).
  induction schedule as [| ev schedule IH]; intros st Hst; [exact Hst |].
  simpl. apply IH, step_definite, Hst.
Qed.

(** At every point of a run the items checked so far and the items in
    flight are, up to order, the first [cursor] items of the queue: an item
    is handed to one worker only, none is skipped, and a run makes at most
    as many checks as the queue is long.  A run that completes without the
    signal having fired has checked every queue item exactly once. *)
Theorem each_item_claimed_once (schedule : list Event) :
  (s_item <$> settled (effects (run schedule))) ++ inflight (workers (run schedule))
  ≡ₚ take (cursor (run schedule)) queue
  /\ (s_item <$> settled (effects (run schedule))) ⊆+ queue
  /\ length (settled (effects (run schedule)))
     + length (inflight (workers (run schedule))) <= length queue
  /\ (forall out,
        batchCheckLinks parseURL bookmarks options ls now0 schedule = Some out ->
        aborted (run schedule) = false ->
        s_item <$> settled (observed out) ≡ₚ queue).
Proof.
  pose proof (inv_claimed _ _ _ _ _ _ (invariant schedule)) as Hperm.
  split; [exact Hperm | split; [| split]].
  - transitivity (take (cursor (run schedule)) queue).
    + rewrite <- Hperm. apply submseteq_inserts_r. reflexivity.
    + apply sublist_submseteq, sublist_take.
  - apply Permutation_length in Hperm.
    rewrite length_app, length_fmap, length_take in Hperm. lia.
  - intros out Hout Hab.
    destruct (completed_run parseURL bookmarks options ls now0 schedule out Hout)
      as (Hall & _ & _ & ->).
    apply (settled_all parseURL bookmarks options ls now0 schedule Hall Hab).
Qed.


Lemma pending_le_queue (schedule : list Event) :
  pending queue (run schedule) <= length queue.
Proof.
  pose proof (inv_claimed _ _ _ _ _ _ (invariant schedule)) as Hperm.
  apply Permutation_length in Hperm.
  rewrite length_app, length_fmap, length_take in Hperm. unfold pending. lia.
Qed.

Lemma can_finish_within (env : NetEnv) (now : Z) (n : nat) (st : Batch) :
  pending queue st <= n ->
  exists rest : list Event,
    Forall (isSettlement env now) rest
    /\ length rest <= n
    /\ allReturned (fold_left next rest st) = true.
Proof.
  revert st. induction n as [| n IH]; intros st Hle;
    destruct (allReturned st) eqn:Hall;
    try (exists []; split; [constructor | split; [simpl; lia | exact Hall]]);
    destruct (not_returned_inflight st Hall) as (w & item & Hw);
    pose proof (settle_pending parseURL bookmarks options ls now0 st w item env now Hw)
      as Hless; [lia |].
  destruct (IH (next st (Settled w env now))) as (rest & Hrest & Hlen & Hdone); [lia |].
  exists (Settled w env now :: rest). split; [| split; [simpl; lia | exact Hdone]].
  constructor; [exists w; reflexivity | exact Hrest].
Qed.

(** Every run comes to an end and never rejects.  From any point of any
    run, settling checks in flight, however the network answers, makes the
    call return after at most as many settlements as there are items not yet
    claimed or in flight, which is at most the length of the queue.  What
    it returns has one result per target, in the order of the targets. *)
Theorem run_completes_within_pending (schedule : list Event) (env : NetEnv) (now : Z) :
  exists (rest : list Event) (out : Settlement) (results : list LinkCheckResult),
    Forall (isSettlement env now) rest
    /\ length rest <= pending queue (run schedule)
    /\ pending queue (run schedule) <= length queue
    /\ batchCheckLinks parseURL bookmarks options ls now0 (schedule ++ rest) = Some out
    /\ returned out = Return results
    /\ r_id <$> results = b_id <$> bookmarks.
Proof.
  destruct (can_finish_within env now (pending queue (run schedule)) (run schedule) (le_n _))
    as (rest & Hrest & Hlen & Hdone).
  assert (Hout : exists out,
            batchCheckLinks parseURL bookmarks options ls now0 (schedule ++ rest) = Some out).
  { unfold batchCheckLinks.
    rewrite (inv_failure _ _ _ _ _ _ (invariant (schedule ++ rest))).
    unfold during in Hdone |- *. rewrite fold_left_app, Hdone. eauto. }
  destruct Hout as [out Hout].
  destruct (completed_run parseURL bookmarks options ls now0 (schedule ++ rest) out Hout)
    as (_ & Hret & _ & _).
  exists rest, out. eexists.
  split; [exact Hrest | split; [exact Hlen | split; [apply pending_le_queue |]]].
  split; [exact Hout | split; [exact Hret |]].
  rewrite <- list_fmap_compose. apply list_fmap_ext. intros i b Hb. simpl.
  destruct (resultsById (run (schedule ++ rest)) !! b_id b) as [r |] eqn:Hr; simpl;
    [| reflexivity].
  apply (keys_of_results parseURL bookmarks options ls now0 (schedule ++ rest)), Hr.
Qed.

Lemma launch_aborted (n : nat) (st : Batch) :
  aborted (launch queue n st) = aborted st.
Proof.
  revert st. induction n as [| n IH]; intros st; [reflexivity |].
  simpl. destruct (claimNext queue st) as [slot st'] eqn:Hclaim. rewrite IH.
  unfold claimNext in Hclaim. destruct (aborted st) eqn:Hab; simplify_eq; simpl; congruence.
Qed.

Lemma launch_fired (n : nat) (st : Batch) :
  aborted st = true -> inflight (workers (launch queue n st)) = inflight (workers st).
Proof.
  revert st. induction n as [| n IH]; intros st Hab; [reflexivity |].
  simpl. unfold claimNext. rewrite Hab. rewrite IH by exact Hab. simpl.
  rewrite inflight_app. apply app_nil_r.
Qed.

Lemma started_aborted :
  aborted (started parseURL bookmarks options ls now0) = signal options.
Proof. rewrite started_eq, launch_aborted. reflexivity. Qed.

Lemma started_inflight :
  length (inflight (workers (started parseURL bookmarks options ls now0)))
  = if signal options then 0 else Nat.min (workerCount options total) (length queue).
Proof.
  destruct (signal options) eqn:Hsig.
  - rewrite started_eq, launch_fired by exact Hsig. reflexivity.
  - pose proof (inv_claimed _ _ _ _ _ _ (inv_started parseURL bookmarks options ls now0))
      as Hperm.
    rewrite started_eq in Hperm |- *.
    rewrite (launch_effects parseURL bookmarks options ls now0),
      (launch_cursor parseURL bookmarks options ls now0) in Hperm by exact Hsig.
    simpl in Hperm. rewrite (Permutation_length Hperm), length_take. reflexivity.
Qed.

(** The call returns without waiting for any check exactly when there is
    nothing to check (every target is invalid or fresh in the cache) or the
    signal has fired before the call.  It has then made no check and one
    progress call; with a fired signal the stored cache is left alone,
    otherwise the cache as read is written back. *)
Theorem returns_at_once_iff :
  (is_Some (batchCheckLinks parseURL bookmarks options ls now0 [])
   <-> queue = [] \/ signal options = true)
  /\ forall out,
       batchCheckLinks parseURL bookmarks options ls now0 [] = Some out ->
       observed out = [OnProgress (size results0) total]
       /\ finalStorage out = (if signal options then ls else writeCache cache0 ls).
Proof.
  pose proof started_inflight as Hfly.
  pose proof (workerCount_pos bookmarks options) as Hpos.
  pose proof (invariant []) as Hinv. unfold during in Hinv. simpl in Hinv.
  split.
  - unfold batchCheckLinks, during. simpl.
    rewrite (inv_failure _ _ _ _ _ _ Hinv).
    destruct (allReturned (started parseURL bookmarks options ls now0)) eqn:Hall.
    + split; [intros _ | eauto].
      rewrite (allReturned_inflight _ Hall) in Hfly. simpl in Hfly.
      destruct (signal options); [auto |]. left.
      destruct queue; [reflexivity | simpl in Hfly; lia].
    + split; [intros [x Hx]; discriminate |].
      intros Hnow. exfalso.
      assert (Hnone : inflight (workers (started parseURL bookmarks options ls now0)) = []).
      { apply length_zero_iff_nil. rewrite Hfly.
        destruct Hnow as [-> | ->]; [destruct (signal options) |]; simpl; lia. }
      apply inflight_returned in Hnone. unfold allReturned in Hall. congruence.
  - intros out Hout.
    destruct (completed_run parseURL bookmarks options ls now0 [] out Hout)
      as (_ & _ & Hsto & Hobs).
    unfold during in Hsto, Hobs. simpl in Hsto, Hobs.
    rewrite Hobs, Hsto, started_aborted, started_effects.
    split; [reflexivity |].
    rewrite (inv_cache _ _ _ _ _ _ Hinv), started_effects. reflexivity.
Qed.

(** What a run that completes without the signal having fired leaves in
    storage.  If the store cannot be written, it is left as it was and the
    call returns all the same.  If the stored item was an array, the array
    is stored back with its elements, and none of the entries of this run
    are kept.  Otherwise the stored cache keeps every entry of the cache as
    read whose url was not checked, and holds for the url of every queue
    item the status and time of a check of that url made in this run, a
    status that is never unknown. *)
Theorem stored_cache_after_run (schedule : list Event) (out : Settlement) :
  batchCheckLinks parseURL bookmarks options ls now0 schedule = Some out ->
  aborted (run schedule) = false ->
  (ls_writable ls = false -> finalStorage out = ls)
  /\ (ls_writable ls = true ->
      match ls_item ls with
      | Some (ArrayBlob elements) =>
          finalStorage out = mkStorage (Some (ArrayBlob elements)) true
      | _ =>
          exists c : gmap string CacheEntry,
            finalStorage out = mkStorage (Some (CacheBlob c)) true
            /\ (forall k, k ∉ b_url <$> queue -> c !! k = cache0 !! k)
            /\ (forall item, item ∈ queue ->
                  exists chk,
                    chk ∈ settled (observed out)
                    /\ b_url (s_item chk) = b_url item
                    /\ c !! b_url item = Some (mkEntry (s_status chk) (s_now chk))
                    /\ s_status chk <> unknown)
      end).
Proof.
  intros Hout Hab.
  destruct (completed_run parseURL bookmarks options ls now0 schedule out Hout)
    as (Hall & _ & Hsto & Hobs).
  rewrite Hab in Hsto. unfold writeCache, stringify in Hsto.
  split; [intros Hwr; rewrite Hsto, Hwr; reflexivity |].
  intros Hwr. rewrite Hwr in Hsto.
  rewrite (inv_cache _ _ _ _ _ _ (invariant schedule)), remember_elements,
    readCache_elements in Hsto.
  pose proof (settled_all parseURL bookmarks options ls now0 schedule Hall Hab) as Hperm.
  assert (Hkept : forall k, k ∉ b_url <$> queue ->
            c_entries (fold_left remember (settled (effects (run schedule))) cache0) !! k
            = cache0 !! k).
  { intros k Hk. apply remember_lookup_notin.
    rewrite <- Hperm, <- list_fmap_compose in Hk. exact Hk. }
  assert (Hnew : forall item, item ∈ queue ->
            exists chk,
              chk ∈ settled (observed out)
              /\ b_url (s_item chk) = b_url item
              /\ c_entries (fold_left remember (settled (effects (run schedule))) cache0)
                   !! b_url item = Some (mkEntry (s_status chk) (s_now chk))
              /\ s_status chk <> unknown).
  { intros item Hitem. rewrite <- Hperm in Hitem.
    apply list_elem_of_fmap in Hitem as (chk & -> & Hchk).
    destruct (remember_last (settled (effects (run schedule))) cache0 chk Hchk)
      as (chk' & Hchk' & Hurl & Hlook).
    exists chk'. rewrite Hobs.
    split; [exact Hchk' | split; [exact Hurl | split; [exact Hlook |]]].
    pose proof (settled_definite schedule) as Hdef. rewrite Forall_forall in Hdef.
    destruct (Hdef chk' Hchk') as [-> | ->]; discriminate. }
  destruct (ls_item ls) as [[raw | c | elements] |]; eauto.
Qed.


(** With [forceRefresh] the stored cache plays no part in the first loop:
    the results it resolves and the queue it builds are those of a run on an
    empty cache, so every target with a valid url is checked. *)
Theorem force_refresh_ignores_cache :
  forceRefresh options = Some true ->
  prepass parseURL cache0 now0 options bookmarks = prepass parseURL ∅ now0 options bookmarks
  /\ queue = omap (fun b => mkBookmark (b_id b) <$> normalizeUrl parseURL (b_url b)) bookmarks.
Proof.
  intros Hforce.
  assert (Hq : forall c b, enqueue parseURL c now0 options b
                           = mkBookmark (b_id b) <$> normalizeUrl parseURL (b_url b)).
  { intros c b. unfold enqueue, isFresh. rewrite Hforce. simpl.
    destruct (normalizeUrl parseURL (b_url b)) as [n |]; [| reflexivity].
    destruct (c !! n); reflexivity. }
  assert (Hr : forall c b, resolveLocally parseURL c now0 options b
                           = resolveLocally parseURL ∅ now0 options b).
  { intros c b. unfold resolveLocally, isFresh. rewrite Hforce. simpl.
    destruct (normalizeUrl parseURL (b_url b)) as [n |]; [| reflexivity].
    rewrite cache_lookup_empty. destruct (c !! n); reflexivity. }
  assert (Hsame : forall (B : Type) (f g : Bookmark -> option B),
            (forall b, f b = g b) -> omap f bookmarks = omap g bookmarks).
  { intros B f g Hfg. apply list_omap_ext, Forall2_same_length_lookup.
    split; [reflexivity |]. intros i x y Hx Hy. simplify_eq. apply Hfg. }
  split.
  - rewrite !prepass_spec. f_equal.
    + f_equal. apply Hsame, Hr.
    + apply Hsame. intros b. rewrite !Hq. reflexivity.
  - rewrite (queue_eq parseURL bookmarks options ls now0). apply Hsame, Hq.
Qed.

Lemma fired_step (st : Batch) (ev : Event) :
  aborted st = true ->
  cursor (next st ev) = cursor st
  /\ inflight (workers (next st ev)) ⊆+ inflight (workers st).
Proof.
  intros Hab. destruct ev as [| w env now]; simpl; [auto |].
  destruct (workers st !! w) as [[item |] |] eqn:Hw; auto.
  destruct (checkLinkHealth_returns parseURL env (b_url item)
              (mkCheckOptions (Some (default 5000%Z (timeoutMs options))))
              (initialNet false)) as (status & net & Hrun & _).
  rewrite Hrun. unfold claimNext. simpl. rewrite Hab. simpl.
  split; [reflexivity |].
  destruct (inflight_insert (workers st) w (Some item) Hw) as (rest & Hold & Hnew).
  rewrite (Hnew None), Hold. simpl. apply submseteq_cons. reflexivity.
Qed.

(** Once the signal has fired no worker takes another item: the cursor
    stands still, the checks in flight can only become fewer, and the only
    checks that settle from then on are those that were in flight. *)
Theorem no_new_check_after_abort (schedule rest : list Event) :
  aborted (run schedule) = true ->
  cursor (run (schedule ++ rest)) = cursor (run schedule)
  /\ inflight (workers (run (schedule ++ rest))) ⊆+ inflight (workers (run schedule))
  /\ (s_item <$> settled (effects (run (schedule ++ rest))))
     ⊆+ (s_item <$> settled (effects (run schedule))) ++ inflight (workers (run schedule)).
Proof.
  intros Hab.
  assert (Hfrozen : cursor (run (schedule ++ rest)) = cursor (run schedule)
                    /\ inflight (workers (run (schedule ++ rest)))
                       ⊆+ inflight (workers (run schedule))).
  { unfold during. rewrite fold_left_app. fold (run schedule).
    revert Hab. generalize (run schedule).
    induction rest as [| ev rest IH]; intros st Hst; [auto |].
    simpl. destruct (fired_step st ev Hst) as [Hcur Hfly].
    destruct (IH (next st ev)) as [Hcur' Hfly'].
    - apply (aborted_step parseURL bookmarks options ls now0), Hst.
    - split; [congruence | etransitivity; eassumption]. }
  destruct Hfrozen as [Hcur Hfly]. split; [exact Hcur | split; [exact Hfly |]].
  rewrite (inv_claimed _ _ _ _ _ _ (invariant schedule)), <- Hcur,
    <- (inv_claimed _ _ _ _ _ _ (invariant (schedule ++ rest))).
  apply submseteq_inserts_r. reflexivity.
Qed.

End BatchPolicy.


Lemma stored_cache_after_run_witness :
  exists (out : Settlement) (c : gmap string CacheEntry),
    batchCheckLinks Demo.parseURL Demo.bookmarksABC Demo.noOptions Demo.emptyStorage 1000
      Demo.settleBA = Some out
    /\ finalStorage out = mkStorage (Some (CacheBlob c)) true
    /\ exists chk, chk ∈ settled (observed out)
                   /\ c !! "https://b.example/" = Some (mkEntry (s_status chk) (s_now chk)).
Proof.
  destruct (batchCheckLinks Demo.parseURL Demo.bookmarksABC Demo.noOptions
              Demo.emptyStorage 1000 Demo.settleBA) as [out |] eqn:Hrun;
    [| vm_compute in Hrun; discriminate].
  destruct (stored_cache_after_run Demo.parseURL Demo.bookmarksABC Demo.noOptions
              Demo.emptyStorage 1000 Demo.settleBA out Hrun) as [_ Hwritten].
  - vm_compute. reflexivity.
  - destruct (Hwritten eq_refl) as (c & Hsto & _ & Hnew).
    destruct (Hnew (mkBookmark "b" "https://b.example/")) as (chk & Hchk & _ & Hlook & _).
    + vm_compute. right. left.
    + exists out, c. split; [reflexivity | split; [exact Hsto |]].
      exists chk. split; [exact Hchk | exact Hlook].
Defined.

Lemma force_refresh_ignores_cache_witness :
  queueOf Demo.parseURL Demo.five Demo.refresh Demo.warmStorage 1000
  = [mkBookmark "a" "https://a.example/"; mkBookmark "b" "https://b.example/";
     mkBookmark "c" "https://c.example/"; mkBookmark "d" "https://d.example/";
     mkBookmark "e" "https://e.example/"].
Proof.
  destruct (force_refresh_ignores_cache Demo.parseURL Demo.five Demo.refresh
              Demo.warmStorage 1000 eq_refl) as [_ Hqueue].
  rewrite Hqueue. vm_compute. reflexivity.
Defined.

Lemma no_new_check_after_abort_witness :
  aborted (during Demo.parseURL Demo.five (Demo.withConcurrency 2) Demo.emptyStorage 1000
             Demo.untilAbort) = true
  /\ cursor (during Demo.parseURL Demo.five (Demo.withConcurrency 2) Demo.emptyStorage 1000
               Demo.abortAfterTwo)
     = cursor (during Demo.parseURL Demo.five (Demo.withConcurrency 2) Demo.emptyStorage
                 1000 Demo.untilAbort).
Proof.
  assert (Hfired : aborted (during Demo.parseURL Demo.five (Demo.withConcurrency 2)
                              Demo.emptyStorage 1000 Demo.untilAbort) = true)
    by (vm_compute; reflexivity).
  split; [exact Hfired |].
  apply (no_new_check_after_abort Demo.parseURL Demo.five (Demo.withConcurrency 2)
           Demo.emptyStorage 1000 Demo.untilAbort
           [Settled 0 Demo.cancelled 1012; Settled 1 Demo.cancelled 1012] Hfired).
Defined.

(** * Blanks around a url *)

Section Trim.

Local Abbreviation chars := list_ascii_of_string.

Lemma chars_trimStart (s : string) : chars (trimStart s) = dropBlanks (chars s).
Proof.
  induction s as [| a s IH]; [reflexivity |].
  simpl. destruct (Ascii.is_space a); [exact IH | reflexivity].
Qed.

Lemma chars_rev_app (s1 s2 : string) :
  chars (String.rev_app s1 s2) = rev (chars s1) ++ chars s2.
Proof.
  revert s2. induction s1 as [| a s1 IH]; intros s2; [reflexivity |].
  simpl. rewrite IH. simpl. rewrite <- app_assoc. reflexivity.
Qed.

Lemma chars_rev (s : string) : chars (String.rev s) = rev (chars s).
Proof. unfold String.rev. rewrite chars_rev_app. apply app_nil_r. Qed.

Lemma chars_append (s1 s2 : string) : chars (s1 +:+ s2) = chars s1 ++ chars s2.
Proof. induction s1 as [| a s1 IH]; [reflexivity |]. simpl. rewrite IH. reflexivity. Qed.

Lemma chars_trim (s : string) :
  chars (trim s) = rev (dropBlanks (rev (dropBlanks (chars s)))).
Proof. unfold trim. rewrite chars_rev, chars_trimStart, chars_rev, chars_trimStart. reflexivity. Qed.

Lemma chars_inj (s1 s2 : string) : chars s1 = chars s2 -> s1 = s2.
Proof.
  intros Heq. rewrite <- (string_of_list_ascii_of_string s1),
    <- (string_of_list_ascii_of_string s2), Heq. reflexivity.
Qed.

Lemma dropBlanks_blanks (pre l : list ascii) :
  Forall (fun a => Ascii.is_space a = true) pre -> dropBlanks (pre ++ l) = dropBlanks l.
Proof. induction 1 as [| a pre Ha _ IH]; [reflexivity |]. simpl. rewrite Ha. exact IH. Qed.

Lemma dropBlanks_app (l post : list ascii) :
  Forall (fun a => Ascii.is_space a = true) post ->
  dropBlanks (l ++ post) = if decide (dropBlanks l = []) then [] else dropBlanks l ++ post.
Proof.
  intros Hpost. induction l as [| a l IH]; simpl.
  - rewrite <- (app_nil_r post), dropBlanks_blanks by exact Hpost. reflexivity.
  - destruct (Ascii.is_space a); [exact IH | reflexivity].
Qed.

(** Blanks before and after a string do not show in what [trim] gives. *)
Lemma trim_outer_blanks (pre post s : string) :
  Forall (fun a => Ascii.is_space a = true) (chars pre) ->
  Forall (fun a => Ascii.is_space a = true) (chars post) ->
  trim (pre +:+ s +:+ post) = trim s.
Proof.
  intros Hpre Hpost. apply chars_inj.
  rewrite !chars_trim, !chars_append, dropBlanks_blanks by exact Hpre.
  rewrite dropBlanks_app by exact Hpost.
  destruct (decide (dropBlanks (chars s) = [])) as [-> | _]; [reflexivity |].
  rewrite rev_app_distr, dropBlanks_blanks; [reflexivity |].
  apply Forall_forall. intros a Ha. apply list_elem_of_In, in_rev, list_elem_of_In in Ha.
  rewrite Forall_forall in Hpost. apply Hpost, Ha.
Qed.

End Trim.

Section Blanks.

Variable parseURL : string -> option URL.

(** White space before and after a url makes no difference: the client and
    the server normalise the padded url to what they normalise the url to,
    and the check of the padded url does what the check of the url does. *)
Theorem normalizeUrl_ignores_outer_blanks (pre post url : string) :
  Forall (fun a => Ascii.is_space a = true) (list_ascii_of_string pre) ->
  Forall (fun a => Ascii.is_space a = true) (list_ascii_of_string post) ->
  Client.normalizeUrl parseURL (pre +:+ url +:+ post) = Client.normalizeUrl parseURL url
  /\ Server.normalizeUrl parseURL (Some (pre +:+ url +:+ post))
     = Server.normalizeUrl parseURL (Some url)
  /\ (forall env options s,
        Client.checkLinkHealth parseURL env (pre +:+ url +:+ post) options s
        = Client.checkLinkHealth parseURL env url options s).
Proof.
  intros Hpre Hpost.
  assert (Hn : Client.normalizeUrl parseURL (pre +:+ url +:+ post)
               = Client.normalizeUrl parseURL url).
  { unfold Client.normalizeUrl. rewrite trim_outer_blanks by assumption. reflexivity. }
  split; [exact Hn | split].
  - unfold Server.normalizeUrl. simpl. rewrite trim_outer_blanks by assumption. reflexivity.
  - intros env options s. unfold Client.checkLinkHealth. rewrite Hn. reflexivity.
Qed.

End Blanks.

Lemma normalizeUrl_ignores_outer_blanks_witness :
  Client.normalizeUrl Demo.parseURL "  example.com " = Some "https://example.com/".
Proof.
  destruct (normalizeUrl_ignores_outer_blanks Demo.parseURL "  " " " "example.com")
    as [Hn _].
  - repeat constructor.
  - repeat constructor.
  - change ("  " +:+ "example.com" +:+ " ") with "  example.com " in Hn.
    rewrite Hn. vm_compute. reflexivity.
Defined.

(** * Statements built at run time *)

Section DbPolicy.

(** The text of the statement of [updateBookmark] is a function of the
    members the patch has. *)
Lemma updateBookmark_text_of_shape :
  exists render : list bool -> list string,
    forall bookmark err userId id log,
      Db.sql <$> snd (Db.updateBookmark err userId id bookmark log)
      = (Db.sql <$> log) ++ render (Db.bookmarkShape bookmark).
Proof.
  exists (fun shape =>
            match shape with
            | [t; u; c; f; d; p; v; n] =>
                let member (present : bool) :=
                  if present then Some Db.JsNull else None in
                Db.sql <$> snd (Db.updateBookmark None Db.JsNull Db.JsNull
                                  (Db.mkBookmarkPatch (member t) (member u) (member c)
                                     (member f) (member d) (member p) (member v)
                                     (member n)) [])
            | _ => []
            end).
  intros [[t |] [u |] [c |] [f |] [d |] [p |] [v |] [n |]] err userId id log;
    unfold Db.updateBookmark, Db.run; cbn -[String.concat append];
    rewrite ?fmap_app, ?app_nil_r; reflexivity.
Qed.

(** [updateBookmark] runs at most one statement, and none when the patch
    has none of the eight members it reads.  The statement binds every value
    through a placeholder: its text has as many [?] before the [WHERE] as
    there are values, the values are those of the patch in the order of the
    columns (the two flags as 0 or 1), followed by the bookmark id and the
    user id, which the [WHERE] clause always tests.  The text depends on
    which members the patch has and on nothing else: another patch with the
    same members runs the same text. *)
Theorem updateBookmark_binds_every_value (err : option JsError) (userId id : Db.JsValue)
    (bookmark : Db.BookmarkPatch) (log : list Db.Statement) :
  let out := Db.updateBookmark err userId id bookmark log in
  (Db.bookmarkValues bookmark = [] -> out = (Return tt, log))
  /\ (Db.bookmarkValues bookmark <> [] ->
      exists text : string,
        out = (match err with Some e => Throw e | None => Return tt end,
               log ++ [Db.mkStatement
                         ("UPDATE bookmarks SET " +:+ text
                          +:+ " WHERE id = ? AND user_id = ?")
                         (Db.bookmarkValues bookmark ++ [id; userId])])
        /\ Db.placeholders text = length (Db.bookmarkValues bookmark)
        /\ forall (other : Db.BookmarkPatch) err' userId' id' log',
             Db.bookmarkShape other = Db.bookmarkShape bookmark ->
             Db.sql <$> snd (Db.updateBookmark err' userId' id' other log')
             = (Db.sql <$> log')
               ++ ["UPDATE bookmarks SET " +:+ text +:+ " WHERE id = ? AND user_id = ?"]).
Proof.
  destruct updateBookmark_text_of_shape as [render Hrender].
  pose proof (Hrender bookmark err userId id []) as Hself.
  destruct bookmark as [[t |] [u |] [c |] [f |] [d |] [p |] [v |] [n |]];
    (split; [intros Hnone; first [discriminate Hnone | reflexivity] |]);
    intros Hany; try contradiction;
    (eexists; split; [reflexivity |]; split; [reflexivity |]);
    intros other err' userId' id' log' Hshape;
    rewrite Hrender, Hshape; f_equal; symmetry; exact Hself.
Qed.

(** [updateUser] never lets the password as given reach the database: the
    value it binds for the password column is the hash, an empty password
    (like a missing one) leaves the column alone, and a password that
    cannot be hashed makes the call fail before any statement is run.  The
    statement binds every value through a placeholder and ends with the id
    of the user; without anything to set no statement is run.  A failure of
    the statement that mentions [UNIQUE] is reported as a name clash, any
    other failure as it is. *)
Theorem updateUser_binds_hash_only (hash : Db.JsValue -> Completion string)
    (err : option JsError) (id : Db.JsValue) (patch : Db.UserPatch)
    (log : list Db.Statement) :
  let out := Db.updateUser hash err id patch log in
  (forall password e,
     Db.givenPassword (Db.up_password patch) = Some password ->
     hash password = Throw e -> out = (Throw e, log))
  /\ (forall hashed : option string,
        (Db.givenPassword (Db.up_password patch) = None /\ hashed = None)
        \/ (exists password h,
              Db.givenPassword (Db.up_password patch) = Some password
              /\ hash password = Return h /\ hashed = Some h) ->
        (Db.userValues patch hashed = [] -> out = (Return tt, log))
        /\ (Db.userValues patch hashed <> [] ->
            exists text : string,
              out = (match err with
                     | Some e =>
                         Throw (if Db.includes "UNIQUE" (err_message e)
                                then plainError "Username or email already exists"
                                else e)
                     | None => Return tt
                     end,
                     log ++ [Db.mkStatement ("UPDATE users SET " +:+ text +:+ " WHERE id = ?")
                               (Db.userValues patch hashed ++ [id])])
              /\ Db.placeholders text = length (Db.userValues patch hashed))).
Proof.
  unfold Db.updateUser, Async.bind, Async.ret, Async.throw, Async.try_catch, Db.run.
  split.
  - intros password e -> ->. reflexivity.
  - intros hashed Hhashed.
    split.
    + destruct Hhashed as [[-> ->] | (password & h & -> & -> & ->)];
        destruct patch as [[u |] [m |] pw [r |]];
        intros Hnone; first [discriminate Hnone | reflexivity].
    + intros Hany.
      exists (String.concat ", "
                (omap (fun column => column)
                   [(fun _ => "username = ?") <$> Db.up_username patch;
                    (fun _ => "email = ?") <$> Db.up_email patch;
                    (fun _ => "role = ?") <$> Db.up_role patch;
                    (fun _ => "password = ?") <$> hashed])).
      destruct Hhashed as [[-> ->] | (password & h & -> & -> & ->)];
        destruct patch as [[u |] [m |] pw [r |]];
        try (exfalso; apply Hany; reflexivity);
        (split; [| reflexivity]);
        destruct err as [e |]; simpl; try reflexivity;
        destruct (Db.includes "UNIQUE" (err_message e)); reflexivity.
Qed.

End DbPolicy.

(** A patch with a title and a pin flag, and a rename that runs into the
    uniqueness constraint while the empty password is left alone. *)
Example update_statements :
  Db.updateBookmark None (Db.JsNum 7) (Db.JsStr "b1")
    (Db.mkBookmarkPatch (Some (Db.JsStr "Docs")) None None None None
       (Some (Db.JsBool true)) None None) []
  = (Return tt,
     [Db.mkStatement "UPDATE bookmarks SET title = ?, is_pinned = ? WHERE id = ? AND user_id = ?"
        [Db.JsStr "Docs"; Db.JsNum 1; Db.JsStr "b1"; Db.JsNum 7]])
  /\ Db.updateUser (fun _ => Return "hashed")
       (Some (plainError "SQLITE_CONSTRAINT: UNIQUE constraint failed: users.username"))
       (Db.JsStr "2")
       (Db.mkUserPatch (Some (Db.JsStr "bob")) None (Some (Db.JsStr EmptyString)) None) []
     = (Throw (plainError "Username or email already exists"),
        [Db.mkStatement "UPDATE users SET username = ? WHERE id = ?"
           [Db.JsStr "bob"; Db.JsStr "2"]]).
Proof. vm_compute. auto. Qed.

(** * Who may delete a user *)

Section AdminPolicy.

Variable verify : string -> Completion Api.Claims.

Local Ltac run_api :=
  unfold Api.deleteUserRoute, Api.deleteUserHandler, Api.verifyAdmin, Api.findUserById,
    Api.deleteUser, Async.bind, Async.try_catch, Async.ret, Async.throw in *.

Local Ltac settle :=
  simpl; rewrite ?elem_of_cons, ?elem_of_nil;
  repeat match goal with
         | |- _ /\ _ => split
         | |- _ <-> _ => split
         | |- forall _, _ => intro
         | H : exists _, _ |- _ => destruct H
         | H : _ /\ _ |- _ => destruct H
         | H : _ \/ _ |- _ => destruct H
         | H : False |- _ => destruct H
         | H : _ ∈ _ |- _ => rewrite ?elem_of_cons, ?elem_of_nil in H
         end;
  simplify_eq; simpl in *; try congruence; eauto 10.

(** The route always replies, and it asks the database to delete the user
    exactly when the request carries a token that verifies, the token's role
    is admin, the user exists, is not named [admin] and is not the caller.
    The reply is 200 exactly when that deletion was asked for and succeeded.
    Without a valid token the reply is that of [verifyToken], with code 401;
    with a valid token of another role it is 403; in both cases the database
    is not touched.  No other user than the one named in the path is looked
    up or deleted. *)
Theorem admin_delete_is_guarded (env : Api.DbEnv) (authHeader : option string)
    (id : string) :
  exists (reply : Api.Reply) (ops : list Api.DbOp),
    Api.deleteUserRoute verify env authHeader id [] = (Return reply, ops)
    /\ (Api.DeleteUser id ∈ ops <->
        exists admin row,
          Api.verifyToken verify authHeader = inr admin
          /\ Api.c_role admin = "admin"
          /\ Api.db_find env = Api.Found row
          /\ Api.u_username row <> "admin"
          /\ Api.u_id row <> Api.c_id admin)
    /\ (Api.code reply = 200%Z <->
        Api.DeleteUser id ∈ ops /\ Api.db_delete env = None)
    /\ (forall refusal, Api.verifyToken verify authHeader = inl refusal ->
          reply = refusal /\ Api.code reply = 401%Z /\ ops = [])
    /\ (forall user, Api.verifyToken verify authHeader = inr user ->
          Api.c_role user <> "admin" -> Api.code reply = 403%Z /\ ops = [])
    /\ (forall op, op ∈ ops -> op = Api.FindUserById id \/ op = Api.DeleteUser id).
Proof.
  run_api.
  destruct (Api.verifyToken verify authHeader) as [refusal | user] eqn:Htoken.
  { assert (Hcode : Api.code refusal = 401%Z).
    { unfold Api.verifyToken in Htoken. repeat case_match; simplify_eq; reflexivity. }
    eexists _, _. split; [reflexivity |]. settle. }
  case_bool_decide as Hrole.
  2:{ eexists _, _. split; [reflexivity |]. settle. }
  destruct (Api.db_find env) as [row | | e] eqn:Hfind; simpl;
    [case_bool_decide as Hname;
       [| case_bool_decide as Hself;
          [| destruct (Api.db_delete env) as [e |] eqn:Hdel]] | |];
    simpl; eexists _, _; (split; [reflexivity |]); settle.
Qed.

Lemma split_plain (sep : ascii) (s : string) :
  sep ∉ list_ascii_of_string s -> Api.split sep s = [s].
Proof.
  induction s as [| a s IH]; [reflexivity |].
  simpl. rewrite not_elem_of_cons. intros [Hne Hs].
  rewrite bool_decide_eq_false_2 by congruence. rewrite IH by exact Hs. reflexivity.
Qed.

Lemma split_first (sep : ascii) (s rest : string) :
  sep ∉ list_ascii_of_string s ->
  Api.split sep (s +:+ String sep rest) = s :: Api.split sep rest.
Proof.
  induction s as [| a s IH]; simpl.
  - intros _. rewrite bool_decide_eq_true_2 by reflexivity. reflexivity.
  - rewrite not_elem_of_cons. intros [Hne Hs].
    rewrite bool_decide_eq_false_2 by congruence. rewrite IH by exact Hs. reflexivity.
Qed.

(** [verifyToken] takes the second word of the header for the token and
    does not look at the first: whatever stands before the blank, the
    outcome is that of verifying the word after it.  A header that consists
    of the token alone is refused, as a missing header is. *)
Theorem verifyToken_reads_second_word (scheme token : string) :
  " "%char ∉ list_ascii_of_string scheme ->
  " "%char ∉ list_ascii_of_string token ->
  token <> EmptyString ->
  Api.verifyToken verify (Some (scheme +:+ " " +:+ token))
  = match verify token with
    | Return verified => inr verified
    | Throw _ => inl (Api.mkReply 401 (Api.ErrorJson "Invalid token"))
    end
  /\ Api.verifyToken verify (Some token)
     = inl (Api.mkReply 401 (Api.ErrorJson "Access denied"))
  /\ Api.verifyToken verify None = inl (Api.mkReply 401 (Api.ErrorJson "Access denied")).
Proof.
  intros Hscheme Htoken Hne. unfold Api.verifyToken.
  split; [| split; [| reflexivity]].
  - rewrite bool_decide_eq_false_2 by (destruct scheme; discriminate).
    change (scheme +:+ " " +:+ token) with (scheme +:+ String " " token).
    rewrite split_first, split_plain by assumption. simpl.
    rewrite bool_decide_eq_false_2 by exact Hne. reflexivity.
  - rewrite bool_decide_eq_false_2 by exact Hne.
    rewrite split_plain by exact Htoken. reflexivity.
Qed.

End AdminPolicy.

Lemma verifyToken_reads_second_word_witness :
  Api.verifyToken Demo.verify (Some "Basic root-token")
  = inr (Api.mkClaims 1 "root" "admin")
  /\ Api.verifyToken Demo.verify (Some "root-token")
     = inl (Api.mkReply 401 (Api.ErrorJson "Access denied")).
Proof.
  destruct (verifyToken_reads_second_word Demo.verify "Basic" "root-token")
    as (Hsecond & Halone & _).
  - intros Hin%list_elem_of_In. simpl in Hin. intuition discriminate.
  - intros Hin%list_elem_of_In. simpl in Hin. intuition discriminate.
  - discriminate.
  - split; [exact Hsecond | exact Halone].
Defined.

(** An admin deletes bob; bob cannot delete anybody. *)
Example admin_deletes_bob :
  Api.deleteUserRoute Demo.verify (Api.mkDbEnv (Api.Found Demo.userBob) None)
    (Some "Bearer root-token") "2" []
  = (Return (Api.mkReply 200 Api.SuccessJson), [Api.FindUserById "2"; Api.DeleteUser "2"])
  /\ Api.deleteUserRoute Demo.verify (Api.mkDbEnv (Api.Found Demo.userBob) None)
       (Some "Bearer bob-token") "1" []
     = (Return (Api.mkReply 403 (Api.ErrorJson "Access denied: Admins only")), []).
Proof. vm_compute. auto. Qed.

(** * Two inputs off the beaten path *)

(** A repeated mode parameter: the handler throws before it has done
    anything. *)
Example repeated_mode_rejects :
  Server.linkHealthRoute Demo.parseURL Demo.informational Demo.repeatedMode
    Server.initialSrv
  = (Throw (typeError "(req.query.mode || 'auto').toLowerCase is not a function"),
     Server.initialSrv).
Proof. vm_compute. reflexivity. Qed.

(** A stored JSON array: the run checks both valid targets, and the array
    is stored back as it was, without their entries. *)
Example array_storage_keeps_no_entry :
  queueOf Demo.parseURL Demo.bookmarksABC Demo.noOptions Demo.arrayStorage 1000
  = [mkBookmark "a" "https://a.example/"; mkBookmark "b" "https://b.example/"]
  /\ finalStorage <$> batchCheckLinks Demo.parseURL Demo.bookmarksABC Demo.noOptions
                        Demo.arrayStorage 1000 Demo.settleBA
     = Some Demo.arrayStorage.
Proof. vm_compute. auto. Qed.
